(** * db2fs: moving Odoo attachments from the database to the filestore

    A shallow embedding of [db2fs.py] (class [DocumentMover]) and the
    properties of its migration engine.

    The script talks to three outside parties: the XML-RPC object endpoint
    of the Odoo server ([self.execute]), a PostgreSQL cursor
    ([cr.execute]) and the local file system ([os.path.isdir]).  The
    methods of [DocumentMover] are embedded as finite interaction programs
    ([script]); an [Env] says how the outside parties answer, and [interp]
    runs a script against an environment, keeping a journal of every
    request and every log line. *)

From Stdlib Require Import ZArith List String Ascii Bool Lia Permutation.
From Stdlib Require Import DecimalString DecimalPos DecimalZ.
Import ListNotations.

Local Open Scope string_scope.
Local Open Scope Z_scope.
Local Open Scope list_scope.

Set Implicit Arguments.

(** ** Python values as they cross the XML-RPC boundary *)

(** A field of a record returned by [read]: [False], an integer, a string
    or a many2one reference [[id, name]]. *)
Inductive field : Type :=
| FBool (b : bool)
| FInt (n : Z)
| FStr (s : string)
| FRef (id : Z) (name : string).

(** A record is a Python dict from field names to values. *)
Definition record : Type := list (string * field).

(** The exceptions the script can meet.  [XFault] is [xmlrpclib.Fault];
    every constructor is an instance of [Exception]. *)
Inductive exn : Type :=
| XFault (faultCode : Z) (faultString : string)
| XTransport (what : string)          (* socket.error, ProtocolError, ... *)
| XIndexError
| XKeyError (key : string)
| XTypeError
| XAttributeError
| XUnboundLocalError (var : string)
| XFormatError                        (* IndexError, KeyError or ValueError of str.format *)
| XValueError
| XZeroDivisionError
| XPsycopg (what : string)            (* psycopg2.Error *)
| XException (msg : string).          (* raise Exception(msg) *)

Definition is_fault (e : exn) : bool :=
  match e with XFault _ _ => true | _ => false end.

Inductive result (R : Type) : Type :=
| Ok (r : R)
| Failed (e : exn).
Arguments Ok {R} r.
Arguments Failed {R} e.

(** ** Strings *)

Definition ascii_dot : ascii := "."%char.

(** [x[key]] on a dict. *)
Fixpoint getitem (r : record) (key : string) : option field :=
  match r with
  | [] => None
  | (k, v) :: r' => if String.eqb k key then Some v else getitem r' key
  end.

(** [str(n)] and ['%d' % n] for an integer. *)
Definition str_of_Z (n : Z) : string := NilZero.string_of_int (Z.to_int n).

(** [str(v)] for a field value ([unicode] strings print as themselves;
    the list form of a reference is printed without the [u] prefix). *)
Definition py_str (v : field) : string :=
  match v with
  | FBool true => "True"
  | FBool false => "False"
  | FInt n => str_of_Z n
  | FStr s => s
  | FRef id name => "[" ++ str_of_Z id ++ ", '" ++ name ++ "']"
  end%string.

(** Truth value of a field, as [if v:] tests it. *)
Definition truthy (v : field) : bool :=
  match v with
  | FBool b => b
  | FInt n => negb (n =? 0)
  | FStr s => negb (String.eqb s EmptyString)
  | FRef _ _ => true
  end.

(** [==] on field values: [True == 1] and [False == 0] hold in Python. *)
Definition py_eqb (a b : field) : bool :=
  match a, b with
  | FStr s, FStr t => String.eqb s t
  | FRef i n, FRef j m => (i =? j) && String.eqb n m
  | FBool x, FBool y => Bool.eqb x y
  | FInt x, FInt y => x =? y
  | FBool x, FInt y => (if x then 1 else 0) =? y
  | FInt x, FBool y => x =? (if y then 1 else 0)
  | _, _ => false
  end.

(** [len(set(l))]: the number of values of [l] that differ under [==]. *)
Fixpoint py_set (l : list field) : list field :=
  match l with
  | [] => []
  | x :: l' => if existsb (py_eqb x) l' then py_set l' else x :: py_set l'
  end.

(** [s.split(sep, maxsplit)]. *)
Definition cons_head (c : ascii) (l : list string) : list string :=
  match l with
  | [] => [String c EmptyString]
  | h :: t => String c h :: t
  end.

Fixpoint py_split (sep : ascii) (maxsplit : nat) (s : string) {struct s}
  : list string :=
  match s with
  | EmptyString => [EmptyString]
  | String c r =>
      if Ascii.eqb c sep then
        match maxsplit with
        | O => cons_head c (py_split sep O r)
        | S m => EmptyString :: py_split sep m r
        end
      else cons_head c (py_split sep maxsplit r)
  end.

(** [s.split(sep)]: every separator splits. *)
Fixpoint py_split_all (sep : ascii) (s : string) : list string :=
  match s with
  | EmptyString => [EmptyString]
  | String c r =>
      if Ascii.eqb c sep then EmptyString :: py_split_all sep r
      else cons_head c (py_split_all sep r)
  end.

(** [sep.join(l)]. *)
Fixpoint py_join (sep : string) (l : list string) : string :=
  match l with
  | [] => EmptyString
  | [a] => a
  | a :: l' => (a ++ sep ++ py_join sep l')%string
  end.

(** [template.format(a, ...)] for templates whose replacement fields are
    all the automatic [{}]; [{{] and [}}] are the escaped braces.  Any
    other use of a brace makes [str.format] raise when the arguments are
    positional and an automatic field came first, which is the only way
    the script calls it. *)
Fixpoint py_format (t : string) (args : list string) {struct t}
  : option string :=
  match t with
  | EmptyString => Some EmptyString
  | String c r =>
      if Ascii.eqb c "{"%char then
        match r with
        | EmptyString => None
        | String c2 r2 =>
            if Ascii.eqb c2 "{"%char then
              option_map (String "{"%char) (py_format r2 args)
            else if Ascii.eqb c2 "}"%char then
              match args with
              | [] => None
              | a :: args' => option_map (String.append a) (py_format r2 args')
              end
            else None
        end
      else if Ascii.eqb c "}"%char then
        match r with
        | EmptyString => None
        | String c2 r2 =>
            if Ascii.eqb c2 "}"%char then
              option_map (String "}"%char) (py_format r2 args)
            else None
        end
      else option_map (String c) (py_format r args)
  end.

(** ** [distutils.version.LooseVersion] *)

Inductive char_class : Type := CDigit | CLower | CDot | COther.

Definition classify (c : ascii) : char_class :=
  let n := nat_of_ascii c in
  if (48 <=? n)%nat && (n <=? 57)%nat then CDigit
  else if (97 <=? n)%nat && (n <=? 122)%nat then CLower
  else if Ascii.eqb c ascii_dot then CDot
  else COther.

Definition class_eqb (a b : char_class) : bool :=
  match a, b with
  | CDigit, CDigit | CLower, CLower | CDot, CDot | COther, COther => true
  | _, _ => false
  end.

(** [component_re.split(vstring)]: maximal runs of digits, of lower-case
    letters and of other characters; every dot stands alone. *)
Fixpoint component_re_split (s : string) : list (char_class * string) :=
  match s with
  | EmptyString => []
  | String c r =>
      let rest := component_re_split r in
      match classify c with
      | CDot => (CDot, String c EmptyString) :: rest
      | k =>
          match rest with
          | (k', t) :: rest' =>
              if class_eqb k k' then (k, String c t) :: rest'
              else (k, String c EmptyString) :: rest
          | [] => [(k, String c EmptyString)]
          end
      end
  end.

(** [int(s)] on a run of decimal digits. *)
Fixpoint int_of_digits (acc : Z) (s : string) : Z :=
  match s with
  | EmptyString => acc
  | String c r => int_of_digits (10 * acc + (Z.of_nat (nat_of_ascii c) - 48)) r
  end.

(** A parsed component: an [int] or a [str]. *)
Definition component : Type := (Z + string)%type.

(** [LooseVersion(vstring).version]. *)
Definition LooseVersion (vstring : string) : list component :=
  map (fun ks : char_class * string =>
         match fst ks with
         | CDigit => inl (int_of_digits 0 (snd ks))
         | _ => inr (snd ks)
         end)
      (filter (fun ks : char_class * string => negb (class_eqb (fst ks) CDot))
              (component_re_split vstring)).

(** Python 2 [cmp] on components: numbers sort before strings. *)
Definition cmp_component (a b : component) : comparison :=
  match a, b with
  | inl x, inl y => Z.compare x y
  | inl _, inr _ => Lt
  | inr _, inl _ => Gt
  | inr s, inr t => String.compare s t
  end.

(** Python 2 [cmp] on lists. *)
Fixpoint cmp_version (v w : list component) : comparison :=
  match v, w with
  | [], [] => Eq
  | [], _ :: _ => Lt
  | _ :: _, [] => Gt
  | a :: v', b :: w' =>
      match cmp_component a b with
      | Eq => cmp_version v' w'
      | c => c
      end
  end.

(** [version(a) >= b] and [version(a) < b] with [b] a string. *)
Definition version_ge (a b : string) : bool :=
  match cmp_version (LooseVersion a) (LooseVersion b) with
  | Lt => false
  | _ => true
  end.

Definition version_lt (a b : string) : bool :=
  match cmp_version (LooseVersion a) (LooseVersion b) with
  | Lt => true
  | _ => false
  end.

(** [l.remove(x)]: drops the first occurrence, [ValueError] when there is
    none. *)
Fixpoint py_remove (x : Z) (l : list Z) : option (list Z) :=
  match l with
  | [] => None
  | y :: l' =>
      if x =? y then Some l'
      else option_map (cons y) (py_remove x l')
  end.

(** [range(start, stop, step)] for a positive [step]. *)
Definition py_range (start stop step : Z) : list Z :=
  map (fun k : nat => start + Z.of_nat k * step)
      (seq 0 (Z.to_nat ((stop - start + step - 1) / step))).

(** ** Requests to the outside world *)

(** One term of a search domain: [(field, operator, value)]. *)
Definition criterion : Type := (string * string * field)%type.

(** The identities a [write] is addressed to: a list of identities, or
    whatever value the script found in a record. *)
Inductive target : Type :=
| TIds (ids : list Z)
| TVal (v : field).

(** A value in a row of a SQL result. *)
Inductive sqlval : Type :=
| SNull
| SInt (n : Z)
| SBytes (b : string).

Definition row : Type := list sqlval.

(** The statements [manual_attachment_conversion] sends, with their
    parameters. *)
Inductive stmt : Type :=
| SelectCountParentNotNull
    (* SELECT count( * ) FROM ir_attachment WHERE parent_id IS not null *)
| SelectDirRoot
    (* SELECT res_id FROM ir_model_data
       WHERE model = 'document.directory' AND name = 'dir_root' *)
| SelectCountToConvert
    (* SELECT count( * ) FROM ir_attachment
       WHERE parent_id IS null AND db_datas IS not NULL *)
| UpdateBatch (parent_id : sqlval) (lo hi : Z)
    (* UPDATE ir_attachment
       SET parent_id = %s, db_datas = decode(encode(db_datas,'escape'), 'base64')
       WHERE parent_id IS NULL AND id BETWEEN %s AND %s *)
| UpdateRemaining (parent_id : sqlval)
    (* UPDATE ir_attachment SET parent_id = %s WHERE parent_id IS NULL *)
| AlterParentNotNull
    (* ALTER TABLE ir_attachment ALTER parent_id SET NOT NULL *)
| SelectCountSizeZero
    (* SELECT count( * ) FROM ir_attachment
       WHERE file_size=0 AND db_datas IS NOT NULL *)
| SelectSizeZero
    (* SELECT id, db_datas FROM ir_attachment
       WHERE file_size=0 AND db_datas IS NOT NULL *)
| UpdateFileSize (f_size : Z) (id : sqlval).
    (* UPDATE ir_attachment SET file_size=%s WHERE id=%s *)

Inductive level : Type := INFO | ERROR.

(** Everything the script asks of the outside world, with the type of the
    answer.  The first six are [self.sock.execute(dbname, uid, pwd, model,
    method, ...)]; [order = Some "id"] stands for the extra arguments
    [0, False, 'id'] of a search. *)
Inductive event : Type -> Type :=
| Search (model : string) (domain : list criterion) (order : option string)
  : event (result (list Z))
| Read (model : string) (ids : list Z) (fields : list string)
  : event (result (list record))
| ReadOne (model : string) (id : Z) (fields : list string)
  : event (result record)
| Create (model : string) (vals : record) : event (result Z)
| Write (model : string) (ids : target) (vals : record) : event (result bool)
| Method (model : string) (name : string) (ids : list Z) : event (result unit)
| Login (db usr pwd : string) : event (result field) (* sock_common.login *)
| Getpass : event string                             (* getpass() *)
| Connect (dsn : string) : event (result unit)       (* psycopg2.connect *)
| CrExecute (s : stmt) : event (result (list row))   (* cursor execute and fetch *)
| IsDir (path : string) : event bool                 (* os.path.isdir *)
| Logging (lvl : level) (msg : string) : event unit. (* logging.info / .error *)

(** ** Scripts *)

Inductive script (A : Type) : Type :=
| Ret (a : A)
| Raise (e : exn)
| SysExit (code : Z)
| Vis (R : Type) (e : event R) (k : R -> script A).
Arguments Ret {A} a.
Arguments Raise {A} e.
Arguments SysExit {A} code.
Arguments Vis {A R} e k.

Fixpoint bind {A B : Type} (p : script A) (f : A -> script B) : script B :=
  match p with
  | Ret a => f a
  | Raise e => Raise e
  | SysExit c => SysExit c
  | Vis e k => Vis e (fun r => bind (k r) f)
  end.

Declare Scope script_scope.
Delimit Scope script_scope with script.
Bind Scope script_scope with script.
Notation "x <- p ;; q" := (bind p (fun x => q))
  (at level 61, p at next level, right associativity) : script_scope.
Notation "p ;; q" := (bind p (fun _ => q))
  (at level 61, right associativity) : script_scope.
Local Open Scope script_scope.

(** How a run ends: the method returns, the process exits through
    [sys.exit], or an exception leaves the method. *)
Inductive outcome (A : Type) : Type :=
| Returned (a : A)
| Exited (code : Z)
| Raised (e : exn).
Arguments Returned {A} a.
Arguments Exited {A} code.
Arguments Raised {A} e.

(** One entry of the journal: a request and its answer. *)
Inductive obs : Type :=
| Obs (R : Type) (e : event R) (r : R).
Arguments Obs {R} e r.

Definition journal : Type := list obs.

(** The outside world: a state and the way it answers each request. *)
Record Env (W : Type) : Type := {
  handle : forall R : Type, event R -> W -> R * W
}.

Section Interp.
Context {W : Type} (env : Env W).

Fixpoint interp {A : Type} (p : script A) (w : W)
    : outcome A * W * journal :=
    match p with
    | Ret a => (Returned a, w, [])
    | Raise e => (Raised e, w, [])
    | SysExit c => (Exited c, w, [])
    | Vis e k =>
        let (r, w1) := handle env e w in
        let '(o, w2, j) := interp (k r) w1 in
        (o, w2, Obs e r :: j)
    end.
End Interp.

(** The status of the Python process for an outcome of [run]: an
    exception nobody catches ends the interpreter with status 1. *)
Definition exit_status {A : Type} (o : outcome A) : Z :=
  match o with
  | Returned _ => 0
  | Exited c => c
  | Raised _ => 1
  end.

(** ** The script's constants and command line *)

Definition ERROR_ODOO_VERSION_NOT_FOUND : Z := 2.
Definition ERROR_NO_FILESTORE_PATH : Z := 3.
Definition ERROR_FILESTORE_PATH_DOES_NOT_EXIST : Z := 4.
Definition ERROR_DOCUMENT_STORAGE_ALREADY_EXIST : Z := 5.
Definition ERROR_DOCUMENT_NOT_INSTALLED : Z := 6.
Definition ERROR_ATTACHMENTS_ALREADY_IN_A_FILESTORE : Z := 7.
Definition ERROR_USER_NOT_ADMIN : Z := 8.
Definition ERROR_NO_DNS : Z := 9.

(** The parsed command line.  [--filestore-path] and [--dsn] default to
    [False], which is [None] here. *)
Record Args : Type := {
  args_dbname : string;
  args_user : string;
  args_password : string;
  args_filestore_path : option string;
  args_install_document_module : bool;
  args_manual_attachment_conversion : bool;
  args_dsn : option string;
  args_quiet : bool
}.

(** [not x] for an option that is a string or [False]. *)
Definition falsy (x : option string) : bool :=
  match x with
  | None => true
  | Some s => String.eqb s EmptyString
  end.

(** The value of such an option when it is sent in a request. *)
Definition option_field (x : option string) : field :=
  match x with
  | None => FBool false
  | Some s => FStr s
  end.

(** ** Small steps shared by the methods *)

(** [self.execute(...)]: an [xmlrpclib.Fault] or a transport error leaves
    the call as an exception. *)
Definition execute {R : Type} (e : event (result R)) : script R :=
  Vis e (fun r => match r with Ok v => Ret v | Failed x => Raise x end).

(** [self.log(msg, out_to_err)]. *)
Definition log (msg : string) (out_to_err : bool) : script unit :=
  Vis (Logging (if out_to_err then ERROR else INFO) msg) Ret.

(** [l[0]] on a list. *)
Definition index0 {X : Type} (l : list X) : script X :=
  match l with
  | [] => Raise XIndexError
  | x :: _ => Ret x
  end.

(** [r[key]] on a dict. *)
Definition item (r : record) (key : string) : script field :=
  match getitem r key with
  | Some v => Ret v
  | None => Raise (XKeyError key)
  end.

(** [template.format(...)]. *)
Definition format (t : string) (a : list string) : script string :=
  match py_format t a with
  | Some s => Ret s
  | None => Raise XFormatError
  end.

(** [unicode(e)] for an exception that is logged. *)
Definition unicode_exn (e : exn) : string :=
  match e with
  | XFault c s => "<Fault " ++ str_of_Z c ++ ": '" ++ s ++ "'>"
  | XTransport s => s
  | XPsycopg s => s
  | XException s => s
  | XKeyError k => "'" ++ k ++ "'"
  | _ => EmptyString
  end%string.

(** [len(l)] on a list. *)
Definition len {X : Type} (l : list X) : Z := Z.of_nat (List.length l).

(** ** [move_using_config_parameter] (Odoo 7.0 and 8.0) *)

(** The local variables that the [try] statement of the loop assigns and
    its handlers read; [None] is a name that is not bound yet. *)
Record locals : Type := {
  attachment_ids : list Z;
  attachment : option record;
  msg : option string;
  status : option string
}.

Definition set_attachment_ids (st : locals) (l : list Z) : locals :=
  {| attachment_ids := l; attachment := attachment st;
     msg := msg st; status := status st |}.
Definition set_attachment (st : locals) (a : record) : locals :=
  {| attachment_ids := attachment_ids st; attachment := Some a;
     msg := msg st; status := status st |}.
Definition set_msg (st : locals) (m : string) : locals :=
  {| attachment_ids := attachment_ids st; attachment := attachment st;
     msg := Some m; status := status st |}.
Definition set_status (st : locals) (s : string) : locals :=
  {| attachment_ids := attachment_ids st; attachment := attachment st;
     msg := msg st; status := Some s |}.

(** The locals when the loop starts: [attachment_ids] is the result of
    the search, the other names are not bound. *)
Definition fresh_locals (ids : list Z) : locals :=
  {| attachment_ids := ids; attachment := None; msg := None; status := None |}.

(** A statement inside [try]: it runs on the locals and either completes
    or stops with the exception it raised, the locals being what they were
    at that point. *)
Definition block (A : Type) : Type := locals -> script (locals * result A).

Definition bdone {A : Type} (a : A) : block A :=
  fun st => Ret (st, Ok a).
Definition braise {A : Type} (e : exn) : block A :=
  fun st => Ret (st, Failed e).
Definition bbind {A B : Type} (m : block A) (f : A -> block B) : block B :=
  fun st =>
    bind (m st) (fun r =>
      match r with
      | (st1, Ok a) => f a st1
      | (st1, Failed e) => Ret (st1, Failed e)
      end).
Definition battempt {R : Type} (e : event (result R)) : block R :=
  fun st => Vis e (fun r => Ret (st, r)).
Definition bassign (f : locals -> locals) : block unit :=
  fun st => Ret (f st, Ok tt).
Definition boption {A : Type} (o : option A) (e : exn) : block A :=
  match o with
  | Some a => bdone a
  | None => braise e
  end.
Definition blog (m : string) : block unit :=
  fun st => Vis (Logging INFO m) (fun _ => Ret (st, Ok tt)).

Notation "x <~ p ;; q" := (bbind p (fun x => q))
  (at level 61, p at next level, right associativity) : script_scope.

(** Lines 147-158: the body of [try]. *)
Definition try_block (attachment_id c total : Z) : block unit :=
  attachments <~ battempt (Read "ir.attachment" [attachment_id]
                                ["id"; "name"; "datas"]) ;;
  a <~ boption (hd_error attachments) XIndexError ;;
  _ <~ bassign (fun st => set_attachment st a) ;;
  id <~ boption (getitem a "id") (XKeyError "id") ;;
  name <~ boption (getitem a "name") (XKeyError "name") ;;
  m <~ boption (py_format
                  "Moving attachment (id={}) {}/{} (status: {{}}): {}"
                  [py_str id; str_of_Z c; str_of_Z total; py_str name])
               XFormatError ;;
  _ <~ bassign (fun st => set_msg st m) ;;
  id' <~ boption (getitem a "id") (XKeyError "id") ;;
  datas <~ boption (getitem a "datas") (XKeyError "datas") ;;
  _ <~ battempt (Write "ir.attachment" (TVal id') [("datas", datas)]) ;;
  _ <~ bassign (fun st => set_status st "ok") ;;
  line <~ boption (py_format m ["ok"]) XFormatError ;;
  blog line.

(** Lines 159-163: [except xmlrpclib.Fault as e]. *)
Definition except_fault (attachment_id : Z) (e : exn) (st : locals)
  : script locals :=
  log (unicode_exn e) true ;;
  match py_remove attachment_id (attachment_ids st) with
  | None => Raise XValueError
  | Some l =>
      let st1 := set_status (set_attachment_ids st l) "fail" in
      match msg st1 with
      | None => Raise (XUnboundLocalError "msg")
      | Some m => line <- format m ["fail"] ;; log line false ;; Ret st1
      end
  end.

(** Lines 164-167: [except Exception as e]. *)
Definition except_exception (st : locals) : script locals :=
  match attachment st with
  | None => Raise (XUnboundLocalError "attachment")
  | Some a =>
      id <- item a "id" ;;
      m <- format "Error when trying to move attachment with id={}"
                  [py_str id] ;;
      let st1 := set_msg st m in
      match status st1 with
      | None => Raise (XUnboundLocalError "status")
      | Some s => line <- format m [s] ;; log line false ;; Ret st1
      end
  end.

(** Lines 145-167: one turn of the loop for [attachment_id], [c] already
    incremented. *)
Definition move_attachment (attachment_id c total : Z) (st : locals)
  : script locals :=
  r <- try_block attachment_id c total st ;;
  match r with
  | (st1, Ok _) => Ret st1
  | (st1, Failed e) =>
      if is_fault e then except_fault attachment_id e st1
      else except_exception st1
  end.

(** Lines 144-167: [for attachment_id in list(attachment_ids)], over the
    copy [snapshot] of the list, [c] being the number of turns done. *)
Fixpoint move_attachments (snapshot : list Z) (c total : Z) (st : locals)
  : script locals :=
  match snapshot with
  | [] => Ret st
  | attachment_id :: rest =>
      st1 <- move_attachment attachment_id (c + 1) total st ;;
      move_attachments rest (c + 1) total st1
  end.

(** Lines 169-172: the batch write that empties [db_datas]. *)
Definition delete_from_database (st : locals) : script unit :=
  log "Deleting attachments from database" false ;;
  _ <- execute (Write "ir.attachment" (TIds (attachment_ids st))
                      [("db_datas", FBool false)]) ;;
  Ret tt.

(** Lines 144-172. *)
Definition move_and_delete (ids : list Z) : script unit :=
  st <- move_attachments ids 0 (len ids) (fresh_locals ids) ;;
  delete_from_database st.

Definition location_parameter : record :=
  [("key", FStr "ir_attachment.location"); ("value", FStr "file:filestore")].

Definition move_using_config_parameter : script unit :=
  value_ids <- execute (Search "ir.config_parameter"
                          [("key", "=", FStr "ir_attachment.location")]
                          (Some "id")) ;;
  _ <- match value_ids with
       | [] => _ <- execute (Create "ir.config_parameter" location_parameter) ;;
               Ret tt
       | _ :: _ => _ <- execute (Write "ir.config_parameter" (TIds value_ids)
                                       location_parameter) ;;
                   Ret tt
       end ;;
  log "Begin moving attachments" false ;;
  ids <- execute (Search "ir.attachment" [] None) ;;
  move_and_delete ids.

(** ** [manual_attachment_conversion] and the logging cursor *)

Definition sql_literal (v : sqlval) : string :=
  match v with
  | SNull => "NULL"
  | SInt n => str_of_Z n
  | SBytes b => "'" ++ b ++ "'"
  end%string.

(** [self.mogrify(query, vars)], white space put on one line. *)
Definition mogrify (s : stmt) : string :=
  match s with
  | SelectCountParentNotNull =>
      "SELECT count(*) FROM ir_attachment WHERE parent_id IS not null"
  | SelectDirRoot =>
      "SELECT res_id FROM ir_model_data WHERE model = 'document.directory' AND name = 'dir_root'"
  | SelectCountToConvert =>
      "SELECT count(*) FROM ir_attachment WHERE parent_id IS null AND db_datas IS not NULL"
  | UpdateBatch p lo hi =>
      "UPDATE ir_attachment SET parent_id = " ++ sql_literal p
      ++ ", db_datas = decode(encode(db_datas,'escape'), 'base64') WHERE parent_id IS NULL AND id BETWEEN "
      ++ str_of_Z lo ++ " AND " ++ str_of_Z hi
  | UpdateRemaining p =>
      "UPDATE ir_attachment SET parent_id = " ++ sql_literal p
      ++ " WHERE parent_id IS NULL"
  | AlterParentNotNull =>
      "ALTER TABLE ir_attachment ALTER parent_id SET NOT NULL"
  | SelectCountSizeZero =>
      "SELECT count(*) FROM ir_attachment WHERE file_size=0 AND db_datas IS NOT NULL"
  | SelectSizeZero =>
      "SELECT id, db_datas FROM ir_attachment WHERE file_size=0 AND db_datas IS NOT NULL"
  | UpdateFileSize n id =>
      "UPDATE ir_attachment SET file_size=" ++ str_of_Z n
      ++ " WHERE id=" ++ sql_literal id
  end%string.

(** [loggingcursor.execute]: the statement is logged, then run; an error
    of the database is logged and raised again. *)
Definition cr_execute (s : stmt) : script (list row) :=
  log (mogrify s) false ;;
  Vis (CrExecute s) (fun r =>
    match r with
    | Ok rows => Ret rows
    | Failed e => log ("ERROR - " ++ unicode_exn e)%string true ;; Raise e
    end).

(** [cr.fetchone()[0]]. *)
Definition fetchone_0 (rows : list row) : script sqlval :=
  match rows with
  | [] => Raise XTypeError            (* fetchone() is None *)
  | [] :: _ => Raise XIndexError
  | (v :: _) :: _ => Ret v
  end.

Definition sql_truthy (v : sqlval) : bool :=
  match v with
  | SNull => false
  | SInt n => negb (n =? 0)
  | SBytes b => negb (String.eqb b EmptyString)
  end.

(** A value used as a number. *)
Definition sql_int (v : sqlval) : script Z :=
  match v with
  | SInt n => Ret n
  | _ => Raise XTypeError
  end.

(** Lines 382-391: the updates by batches of [batch] identities. *)
Fixpoint convert_batches (parent_id : sqlval) (batch : Z) (starts : list Z)
  : script unit :=
  match starts with
  | [] => Ret tt
  | i :: rest =>
      _ <- cr_execute (UpdateBatch parent_id i (i + batch - 1)) ;;
      convert_batches parent_id batch rest
  end.

(** [str(float(n))] for an integer [n] of fewer than twelve digits. *)
Definition str_of_float (n : Z) : string := (str_of_Z n ++ ".0")%string.

Definition newline : string := String (ascii_of_nat 10) EmptyString.

(** Lines 421-432: the sizes, one row at a time. *)
Fixpoint set_file_sizes (rows : list row) (c total print_at : Z)
  : script unit :=
  match rows with
  | [] => Ret tt
  | a :: rest =>
      let c := c + 1 in
      _ <- (if c mod print_at =? 0 then
              if total =? 0 then Raise XZeroDivisionError
              else
                line <- format ("attachments converted: {}/{} ({})" ++ newline)
                          [str_of_Z c; str_of_Z total;
                           str_of_float (c / total * 100)] ;;
                log line false
            else Ret tt) ;;
      f_size <- match a with
                | _ :: SBytes b :: _ => Ret (Z.of_nat (String.length b))
                | _ :: _ :: _ => Raise XTypeError
                | _ => Raise XIndexError
                end ;;
      id <- index0 a ;;
      _ <- cr_execute (UpdateFileSize f_size id) ;;
      set_file_sizes rest c total print_at
  end.

Section DocumentMover.
Variable args : Args.

Definition manual_attachment_conversion : script unit :=
    _ <- match args_dsn args with
         | Some d => execute (Connect d)
         | None => Raise XTypeError
         end ;;
    rows <- cr_execute SelectCountParentNotNull ;;
    done <- fetchone_0 rows ;;
    if sql_truthy done then
      log "SKipping the manual conversion: it seems it's already done !!!" true
    else
      rows <- cr_execute SelectDirRoot ;;
      parent_id <- fetchone_0 rows ;;
      rows <- cr_execute SelectCountToConvert ;;
      v <- fetchone_0 rows ;;
      total <- sql_int v ;;
      let batch := 1000 in
      convert_batches parent_id batch (py_range 1 (total + 1) batch) ;;
      _ <- cr_execute (UpdateRemaining parent_id) ;;
      _ <- cr_execute AlterParentNotNull ;;
      rows <- cr_execute SelectCountSizeZero ;;
      v <- fetchone_0 rows ;;
      rows <- cr_execute SelectSizeZero ;;
      total <- sql_int v ;;
      let print_at := if total / 20 =? 0 then 1 else total / 20 in
      set_file_sizes rows 0 total print_at.

  (** *** Preliminary checks of the 6.0 and 6.1 path *)

Definition document_module_state : script field :=
    document_module_ids <- execute (Search "ir.module.module"
                                      [("name", "=", FStr "document")] None) ;;
    document_module <- execute (Read "ir.module.module" document_module_ids
                                     ["state"]) ;;
    m <- index0 document_module ;;
    item m "state".

Definition check_document_module_is_installed : script unit :=
    state <- document_module_state ;;
    if negb (py_eqb state (FStr "installed"))
       && negb (args_install_document_module args)
    then
      log ("For Odoo version 6.0 and 6.1, the 'document' module need "
           ++ "to be installed. This script can do it for you if you "
           ++ "specify the --install-document-module command line option")%string
          true ;;
      SysExit ERROR_DOCUMENT_NOT_INSTALLED
    else Ret tt.

Definition check_filestore_path : script unit :=
    if falsy (args_filestore_path args) then
      log ("For Odoo version 6.0 and 6.1, you need to specify "
           ++ "the --filestore-path command line option")%string true ;;
      SysExit ERROR_NO_FILESTORE_PATH
    else
      let path := match args_filestore_path args with
                  | Some p => p
                  | None => EmptyString
                  end in
      Vis (IsDir path) (fun isdir =>
        if isdir then Ret tt
        else
          line <- format "filestore path '{}' does not exist." [path] ;;
          log line true ;;
          SysExit ERROR_FILESTORE_PATH_DOES_NOT_EXIST).

Definition install_document_module_if_needed : script unit :=
    if args_install_document_module args then
      state <- document_module_state ;;
      (if py_eqb state (FStr "installed") then
         log ("'document' module already installed. Skipping its "
              ++ "installation (you supplied the "
              ++ "--install-document-module command line option)")%string false
       else
         log "Installing the 'document' module" false ;;
         mod_ids <- execute (Search "ir.module.module"
                               [("name", "=", FStr "document")] None) ;;
         _ <- execute (Method "ir.module.module" "button_install" mod_ids) ;;
         upgrade_id <- execute (Create "base.module.upgrade" []) ;;
         _ <- execute (Method "base.module.upgrade" "upgrade_module"
                              [upgrade_id]) ;;
         log "done" false) ;;
      if args_manual_attachment_conversion args
      then manual_attachment_conversion
      else Ret tt
    else Ret tt.

Definition pre_move_checks : script unit :=
    (if args_manual_attachment_conversion args && falsy (args_dsn args) then
       log ("You must supply a DSN if you want to use the "
            ++ "'manual-attachment-conversion' option.")%string true ;;
       SysExit ERROR_NO_DNS
     else Ret tt) ;;
    check_document_module_is_installed ;;
    install_document_module_if_needed ;;
    check_filestore_path.

  (** *** [move_using_document_storage] (Odoo 6.0 and 6.1) *)

  (** Lines 183-198: the 'filestore' storage, found or created. *)
Definition filestore_storage : script Z :=
    fs_storage_ids <- execute (Search "document.storage"
                                 [("type", "=", FStr "filestore");
                                  ("path", "=",
                                   option_field (args_filestore_path args))]
                                 None) ;;
    match fs_storage_ids with
    | id :: _ => Ret id
    | [] =>
        execute (Create "document.storage"
                   [("name", FStr "File Storage");
                    ("type", FStr "filestore");
                    ("path", option_field (args_filestore_path args))])
    end.

  (** ['%d' % (v,)]. *)
Definition percent_d (v : field) : script string :=
    match v with
    | FInt n => Ret (str_of_Z n)
    | FBool b => Ret (if b then "1" else "0")
    | _ => Raise XTypeError
    end.

  (** ['attachment %d - %s' % (attachment_id, name)]. *)
Definition renamed (attachment_id : Z) (name : string) : string :=
    ("attachment " ++ str_of_Z attachment_id ++ " - " ++ name)%string.

  (** Lines 249-256: the values written to the attachment. *)
Definition write_vals (needs_rename : bool) (attachment_id : Z)
      (a : record) (data : field) : script record :=
    let vals := [("datas", data); ("db_datas", FBool false)] in
    if needs_rename then
      name <- item a "name" ;;
      match name with
      | FStr s =>
          id <- item a "id" ;;
          d <- percent_d id ;;
          if negb (String.prefix ("attachment " ++ d) s)
          then Ret (vals ++ [("name", FStr (renamed attachment_id s))])
          else Ret vals
      | _ => Raise XAttributeError
      end
    else Ret vals.

  (** [attachment['parent_id'][0]]: the identity in a many2one value. *)
Definition ref_id (v : field) : script Z :=
    match v with
    | FRef id _ => Ret id
    | _ => Raise XTypeError
    end.

  (** Lines 222-264: one turn of the loop, [counter] already incremented. *)
Definition move_to_filestore (old_storage_id new_storage_id : Z)
      (needs_rename : bool) (total attachment_id counter : Z) : script unit :=
    a <- execute (ReadOne "ir.attachment" attachment_id ["parent_id"]) ;;
    parent <- item a "parent_id" ;;
    dir_id <- ref_id parent ;;
    _ <- execute (Write "document.directory" (TIds [dir_id])
                        [("storage_id", FInt old_storage_id)]) ;;
    a <- execute (ReadOne "ir.attachment" attachment_id
                          ["datas"; "parent_id"; "name"]) ;;
    data <- item a "datas" ;;
    _ <- execute (Write "document.directory" (TIds [dir_id])
                        [("storage_id", FInt new_storage_id)]) ;;
    vals <- write_vals needs_rename attachment_id a data ;;
    res <- execute (Write "ir.attachment" (TIds [attachment_id]) vals) ;;
    let status := if res : bool then "ok" else "fail" in
    m <- format "Moving attachment (id={}) {}/{} (status: {{}})"
                [str_of_Z attachment_id; str_of_Z counter; str_of_Z total] ;;
    line <- format m [status] ;;
    log line false.

  (** Lines 221-264. *)
Fixpoint move_all_to_filestore (old_storage_id new_storage_id : Z)
      (needs_rename : bool) (total : Z) (ids : list Z) (counter : Z)
    : script unit :=
    match ids with
    | [] => Ret tt
    | attachment_id :: rest =>
        move_to_filestore old_storage_id new_storage_id needs_rename total
                          attachment_id (counter + 1) ;;
        move_all_to_filestore old_storage_id new_storage_id needs_rename
                              total rest (counter + 1)
    end.

  (** [[x['name'] for x in records]]. *)
Fixpoint names_of (records : list record) : script (list field) :=
    match records with
    | [] => Ret []
    | x :: rest =>
        n <- item x "name" ;;
        l <- names_of rest ;;
        Ret (n :: l)
    end.

  (** [set(l)] needs hashable members; a list is not. *)
Definition hashable (v : field) : bool :=
    match v with
    | FRef _ _ => false
    | _ => true
    end.

  (** Lines 214-218: [unique_names = set(names)] and
      [needs_rename = len(unique_names) != len(all_attachment_ids)]. *)
Definition needs_rename (names : list field) (all_attachment_ids : list Z)
    : bool :=
    let unique_names := py_set names in
    negb (len unique_names =? len all_attachment_ids).

Definition move_using_document_storage : script unit :=
    pre_move_checks ;;
    old_ids <- execute (Search "document.storage"
                          [("type", "=", FStr "db")] None) ;;
    old_storage_id <- index0 old_ids ;;
    new_storage_id <- filestore_storage ;;
    dir_ids <- execute (Search "document.directory" [] None) ;;
    log "Begin moving attachments" false ;;
    attachment_ids <- execute (Search "ir.attachment"
                                 [("db_datas", "!=", FStr "False")] None) ;;
    all_attachment_ids <- execute (Search "ir.attachment" [] None) ;;
    records <- execute (Read "ir.attachment" all_attachment_ids ["name"]) ;;
    names <- names_of records ;;
    (if forallb hashable names then Ret tt else Raise XTypeError) ;;
    let total := len attachment_ids in
    move_all_to_filestore old_storage_id new_storage_id
                          (needs_rename names all_attachment_ids) total
                          attachment_ids 0.

  (** *** [get_odoo_version] *)

  (** [get_major_minor = lambda ver: '.'.join(ver.split('.', 2)[0:2])]. *)
Definition get_major_minor (ver : string) : string :=
    py_join "." (firstn 2 (py_split ascii_dot 2 ver)).

  (** [[get_major_minor(m['latest_version']) for m in modules]]. *)
Fixpoint major_minors (modules : list record) : script (list string) :=
    match modules with
    | [] => Ret []
    | m :: rest =>
        v <- item m "latest_version" ;;
        match v with
        | FStr ver =>
            l <- major_minors rest ;;
            Ret (get_major_minor ver :: l)
        | _ => Raise XAttributeError
        end
    end.

  (** [Counter(l)]: each key with the number of times it occurs, keys in
      the order they were first met. *)
Fixpoint count_up (x : string) (c : list (string * nat))
    : list (string * nat) :=
    match c with
    | [] => [(x, 1%nat)]
    | (k, n) :: c' =>
        if String.eqb k x then (k, S n) :: c' else (k, n) :: count_up x c'
    end.

Definition Counter (l : list string) : list (string * nat) :=
    fold_left (fun c x => count_up x c) l [].

  (** [sorted(items, key=itemgetter(1), reverse=True)]: a stable sort,
      larger counts first. *)
Fixpoint insert_by_count (x : string * nat) (l : list (string * nat))
    : list (string * nat) :=
    match l with
    | [] => [x]
    | y :: l' =>
        if (snd y <=? snd x)%nat then x :: l else y :: insert_by_count x l'
    end.

Fixpoint sorted_by_count (l : list (string * nat)) : list (string * nat) :=
    match l with
    | [] => []
    | x :: l' => insert_by_count x (sorted_by_count l')
    end.

  (** The order in which a Python 2 dict hands out its items depends on
      the hashes of the keys: any rearrangement of the items. *)
Record DictOrder : Type := {
    iteritems : list (string * nat) -> list (string * nat);
    iteritems_perm : forall l, Permutation (iteritems l) l
  }.

Variable dict_order : DictOrder.

  (** [versions.most_common()]. *)
Definition most_common (versions : list (string * nat))
    : list (string * nat) :=
    sorted_by_count (iteritems dict_order versions).

Definition get_odoo_version : script string :=
    installed_module_ids <- execute (Search "ir.module.module"
                                       [("state", "=", FStr "installed")]
                                       (Some "id")) ;;
    modules <- execute (Read "ir.module.module" installed_module_ids
                             ["latest_version"]) ;;
    labels <- major_minors modules ;;
    let versions := Counter labels in
    let odoo_version := match most_common versions with
                        | (v, _) :: _ => Some v
                        | [] => None
                        end in
    if falsy odoo_version then
      log "Error: could not determine Odoo version. Exiting" true ;;
      SysExit ERROR_ODOO_VERSION_NOT_FOUND
    else
      Ret (match odoo_version with Some v => v | None => EmptyString end).

  (** *** [connect] and [run] *)

Definition connect (pwd : string) : script unit :=
    uid <- Vis (Login (args_dbname args) (args_user args) pwd)
               (fun r => match r with Ok v => Ret v | Failed x => Raise x end) ;;
    if negb (py_eqb uid (FInt 1)) then
      log ("You need to execute this script using the 'admin' user "
           ++ "(id=1) other users can have access restriction on "
           ++ "attachment or other objects and this can result in "
           ++ "an incomplete transfert")%string true ;;
      SysExit ERROR_USER_NOT_ADMIN
    else Ret tt.

  (** Lines 443-450: the migration chosen for the version found. *)
Definition select_migration (odoo_version : string) : script unit :=
    if version_ge odoo_version "6.0" && version_lt odoo_version "7.0" then
      move_using_document_storage
    else if version_ge odoo_version "7.0" then
      move_using_config_parameter
    else
      m <- format "Moving attachments in Odoo version '{}' is not yet implemented"
                  [odoo_version] ;;
      Raise (XException m).

Definition run : script unit :=
    pwd <- (if negb (String.eqb (args_password args) EmptyString)
            then Ret (args_password args)
            else Vis Getpass Ret) ;;
    connect pwd ;;
    odoo_version <- get_odoo_version ;;
    select_migration odoo_version.

End DocumentMover.

(** ** A reference model of the outside world

    Modelled from the spec: the Odoo server, its database and the local
    file system are not part of the repository.  The model follows the
    spec's data model (section 3) and the behaviour its sections 4.3 to
    4.5 expect of the server: an attachment holds its payload inline
    ([db_datas]) or in the external store; with the document module the
    Storage of the parent Directory decides which of the two a read or a
    write of [datas] goes through; without a parent the
    [ir_attachment.location] parameter decides.  The SQL statements act on
    the same attachment rows. *)
Module World.

Record attachment_row : Type := {
    att_id : Z;
    att_name : string;
    att_parent : option Z;          (* parent_id *)
    att_db_datas : option string;   (* the inline payload *)
    att_file : option string;       (* the payload in the external store *)
    att_file_size : Z
  }.

Record storage_row : Type := {
    sto_id : Z; sto_name : field; sto_type : field; sto_path : field
  }.

Record directory_row : Type := { dir_id : Z; dir_storage : Z }.

Record parameter_row : Type := {
    par_id : Z; par_key : field; par_value : field
  }.

Record module_row : Type := {
    mod_id : Z; mod_name : string; mod_state : string; mod_version : string
  }.

Record t : Type := {
    attachments : list attachment_row;
    storages : list storage_row;
    directories : list directory_row;
    parameters : list parameter_row;
    modules : list module_row;
    upgrades : list Z;               (* base.module.upgrade wizards *)
    dir_root : option Z;             (* ir_model_data: document.dir_root *)
    parent_not_null : bool;          (* the constraint of the last ALTER *)
    users : list (string * string * Z);
    local_dirs : list string;        (* directories of the connecting host *)
    broken : list Z                  (* attachments whose payload is lost *)
  }.

Definition with_attachments (w : t) (l : list attachment_row) : t :=
    {| attachments := l; storages := storages w;
       directories := directories w; parameters := parameters w;
       modules := modules w; upgrades := upgrades w; dir_root := dir_root w;
       parent_not_null := parent_not_null w; users := users w;
       local_dirs := local_dirs w; broken := broken w |}.

Definition with_storages (w : t) (l : list storage_row) : t :=
    {| attachments := attachments w; storages := l;
       directories := directories w; parameters := parameters w;
       modules := modules w; upgrades := upgrades w; dir_root := dir_root w;
       parent_not_null := parent_not_null w; users := users w;
       local_dirs := local_dirs w; broken := broken w |}.

Definition with_directories (w : t) (l : list directory_row) : t :=
    {| attachments := attachments w; storages := storages w;
       directories := l; parameters := parameters w;
       modules := modules w; upgrades := upgrades w; dir_root := dir_root w;
       parent_not_null := parent_not_null w; users := users w;
       local_dirs := local_dirs w; broken := broken w |}.

Definition with_parameters (w : t) (l : list parameter_row) : t :=
    {| attachments := attachments w; storages := storages w;
       directories := directories w; parameters := l;
       modules := modules w; upgrades := upgrades w; dir_root := dir_root w;
       parent_not_null := parent_not_null w; users := users w;
       local_dirs := local_dirs w; broken := broken w |}.

Definition with_modules (w : t) (l : list module_row) : t :=
    {| attachments := attachments w; storages := storages w;
       directories := directories w; parameters := parameters w;
       modules := l; upgrades := upgrades w; dir_root := dir_root w;
       parent_not_null := parent_not_null w; users := users w;
       local_dirs := local_dirs w; broken := broken w |}.

Definition with_upgrades (w : t) (l : list Z) : t :=
    {| attachments := attachments w; storages := storages w;
       directories := directories w; parameters := parameters w;
       modules := modules w; upgrades := l; dir_root := dir_root w;
       parent_not_null := parent_not_null w; users := users w;
       local_dirs := local_dirs w; broken := broken w |}.

Definition with_parent_not_null (w : t) (b : bool) : t :=
    {| attachments := attachments w; storages := storages w;
       directories := directories w; parameters := parameters w;
       modules := modules w; upgrades := upgrades w; dir_root := dir_root w;
       parent_not_null := b; users := users w;
       local_dirs := local_dirs w; broken := broken w |}.

  (** *** The object endpoint *)

Definition fresh (ids : list Z) : Z := 1 + fold_right Z.max 0 ids.

Definition some_or_false (o : option string) : field :=
    match o with
    | Some s => FStr s
    | None => FBool false
    end.

  (** The Storage type that governs an attachment: that of its parent
      Directory, or else what the location parameter asks for. *)
Definition storage_type (w : t) (a : attachment_row) : field :=
    match att_parent a with
    | Some d =>
        match find (fun r => dir_id r =? d) (directories w) with
        | Some r =>
            match find (fun s => sto_id s =? dir_storage r) (storages w) with
            | Some s => sto_type s
            | None => FStr "db"
            end
        | None => FStr "db"
        end
    | None =>
        if existsb (fun p => py_eqb (par_key p) (FStr "ir_attachment.location"))
                   (parameters w)
        then FStr "filestore" else FStr "db"
    end.

Definition external (w : t) (a : attachment_row) : bool :=
    py_eqb (storage_type w a) (FStr "filestore").

  (** The [datas] of an attachment as a read sees it. *)
Definition datas (w : t) (a : attachment_row) : field :=
    if external w a then
      match att_parent a, att_file a with
      | None, None => some_or_false (att_db_datas a)
      | _, f => some_or_false f
      end
    else some_or_false (att_db_datas a).

Definition attachment_record (w : t) (a : attachment_row) : record :=
    [("id", FInt (att_id a)); ("name", FStr (att_name a));
     ("datas", datas w a);
     ("db_datas", some_or_false (att_db_datas a));
     ("parent_id", match att_parent a with
                   | Some d => FRef d "Documents"
                   | None => FBool false
                   end)].

Definition storage_record (s : storage_row) : record :=
    [("id", FInt (sto_id s)); ("name", sto_name s); ("type", sto_type s);
     ("path", sto_path s)].

Definition directory_record (d : directory_row) : record :=
    [("id", FInt (dir_id d)); ("storage_id", FRef (dir_storage d) "Storage")].

Definition parameter_record (p : parameter_row) : record :=
    [("id", FInt (par_id p)); ("key", par_key p); ("value", par_value p)].

Definition module_record (m : module_row) : record :=
    [("id", FInt (mod_id m)); ("name", FStr (mod_name m));
     ("state", FStr (mod_state m)); ("latest_version", FStr (mod_version m))].

  (** The rows of a model as records. *)
Definition records (w : t) (model : string) : option (list (Z * record)) :=
    if String.eqb model "ir.attachment" then
      Some (map (fun a => (att_id a, attachment_record w a)) (attachments w))
    else if String.eqb model "document.storage" then
      Some (map (fun s => (sto_id s, storage_record s)) (storages w))
    else if String.eqb model "document.directory" then
      Some (map (fun d => (dir_id d, directory_record d)) (directories w))
    else if String.eqb model "ir.config_parameter" then
      Some (map (fun p => (par_id p, parameter_record p)) (parameters w))
    else if String.eqb model "ir.module.module" then
      Some (map (fun m => (mod_id m, module_record m)) (modules w))
    else None.

  (** One term of a domain on a record; a column that is [False] (NULL)
      passes neither [=] with a value nor [!=]. *)
Definition satisfies (r : record) (c : criterion) : bool :=
    let '(f, op, v) := c in
    match getitem r f with
    | None => false
    | Some x =>
        if String.eqb op "=" then py_eqb x v
        else if String.eqb op "!=" then
          negb (py_eqb x (FBool false)) && negb (py_eqb x v)
        else false
    end.

Definition project (fields : list string) (r : record) : record :=
    filter (fun kv : string * field =>
              String.eqb (fst kv) "id"
              || existsb (String.eqb (fst kv)) fields) r.

Definition server_fault : exn := XFault 1 "server error".

  (** The server faults when it has to handle the payload of a broken
      attachment. *)
Definition is_broken (w : t) (model : string) (ids : list Z)
      (keys : list string) : bool :=
    String.eqb model "ir.attachment"
    && existsb (String.eqb "datas") keys
    && existsb (fun i => existsb (Z.eqb i) (broken w)) ids.

Definition search (w : t) (model : string) (domain : list criterion)
    : result (list Z) :=
    match records w model with
    | None => Failed server_fault
    | Some rows =>
        Ok (map fst (filter (fun ir : Z * record =>
                               forallb (satisfies (snd ir)) domain) rows))
    end.

Definition read (w : t) (model : string) (ids : list Z)
      (fields : list string) : result (list record) :=
    match records w model with
    | None => Failed server_fault
    | Some rows =>
        if is_broken w model ids fields then Failed server_fault
        else
          Ok (flat_map (fun i =>
                          match find (fun ir : Z * record => fst ir =? i) rows with
                          | Some ir => [project fields (snd ir)]
                          | None => []
                          end) ids)
    end.

Definition read_one (w : t) (model : string) (id : Z)
      (fields : list string) : result record :=
    match read w model [id] fields with
    | Ok (r :: _) => Ok r
    | Ok [] => Failed server_fault
    | Failed e => Failed e
    end.

Definition target_ids (ids : target) : option (list Z) :=
    match ids with
    | TIds l => Some l
    | TVal (FInt i) => Some [i]
    | TVal _ => None
    end.

  (** A write on one attachment: the plain columns first, then [datas]
      through the Storage that governs the attachment. *)
Definition write_attachment (w : t) (vals : record) (a : attachment_row)
    : attachment_row :=
    let name := match getitem vals "name" with
                | Some (FStr s) => s
                | _ => att_name a
                end in
    let db := match getitem vals "db_datas" with
              | Some (FStr s) => Some s
              | Some _ => None
              | None => att_db_datas a
              end in
    let payload := match getitem vals "datas" with
                   | Some (FStr d) => Some (Some d)
                   | Some _ => Some None
                   | None => None
                   end in
    {| att_id := att_id a; att_name := name; att_parent := att_parent a;
       att_db_datas := match payload with
                       | Some p => if external w a then db else p
                       | None => db
                       end;
       att_file := match payload with
                   | Some p => if external w a then p else att_file a
                   | None => att_file a
                   end;
       att_file_size := att_file_size a |}.

Definition field_or (vals : record) (key : string) (old : field) : field :=
    match getitem vals key with
    | Some v => v
    | None => old
    end.

Definition member (i : Z) (l : list Z) : bool := existsb (Z.eqb i) l.

Definition write (w : t) (model : string) (ids : target) (vals : record)
    : result bool * t :=
    match target_ids ids with
    | None => (Failed server_fault, w)
    | Some l =>
        if is_broken w model l (map fst vals) then (Failed server_fault, w)
        else if String.eqb model "ir.attachment" then
          (Ok true,
           with_attachments w
             (map (fun a => if member (att_id a) l
                            then write_attachment w vals a else a)
                  (attachments w)))
        else if String.eqb model "document.directory" then
          (Ok true,
           with_directories w
             (map (fun d =>
                     if member (dir_id d) l then
                       {| dir_id := dir_id d;
                          dir_storage := match getitem vals "storage_id" with
                                         | Some (FInt s) => s
                                         | _ => dir_storage d
                                         end |}
                     else d)
                  (directories w)))
        else if String.eqb model "ir.config_parameter" then
          (Ok true,
           with_parameters w
             (map (fun p =>
                     if member (par_id p) l then
                       {| par_id := par_id p;
                          par_key := field_or vals "key" (par_key p);
                          par_value := field_or vals "value" (par_value p) |}
                     else p)
                  (parameters w)))
        else (Failed server_fault, w)
    end.

Definition create (w : t) (model : string) (vals : record)
    : result Z * t :=
    if String.eqb model "document.storage" then
      let i := fresh (map sto_id (storages w)) in
      (Ok i,
       with_storages w
         (storages w ++
          [{| sto_id := i;
              sto_name := field_or vals "name" (FBool false);
              sto_type := field_or vals "type" (FBool false);
              sto_path := field_or vals "path" (FBool false) |}]))
    else if String.eqb model "ir.config_parameter" then
      let i := fresh (map par_id (parameters w)) in
      (Ok i,
       with_parameters w
         (parameters w ++
          [{| par_id := i;
              par_key := field_or vals "key" (FBool false);
              par_value := field_or vals "value" (FBool false) |}]))
    else if String.eqb model "base.module.upgrade" then
      let i := fresh (upgrades w) in
      (Ok i, with_upgrades w (upgrades w ++ [i]))
    else (Failed server_fault, w).

Definition set_state (s : string) (m : module_row) : module_row :=
    {| mod_id := mod_id m; mod_name := mod_name m; mod_state := s;
       mod_version := mod_version m |}.

Definition method (w : t) (model name : string) (ids : list Z)
    : result unit * t :=
    if String.eqb model "ir.module.module"
       && String.eqb name "button_install" then
      (Ok tt,
       with_modules w
         (map (fun m => if member (mod_id m) ids
                           && String.eqb (mod_state m) "uninstalled"
                        then set_state "to install" m else m)
              (modules w)))
    else if String.eqb model "base.module.upgrade"
            && String.eqb name "upgrade_module" then
      (Ok tt,
       with_modules w
         (map (fun m => if String.eqb (mod_state m) "to install"
                        then set_state "installed" m else m)
              (modules w)))
    else (Failed server_fault, w).

Definition login (w : t) (usr pwd : string) : field :=
    match find (fun u : string * string * Z =>
                  String.eqb (fst (fst u)) usr && String.eqb (snd (fst u)) pwd)
               (users w) with
    | Some u => FInt (snd u)
    | None => FBool false
    end.

  (** *** The database cursor *)

Section Sql.
    (** [decode(encode(db_datas,'escape'), 'base64')], taken as a
        function on payloads. *)
Variable transcode : string -> string.

Definition has_parent (a : attachment_row) : bool :=
      match att_parent a with Some _ => true | None => false end.

Definition has_db_datas (a : attachment_row) : bool :=
      match att_db_datas a with Some _ => true | None => false end.

Definition count (f : attachment_row -> bool) (w : t) : list row :=
      [[SInt (len (filter f (attachments w)))]].

Definition set_parent (p : option Z) (a : attachment_row)
      : attachment_row :=
      {| att_id := att_id a; att_name := att_name a; att_parent := p;
         att_db_datas := att_db_datas a; att_file := att_file a;
         att_file_size := att_file_size a |}.

Definition set_db_datas (d : option string) (a : attachment_row)
      : attachment_row :=
      {| att_id := att_id a; att_name := att_name a;
         att_parent := att_parent a; att_db_datas := d;
         att_file := att_file a; att_file_size := att_file_size a |}.

Definition set_file_size (n : Z) (a : attachment_row) : attachment_row :=
      {| att_id := att_id a; att_name := att_name a;
         att_parent := att_parent a; att_db_datas := att_db_datas a;
         att_file := att_file a; att_file_size := n |}.

    (** The row after [UPDATE ... SET parent_id = p, db_datas = decode(...)
        WHERE parent_id IS NULL AND id BETWEEN lo AND hi]. *)
Definition update_batch (p : option Z) (lo hi : Z) (a : attachment_row)
      : attachment_row :=
      if negb (has_parent a) && (lo <=? att_id a) && (att_id a <=? hi)
      then set_db_datas (option_map transcode (att_db_datas a))
                        (set_parent p a)
      else a.

    (** The row after [UPDATE ... SET parent_id = p WHERE parent_id IS
        NULL]. *)
Definition update_remaining (p : option Z) (a : attachment_row)
      : attachment_row :=
      if negb (has_parent a) then set_parent p a else a.

Definition size_zero (a : attachment_row) : bool :=
      (att_file_size a =? 0) && has_db_datas a.

    (** A parameter bound to [parent_id]. *)
Definition as_parent (v : sqlval) : option (option Z) :=
      match v with
      | SNull => Some None
      | SInt n => Some (Some n)
      | SBytes _ => None
      end.

Definition type_error : exn := XPsycopg "invalid input syntax for integer".

Definition sql (w : t) (s : stmt) : result (list row) * t :=
      match s with
      | SelectCountParentNotNull => (Ok (count has_parent w), w)
      | SelectDirRoot =>
          (Ok match dir_root w with
              | Some d => [[SInt d]]
              | None => []
              end, w)
      | SelectCountToConvert =>
          (Ok (count (fun a => negb (has_parent a) && has_db_datas a) w), w)
      | UpdateBatch v lo hi =>
          match as_parent v with
          | Some p => (Ok [], with_attachments w
                                (map (update_batch p lo hi) (attachments w)))
          | None => (Failed type_error, w)
          end
      | UpdateRemaining v =>
          match as_parent v with
          | Some p => (Ok [], with_attachments w
                                (map (update_remaining p) (attachments w)))
          | None => (Failed type_error, w)
          end
      | AlterParentNotNull =>
          if forallb has_parent (attachments w)
          then (Ok [], with_parent_not_null w true)
          else (Failed (XPsycopg "column parent_id contains null values"), w)
      | SelectCountSizeZero => (Ok (count size_zero w), w)
      | SelectSizeZero =>
          (Ok (map (fun a => [SInt (att_id a);
                              match att_db_datas a with
                              | Some d => SBytes d
                              | None => SNull
                              end])
                   (filter size_zero (attachments w))), w)
      | UpdateFileSize n v =>
          match v with
          | SInt i =>
              (Ok [], with_attachments w
                        (map (fun a => if att_id a =? i
                                       then set_file_size n a else a)
                             (attachments w)))
          | SNull => (Ok [], w)
          | SBytes _ => (Failed type_error, w)
          end
      end.

    (** *** The environment *)

Definition answer (R : Type) (e : event R) (w : t) : R * t :=
      match e in event R return R * t with
      | Search model domain _ => (search w model domain, w)
      | Read model ids fields => (read w model ids fields, w)
      | ReadOne model id fields => (read_one w model id fields, w)
      | Create model vals => create w model vals
      | Write model ids vals => write w model ids vals
      | Method model name ids => method w model name ids
      | Login _ usr pwd => (Ok (login w usr pwd), w)
      | Getpass => (EmptyString, w)
      | Connect _ => (Ok tt, w)
      | CrExecute s => sql w s
      | IsDir path => (existsb (String.eqb path) (local_dirs w), w)
      | Logging _ _ => (tt, w)
      end.

Definition env : Env t := {| handle := answer |}.
End Sql.

End World.

(** ** What a journal shows *)

(** The log lines of a run, with their level. *)
Definition logged (j : journal) : list (level * string) :=
  flat_map (fun o => match o with
                     | Obs e _ =>
                         match e with
                         | Logging lvl m => [(lvl, m)]
                         | _ => []
                         end
                     end) j.

(** The SQL statements of a run. *)
Definition statements (j : journal) : list stmt :=
  flat_map (fun o => match o with
                     | Obs e _ =>
                         match e with
                         | CrExecute s => [s]
                         | _ => []
                         end
                     end) j.

(** The identity ranges of the batched updates of a run. *)
Definition batches (j : journal) : list (Z * Z) :=
  flat_map (fun s => match s with
                     | UpdateBatch _ lo hi => [(lo, hi)]
                     | _ => []
                     end) (statements j).

(** A statement that changes the database. *)
Definition mutating (s : stmt) : bool :=
  match s with
  | UpdateBatch _ _ _ | UpdateRemaining _ | AlterParentNotNull
  | UpdateFileSize _ _ => true
  | _ => false
  end.

(** The attachments whose [db_datas] some write of the run empties. *)
Definition cleared (j : journal) : list Z :=
  flat_map (fun o => match o with
                     | Obs e _ =>
                         match e with
                         | Write model ids vals =>
                             if String.eqb model "ir.attachment" then
                               match getitem vals "db_datas", ids with
                               | Some v, TIds l => if truthy v then [] else l
                               | Some v, TVal (FInt i) =>
                                   if truthy v then [] else [i]
                               | _, _ => []
                               end
                             else []
                         | _ => []
                         end
                     end) j.

(** A request that can change a record of the server or a row of the
    database. *)
Definition changes (R : Type) (e : event R) : bool :=
  match e with
  | Create _ _ | Write _ _ _ | Method _ _ _ => true
  | CrExecute s => mutating s
  | _ => false
  end.

(** The requests of a run that can change something. *)
Definition mutations (j : journal) : list obs :=
  filter (fun o => match o with Obs e _ => changes e end) j.

(** [safe P Q p]: whatever the outside world answers, [p] only sends
    requests that satisfy [P], and a value it returns satisfies [Q]. *)
Fixpoint safe {A : Type} (P : forall R : Type, event R -> Prop)
    (Q : A -> Prop) (p : script A) : Prop :=
  match p with
  | Ret a => Q a
  | Raise _ => True
  | SysExit _ => True
  | Vis e k => P _ e /\ forall r, safe P Q (k r)
  end.


(** ** Notions used to state the properties *)

(** The weight of a key in a counter. *)
Fixpoint weight (c : list (string * nat)) (k : string) : nat :=
  match c with
  | [] => 0%nat
  | (k', n) :: c' => if String.eqb k' k then n else weight c' k
  end.

(** The number of times a label occurs in a list. *)
Definition occ (l : list string) (k : string) : nat :=
  count_occ string_dec l k.

(** The first item of a list has the largest count. *)
Definition first_is_largest (l : list (string * nat)) : Prop :=
  match l with
  | [] => True
  | x :: r => Forall (fun y => snd y <= snd x)%nat r
  end.

(** The columns of an attachment row that the conversion is about. *)
Definition key_columns (a : World.attachment_row)
  : Z * option Z * option string :=
  (World.att_id a, World.att_parent a, World.att_db_datas a).

(** A row of [SELECT id, db_datas ...]. *)
Definition size_row (r : row) : Prop :=
  exists i b, r = [SInt i; SBytes b].

(** A row that [manual_attachment_conversion] counts: no parent, and an
    inline payload. *)
Definition to_convert (a : World.attachment_row) : bool :=
  negb (World.has_parent a) && World.has_db_datas a.

(** ** Example data *)

(** A dict that hands out its items in the order they were inserted. *)
Definition insertion_order : DictOrder :=
  {| iteritems := fun l => l; iteritems_perm := fun l => Permutation_refl l |}.

Definition example_args : Args :=
  {| args_dbname := "prod"; args_user := "admin"; args_password := "admin";
     args_filestore_path := Some "/srv/filestore";
     args_install_document_module := false;
     args_manual_attachment_conversion := false;
     args_dsn := None; args_quiet := false |}.

Definition example_attachment (i : Z) (n : string) (p : option Z)
    (d : option string) : World.attachment_row :=
  {| World.att_id := i; World.att_name := n; World.att_parent := p;
     World.att_db_datas := d; World.att_file := None;
     World.att_file_size := 0 |}.

Definition example_module (i : Z) (n s v : string) : World.module_row :=
  {| World.mod_id := i; World.mod_name := n; World.mod_state := s;
     World.mod_version := v |}.

(** A world with no attachment, the given modules and one Storage of
    type db. *)
Definition example_world (ms : list World.module_row)
    (atts : list World.attachment_row) : World.t :=
  {| World.attachments := atts;
     World.storages := [{| World.sto_id := 1; World.sto_name := FStr "Database";
                           World.sto_type := FStr "db";
                           World.sto_path := FBool false |}];
     World.directories := [{| World.dir_id := 1; World.dir_storage := 1 |}];
     World.parameters := [];
     World.modules := ms;
     World.upgrades := [];
     World.dir_root := Some 1;
     World.parent_not_null := false;
     World.users := [("admin", "admin", 1)];
     World.local_dirs := ["/srv/filestore"];
     World.broken := [] |}.

(** The three modules of the spec's example of version consensus. *)
Definition three_modules : list World.module_row :=
  [example_module 1 "base" "installed" "8.0.1.3";
   example_module 2 "mail" "installed" "8.0.2.1";
   example_module 3 "web" "installed" "7.0.5.0"].

(** The payloads are left as they are by this stand-in for the decoding
    done by the database. *)
Definition tagged (b : string) : string := ("decoded:" ++ b)%string.

Definition example_env : Env World.t := World.env tagged.

(** The command line of a run that asks for the manual conversion. *)
Definition manual_args : Args :=
  {| args_dbname := "prod"; args_user := "admin"; args_password := "admin";
     args_filestore_path := Some "/srv/filestore";
     args_install_document_module := true;
     args_manual_attachment_conversion := true;
     args_dsn := Some "dbname=prod"; args_quiet := false |}.

(** 2500 attachments without parent, identities 1 to 2500, each with an
    inline payload. *)
Definition world_2500 : World.t :=
  example_world []
    (map (fun i => example_attachment (Z.of_nat i) "scan.pdf" None
                                      (Some "eA=="))
         (seq 1 2500)).

(** One attachment without parent, whose identity, 5, is larger than the
    number of rows to convert, 1. *)
Definition world_gap : World.t :=
  example_world [] [example_attachment 5 "scan.pdf" None (Some "eA==")].

(** One attachment that has a parent already. *)
Definition world_converted : World.t :=
  example_world [] [example_attachment 1 "scan.pdf" (Some 1) (Some "x")].

(** The ranges of the batched updates for [total] rows to convert. *)
Definition batch_ranges (total : Z) : list (Z * Z) :=
  map (fun k : nat => (1 + 1000 * Z.of_nat k, 1000 * (Z.of_nat k + 1)))
      (seq 0 (Z.to_nat ((total + 999) / 1000))).

(** The upper bound of the last batch for [total] rows to convert. *)
Definition last_converted (total : Z) : Z := 1000 * ((total + 999) / 1000).

(** The text of the notice of a conversion that is skipped. *)
Definition skip_notice : string :=
  "SKipping the manual conversion: it seems it's already done !!!".

(** A row once a batch has given it the parent [d] and decoded its
    payload. *)
Definition decoded (transcode : string -> string) (d : Z)
    (a : World.attachment_row) : World.attachment_row :=
  World.set_db_datas (option_map transcode (World.att_db_datas a))
                     (World.set_parent (Some d) a).

(** The batch that starts at [i] covers the identity of [a]. *)
Definition covers (a : World.attachment_row) (i : Z) : bool :=
  (i <=? World.att_id a) && (World.att_id a <=? i + 1000 - 1).

(** A request that empties the [db_datas] of no attachment. *)
Definition quiet (R : Type) (e : event R) : Prop :=
  forall r : R, cleared [Obs e r] = [].
Arguments quiet : clear implicits.

(** Three attachments of a 7.0 server that stores in the filestore; the
    server faults on the second one. *)
Definition world_faulty : World.t :=
  let w := example_world
             [example_module 1 "base" "installed" "7.0.1.3"]
             [example_attachment 1 "a.pdf" None (Some "YQ==");
              example_attachment 2 "b.pdf" None (Some "Yg==");
              example_attachment 3 "c.pdf" None (Some "Yw==")] in
  {| World.attachments := World.attachments w;
     World.storages := World.storages w;
     World.directories := World.directories w;
     World.parameters := [{| World.par_id := 1;
                             World.par_key := FStr "ir_attachment.location";
                             World.par_value := FStr "file:filestore" |}];
     World.modules := World.modules w;
     World.upgrades := World.upgrades w;
     World.dir_root := World.dir_root w;
     World.parent_not_null := false;
     World.users := World.users w;
     World.local_dirs := World.local_dirs w;
     World.broken := [2] |}.

(** A statement of the [try] body that empties no [db_datas] and leaves
    [attachment_ids] alone. *)
Definition keeps {A : Type} (b : block A) : Prop :=
  forall st, safe quiet
                  (fun r => attachment_ids (fst r) = attachment_ids st)
                  (b st).

(** From [st] to [st1] the list of identities only lost members. *)
Definition shrinks (st st1 : locals) : Prop :=
  incl (attachment_ids st1) (attachment_ids st)
  /\ (NoDup (attachment_ids st) -> NoDup (attachment_ids st1)).

(** [p] leaves through [sys.exit] with a code of [codes] only. *)
Fixpoint exits_in {A : Type} (codes : list Z) (p : script A) : Prop :=
  match p with
  | Ret _ => True
  | Raise _ => True
  | SysExit c => In c codes
  | Vis e k => forall r, exits_in codes (k r)
  end.

(** A request that changes nothing. *)
Definition read_only (R : Type) (e : event R) : Prop := changes e = false.
Arguments read_only : clear implicits.

(** Two attachments of a 6.0 server with the document module; the server
    faults on the first one. *)
Definition world_legacy_faulty : World.t :=
  let w := example_world
             [example_module 1 "base" "installed" "6.0.1.3";
              example_module 2 "document" "installed" "6.0.2.1"]
             [example_attachment 10 "a.pdf" (Some 1) (Some "YQ==");
              example_attachment 11 "b.pdf" (Some 1) (Some "Yg==")] in
  {| World.attachments := World.attachments w;
     World.storages := World.storages w;
     World.directories := World.directories w;
     World.parameters := World.parameters w;
     World.modules := World.modules w;
     World.upgrades := World.upgrades w;
     World.dir_root := World.dir_root w;
     World.parent_not_null := false;
     World.users := World.users w;
     World.local_dirs := World.local_dirs w;
     World.broken := [10] |}.

(** A 6.0 server on which the document module is not installed. *)
Definition world_uninstalled : World.t :=
  example_world
    [example_module 1 "base" "installed" "6.0.1.3";
     example_module 2 "document" "uninstalled" "6.0.2.1"]
    [example_attachment 10 "a.pdf" None (Some "YQ==")].

(** A 6.0 server with the document module installed. *)
Definition world_installed : World.t :=
  example_world
    [example_module 1 "base" "installed" "6.0.1.3";
     example_module 2 "document" "installed" "6.0.2.1"]
    [example_attachment 10 "a.pdf" (Some 1) (Some "YQ==")].

(** [--install-document-module] without [--filestore-path]. *)
Definition install_args : Args :=
  {| args_dbname := "prod"; args_user := "admin"; args_password := "admin";
     args_filestore_path := None;
     args_install_document_module := true;
     args_manual_attachment_conversion := false;
     args_dsn := None; args_quiet := false |}.

(** Neither [--install-document-module] nor [--filestore-path]. *)
Definition no_path_args : Args :=
  {| args_dbname := "prod"; args_user := "admin"; args_password := "admin";
     args_filestore_path := None;
     args_install_document_module := false;
     args_manual_attachment_conversion := false;
     args_dsn := None; args_quiet := false |}.

(** The exit code of [check_filestore_path] for a path that is missing
    or that is no directory. *)
Definition path_code (args : Args) : Z :=
  if falsy (args_filestore_path args) then ERROR_NO_FILESTORE_PATH
  else ERROR_FILESTORE_PATH_DOES_NOT_EXIST.

(** Three attachments of a 6.0 server with the document module: two are
    named invoice.pdf, the third has a name of its own. *)
Definition world_names : World.t :=
  example_world
    [example_module 1 "base" "installed" "6.0.1.3";
     example_module 2 "document" "installed" "6.0.2.1"]
    [example_attachment 10 "invoice.pdf" (Some 1) (Some "YQ==");
     example_attachment 11 "invoice.pdf" (Some 1) (Some "Yg==");
     example_attachment 12 "unique.txt" (Some 1) (Some "Yw==")].

(** The identity and the name of each attachment. *)
Definition names_of_world (w : World.t) : list (Z * string) :=
  map (fun a => (World.att_id a, World.att_name a)) (World.attachments w).

(** The values of a write that moves the payload and renames nothing. *)
Definition plain_vals (data : field) : record :=
  [("datas", data); ("db_datas", FBool false)].

(** A request that creates no Storage. *)
Definition not_storage_create (R : Type) (e : event R) : Prop :=
  match e with
  | Create model _ => String.eqb model "document.storage" = false
  | _ => True
  end.
Arguments not_storage_create : clear implicits.

(** A script that creates no Storage, whatever it is answered. *)
Definition harmless {A : Type} (p : script A) : Prop :=
  safe not_storage_create (fun _ => True) p.

(** The Storages of type filestore with the given path. *)
Definition filestore_rows (path : field) (l : list World.storage_row)
  : list World.storage_row :=
  filter (fun s => py_eqb (World.sto_type s) (FStr "filestore")
                   && py_eqb (World.sto_path s) path) l.

(** From the Storages [l] to the Storages [l1], a filestore Storage for
    [path] was reused if there was one, and one was created at most if
    there was none. *)
Definition reused_or_created (path : field) (l l1 : list World.storage_row)
  : Prop :=
  (filestore_rows path l <> [] -> l1 = l)
  /\ (filestore_rows path l = [] ->
      l1 = l \/ exists s, l1 = l ++ [s] /\ filestore_rows path l1 = [s]).

(** A statement of the [try] body that can only leave through
    [sys.exit] with a code of [codes]. *)
Definition bexits {A : Type} (codes : list Z) (b : block A) : Prop :=
  forall st, exits_in codes (b st).

(** The codes with which the script can leave through [sys.exit]. *)
Definition exit_codes : list Z :=
  [ERROR_ODOO_VERSION_NOT_FOUND; ERROR_NO_FILESTORE_PATH;
   ERROR_FILESTORE_PATH_DOES_NOT_EXIST; ERROR_DOCUMENT_NOT_INSTALLED;
   ERROR_USER_NOT_ADMIN; ERROR_NO_DNS].

(** A request that goes neither to the object endpoint nor to the
    database: the login, the prompt for the password, a log line. *)
Definition before_session (o : obs) : Prop :=
  match o with
  | Obs e _ =>
      match e with
      | Login _ _ _ | Getpass | Logging _ _ => True
      | _ => False
      end
  end.

(** A server that knows the user [admin] under identity 2 only. *)
Definition world_not_admin : World.t :=
  let w := example_world three_modules [] in
  {| World.attachments := World.attachments w;
     World.storages := World.storages w;
     World.directories := World.directories w;
     World.parameters := World.parameters w;
     World.modules := World.modules w;
     World.upgrades := World.upgrades w;
     World.dir_root := World.dir_root w;
     World.parent_not_null := false;
     World.users := [("admin", "admin", 2)];
     World.local_dirs := World.local_dirs w;
     World.broken := [] |}.

(** [--manual-attachment-conversion] without [--dsn]. *)
Definition no_dsn_args : Args :=
  {| args_dbname := "prod"; args_user := "admin"; args_password := "admin";
     args_filestore_path := Some "/srv/filestore";
     args_install_document_module := true;
     args_manual_attachment_conversion := true;
     args_dsn := None; args_quiet := false |}.

(** The name that is not bound yet when the handler of the first turn
    needs it: [msg] for a Fault, [attachment] for any other exception. *)
Definition unbound_name (e : exn) : string :=
  if is_fault e then "msg" else "attachment".


(** Two attachments of a 7.0 server; identity 99, asked for between them,
    is gone by the time it is read. *)
Definition world_vanished : World.t :=
  example_world [example_module 1 "base" "installed" "7.0.1.3"]
    [example_attachment 1 "a.pdf" None (Some "YQ==");
     example_attachment 3 "c.pdf" None (Some "Yw==")].

(** A script all of whose requests satisfy [P], whatever it is answered. *)
Definition only {A : Type} (P : forall R : Type, event R -> Prop)
    (p : script A) : Prop :=
  safe P (fun _ => True) p.

(** The same for a statement of the [try] body. *)
Definition bonly {A : Type} (P : forall R : Type, event R -> Prop)
    (b : block A) : Prop :=
  forall st, only P (b st).

(** A request to the database server itself: the connection, a statement. *)
Definition is_sql (R : Type) (e : event R) : bool :=
  match e with
  | Connect _ | CrExecute _ => true
  | _ => false
  end.

Definition no_sql (R : Type) (e : event R) : Prop := is_sql e = false.
Arguments no_sql : clear implicits.

(** What the migration of 7.0 and later asks for: log lines, and
    searches, reads, creations and writes on the configuration parameters
    and on the attachments. *)
Definition parameter_or_attachment (R : Type) (e : event R) : Prop :=
  match e with
  | Logging _ _ => True
  | Search m _ _ | Read m _ _ | Create m _ | Write m _ _ =>
      m = "ir.config_parameter" \/ m = "ir.attachment"
  | _ => False
  end.
Arguments parameter_or_attachment : clear implicits.

(** [--install-document-module] and [--manual-attachment-conversion],
    both given. *)
Definition wants_sql (args : Args) : bool :=
  args_install_document_module args && args_manual_attachment_conversion args.

(** The log line a request leaves, if it is one. *)
Definition log_line (R : Type) (e : event R) : option (level * string) :=
  match e with
  | Logging l m => Some (l, m)
  | _ => None
  end.

(** A request that is not a statement, or a statement whose text is the
    log line, at info level, that came just before. *)
Definition shown (last : option (level * string)) (R : Type) (e : event R)
  : Prop :=
  match e with
  | CrExecute s => last = Some (INFO, mogrify s)
  | _ => True
  end.

(** [announces last p]: whatever it is answered, [p] executes a statement
    only right after the log line that shows it; [last] is what was
    logged, if anything, by the request sent just before [p]. *)
Fixpoint announces {A : Type} (last : option (level * string))
    (p : script A) : Prop :=
  match p with
  | Vis e k => shown last e /\ forall r, announces (log_line e) (k r)
  | _ => True
  end.

Definition announced {A : Type} (p : script A) : Prop :=
  forall last, announces last p.

(** The same for a journal. *)
Fixpoint logged_first (last : option (level * string)) (j : journal)
  : Prop :=
  match j with
  | [] => True
  | o :: j' =>
      match o with
      | Obs e _ => shown last e /\ logged_first (log_line e) j'
      end
  end.

(** Two attachments of a 6.0 server with the document module, under the
    same directory; the server faults on the payload of the second one. *)
Definition world_second_faulty : World.t :=
  let w := world_legacy_faulty in
  {| World.attachments := World.attachments w;
     World.storages := World.storages w ++
                       [{| World.sto_id := 2;
                           World.sto_name := FStr "File Storage";
                           World.sto_type := FStr "filestore";
                           World.sto_path := FStr "/srv/filestore" |}];
     World.directories := World.directories w;
     World.parameters := World.parameters w;
     World.modules := World.modules w;
     World.upgrades := World.upgrades w;
     World.dir_root := World.dir_root w;
     World.parent_not_null := false;
     World.users := World.users w;
     World.local_dirs := World.local_dirs w;
     World.broken := [11] |}.

(** The update of the size that a row of [SELECT id, db_datas ...] calls
    for: the length of the payload, for the identity of the row. *)
Definition size_update (r : row) : list stmt :=
  match r with
  | id :: SBytes b :: _ => [UpdateFileSize (Z.of_nat (String.length b)) id]
  | _ => []
  end.

(** A database that accepts the update of the size of any row. *)
Definition accepts_sizes {W : Type} (env : Env W) : Prop :=
  forall (n i : Z) (w : W),
    exists (rows : list row) (w1 : W),
      handle env (CrExecute (UpdateFileSize n (SInt i))) w = (Ok rows, w1).

(** [s.count(c)] for a character. *)
Fixpoint count_char (c : ascii) (s : string) : nat :=
  match s with
  | EmptyString => 0
  | String x r => (if Ascii.eqb x c then 1 else 0) + count_char c r
  end.

(** A string of decimal digits, as [int] reads it in a version. *)
Fixpoint all_digits (s : string) : bool :=
  match s with
  | EmptyString => true
  | String c r => class_eqb (classify c) CDigit && all_digits r
  end.

Definition number (s : string) : bool :=
  match s with
  | EmptyString => false
  | String _ _ => all_digits s
  end.

(** The parameters that hold the location of the attachments. *)
Definition location_rows (l : list World.parameter_row)
  : list World.parameter_row :=
  filter (fun p => py_eqb (World.par_key p) (FStr "ir_attachment.location"))
         l.

(** A request that creates or writes no parameter. *)
Definition not_parameter (R : Type) (e : event R) : Prop :=
  match e with
  | Create model _ | Write model _ _ =>
      String.eqb model "ir.config_parameter" = false
  | _ => True
  end.
Arguments not_parameter : clear implicits.

(** The row that lines 131-138 leave for the identity [i]. *)
Definition location_row (i : Z) : World.parameter_row :=
  {| World.par_id := i; World.par_key := FStr "ir_attachment.location";
     World.par_value := FStr "file:filestore" |}.

(** Lines 127-138 on the parameters of the reference server: the rows
    with the identity of a location row are overwritten, and a row is
    added when there is no location row. *)
Definition upsert_location (l : list World.parameter_row)
  : list World.parameter_row :=
  match location_rows l with
  | [] => l ++ [location_row (World.fresh (map World.par_id l))]
  | _ :: _ =>
      map (fun p => if World.member (World.par_id p)
                                    (map World.par_id (location_rows l))
                    then location_row (World.par_id p) else p) l
  end.

(** An attachment of a 7.0 server that has its payload, if any, inline:
    it belongs to no directory and has nothing in the external store. *)
Definition inline_only (a : World.attachment_row) : Prop :=
  World.att_parent a = None /\ World.att_file a = None.

(** The attachment once its payload has been written back: what was
    inline is in the external store as well. *)
Definition filed (a : World.attachment_row) : World.attachment_row :=
  {| World.att_id := World.att_id a; World.att_name := World.att_name a;
     World.att_parent := World.att_parent a;
     World.att_db_datas := World.att_db_datas a;
     World.att_file := World.att_db_datas a;
     World.att_file_size := World.att_file_size a |}.

(** The attachment at the end of the migration: the payload is in the
    external store and no longer inline. *)
Definition moved (a : World.attachment_row) : World.attachment_row :=
  {| World.att_id := World.att_id a; World.att_name := World.att_name a;
     World.att_parent := World.att_parent a;
     World.att_db_datas := None;
     World.att_file := World.att_db_datas a;
     World.att_file_size := World.att_file_size a |}.

(** The server stores the attachments outside of the database. *)
Definition has_location (w : World.t) : Prop :=
  existsb (fun p => py_eqb (World.par_key p) (FStr "ir_attachment.location"))
          (World.parameters w) = true.

(** A string without braces: [str.format] gives it back as it is. *)
Fixpoint no_braces (s : string) : bool :=
  match s with
  | EmptyString => true
  | String c r =>
      negb (Ascii.eqb c "{"%char) && negb (Ascii.eqb c "}"%char)
      && no_braces r
  end.

(** The path that [check_filestore_path] tests. *)
Definition filestore_path (args : Args) : string :=
  match args_filestore_path args with
  | Some p => p
  | None => EmptyString
  end.

(** Lines 271-280: what [pre_move_checks] does before it calls
    [check_filestore_path]. *)
Definition checks_before_path (args : Args) : script unit :=
  (if args_manual_attachment_conversion args && falsy (args_dsn args) then
     log ("You must supply a DSN if you want to use the "
          ++ "'manual-attachment-conversion' option.")%string true ;;
     SysExit ERROR_NO_DNS
   else Ret tt) ;;
  check_document_module_is_installed args ;;
  install_document_module_if_needed args.

(** [--filestore-path] with a path that is no directory of the
    connecting host. *)
Definition missing_dir_args : Args :=
  {| args_dbname := "prod"; args_user := "admin"; args_password := "admin";
     args_filestore_path := Some "/srv/nowhere";
     args_install_document_module := false;
     args_manual_attachment_conversion := false;
     args_dsn := None; args_quiet := false |}.
(** * Properties *)

Unset Implicit Arguments.

(** ** Running scripts *)

Section InterpFacts.
Context {W : Type} (env : Env W).

Lemma interp_bind {A B : Type} (p : script A) (f : A -> script B) (w : W) :
    interp env (bind p f) w =
    match interp env p w with
    | (Returned a, w1, j1) =>
        let '(o, w2, j2) := interp env (f a) w1 in (o, w2, j1 ++ j2)
    | (Exited c, w1, j1) => (Exited c, w1, j1)
    | (Raised e, w1, j1) => (Raised e, w1, j1)
    end.
  Proof.
    revert w. induction p as [a | e | c | R e k IH]; intro w; simpl.
    - destruct (interp env (f a) w) as [[o w2] j2]. reflexivity.
    - reflexivity.
    - reflexivity.
    - destruct (handle env e w) as [r w1]. rewrite IH.
      destruct (interp env (k r) w1) as [[o w2] j]. destruct o; simpl.
      + destruct (interp env (f a) w2) as [[o' w3] j']. reflexivity.
      + reflexivity.
      + reflexivity.
  Qed.

Lemma safe_bind {A B : Type} (P : forall R : Type, event R -> Prop)
      (Q : A -> Prop) (Q' : B -> Prop) (p : script A) (f : A -> script B) :
    safe P Q p -> (forall a, Q a -> safe P Q' (f a)) -> safe P Q' (bind p f).
  Proof.
    induction p as [a | e | c | R e k IH]; simpl; intros Hp Hf; auto.
    destruct Hp as [He Hk]. split; [exact He |]. intro r. apply IH; auto.
  Qed.

Lemma safe_weaken {A : Type} (P P' : forall R : Type, event R -> Prop)
      (Q Q' : A -> Prop) (p : script A) :
    (forall R (e : event R), P R e -> P' R e) ->
    (forall a, Q a -> Q' a) ->
    safe P Q p -> safe P' Q' p.
  Proof.
    intros HP HQ. induction p as [a | e | c | R e k IH]; simpl; auto.
    intros [He Hk]. split; auto.
  Qed.

  (** A safe script keeps its promises in every run. *)
Lemma safe_interp {A : Type} (P : forall R : Type, event R -> Prop)
      (Q : A -> Prop) (p : script A) (w : W) :
    safe P Q p ->
    Forall (fun o => match o with Obs e _ => P _ e end)
           (snd (interp env p w))
    /\ forall a, fst (fst (interp env p w)) = Returned a -> Q a.
  Proof.
    revert w. induction p as [a | e | c | R e k IH]; intro w; simpl; intro H.
    - split; [constructor |]. intros a' Ha. injection Ha as <-. exact H.
    - split; [constructor | discriminate].
    - split; [constructor | discriminate].
    - destruct H as [He Hk]. destruct (handle env e w) as [r w1].
      specialize (IH r w1 (Hk r)).
      destruct (interp env (k r) w1) as [[o w2] j]. simpl in *.
      destruct IH as [IH1 IH2]. split; [constructor; assumption | exact IH2].
  Qed.

  (** A property of the world that no request of a safe script breaks
      holds at the end of the run. *)
Lemma safe_invariant {A : Type} (P : forall R : Type, event R -> Prop)
      (I : W -> Prop) (p : script A) (w : W) :
    (forall R (e : event R) w0, P R e -> I w0 -> I (snd (handle env e w0))) ->
    safe P (fun _ => True) p -> I w -> I (snd (fst (interp env p w))).
  Proof.
    intro Hstep. revert w.
    induction p as [a | e | c | R e k IH]; intro w; simpl; intros H Hw; auto.
    destruct H as [He Hk]. specialize (Hstep R e w He Hw).
    destruct (handle env e w) as [r w1]. simpl in Hstep.
    specialize (IH r w1 (Hk r) Hstep).
    destruct (interp env (k r) w1) as [[o w2] j]. exact IH.
  Qed.
End InterpFacts.

(** ** Version detection *)

Lemma py_split_nonempty (sep : ascii) (n : nat) (s : string) :
  py_split sep n s <> [].
Proof.
  revert n. induction s as [| c r IH]; intro n; simpl; [discriminate |].
  destruct (Ascii.eqb c sep).
  - destruct n; [| discriminate].
    specialize (IH 0%nat). destruct (py_split sep 0 r); [contradiction | discriminate].
  - specialize (IH n). destruct (py_split sep n r); [contradiction | discriminate].
Qed.

Lemma py_split_all_nonempty (sep : ascii) (s : string) :
  py_split_all sep s <> [].
Proof.
  induction s as [| c r IH]; simpl; [discriminate |].
  destruct (Ascii.eqb c sep); [discriminate |].
  destruct (py_split_all sep r); [contradiction | discriminate].
Qed.

(** Splitting at most [n] times or at every separator gives the same
    first [n] components. *)
Lemma py_split_firstn (sep : ascii) (n : nat) (s : string) :
  firstn n (py_split sep n s) = firstn n (py_split_all sep s).
Proof.
  revert n. induction s as [| c r IH]; intro n; simpl; [reflexivity |].
  destruct (Ascii.eqb c sep).
  - destruct n as [| m]; [reflexivity |]. simpl. f_equal. apply IH.
  - destruct n as [| m]; [reflexivity |].
    specialize (IH (S m)).
    pose proof (py_split_nonempty sep (S m) r) as N1.
    pose proof (py_split_all_nonempty sep r) as N2.
    destruct (py_split sep (S m) r) as [| h t]; [contradiction |].
    destruct (py_split_all sep r) as [| h' t']; [contradiction |].
    simpl in *. injection IH as -> ->. reflexivity.
Qed.


Lemma weight_count_up (x : string) (c : list (string * nat)) (k : string) :
  weight (count_up x c) k
  = (weight c k + if String.eqb x k then 1 else 0)%nat.
Proof.
  induction c as [| [k' n] c IH]; simpl.
  - destruct (String.eqb x k); reflexivity.
  - destruct (String.eqb k' x) eqn:E; simpl.
    + apply String.eqb_eq in E. subst k'.
      destruct (String.eqb x k); lia.
    + destruct (String.eqb k' k) eqn:E'; [| exact IH].
      apply String.eqb_eq in E'. subst k'. rewrite String.eqb_sym, E. lia.
Qed.

Lemma keys_count_up (x : string) (c : list (string * nat)) :
  NoDup (map fst c) ->
  NoDup (map fst (count_up x c))
  /\ (forall k, In k (map fst (count_up x c)) <-> k = x \/ In k (map fst c)).
Proof.
  induction c as [| [k' n] c IH]; simpl; intro N.
  - split; [repeat constructor; intros [] |]. intro k. intuition auto.
  - inversion N as [| ? ? Hn N']; subst.
    destruct (String.eqb k' x) eqn:E; simpl.
    + apply String.eqb_eq in E. subst k'. split; [exact N |].
      intro k. intuition auto.
    + apply String.eqb_neq in E. destruct (IH N') as [IH1 IH2].
      split.
      * constructor; [| exact IH1]. rewrite IH2. intros [-> | H]; auto.
      * intro k. rewrite IH2. intuition auto.
Qed.

Lemma positive_count_up (x : string) (c : list (string * nat)) :
  Forall (fun kn => 1 <= snd kn)%nat c ->
  Forall (fun kn => 1 <= snd kn)%nat (count_up x c).
Proof.
  induction c as [| [k' n] c IH]; simpl; intro F.
  - repeat constructor.
  - inversion F; subst. destruct (String.eqb k' x).
    + constructor; [simpl; lia | assumption].
    + constructor; auto.
Qed.

Lemma weight_In (c : list (string * nat)) (k : string) (n : nat) :
  NoDup (map fst c) -> In (k, n) c -> weight c k = n.
Proof.
  induction c as [| [k' m] c IH]; simpl; intros N H; [contradiction |].
  inversion N as [| ? ? Hn N']; subst. destruct H as [H | H].
  - injection H as -> ->. rewrite String.eqb_refl. reflexivity.
  - destruct (String.eqb k' k) eqn:E; [| auto].
    apply String.eqb_eq in E. subst k'. exfalso. apply Hn.
    apply (in_map fst) in H. exact H.
Qed.

Lemma In_weight (c : list (string * nat)) (k : string) :
  (1 <= weight c k)%nat -> In (k, weight c k) c.
Proof.
  induction c as [| [k' m] c IH]; simpl; intro H; [lia |].
  destruct (String.eqb k' k) eqn:E.
  - apply String.eqb_eq in E. subst k'. left. reflexivity.
  - right. auto.
Qed.

Lemma fold_count_up (l : list string) (c : list (string * nat)) :
  NoDup (map fst c) ->
  Forall (fun kn => 1 <= snd kn)%nat c ->
  let c' := fold_left (fun c x => count_up x c) l c in
  NoDup (map fst c')
  /\ Forall (fun kn => 1 <= snd kn)%nat c'
  /\ forall k, weight c' k = (weight c k + occ l k)%nat.
Proof.
  revert c. induction l as [| x l IH]; simpl; intros c N F.
  - repeat split; auto.
  - destruct (keys_count_up x c N) as [N' _].
    destruct (IH (count_up x c) N' (positive_count_up x c F)) as (A & B & C).
    repeat split; auto. intro k. rewrite C, weight_count_up.
    unfold occ. simpl. destruct (string_dec x k) as [-> | D].
    + rewrite String.eqb_refl. lia.
    + apply String.eqb_neq in D. rewrite D. lia.
Qed.

(** Each item of a [Counter] is a member of the list with the number of
    times it occurs, and every member has its item. *)
Lemma Counter_spec (l : list string) :
  (forall k n, In (k, n) (Counter l) -> n = occ l k /\ In k l)
  /\ (forall k, In k l -> In (k, occ l k) (Counter l)).
Proof.
  destruct (fold_count_up l [] (NoDup_nil _) (Forall_nil _)) as (N & F & H).
  fold (Counter l) in N, F, H. simpl in H. split.
  - intros k n Hin. pose proof (weight_In _ _ _ N Hin) as Hw.
    rewrite H in Hw. subst n. split; [reflexivity |].
    rewrite Forall_forall in F. specialize (F _ Hin). simpl in F.
    unfold occ in *. apply (count_occ_In string_dec). lia.
  - intros k Hk. rewrite <- H. apply In_weight. rewrite H.
    unfold occ. apply (count_occ_In string_dec) in Hk. lia.
Qed.

Lemma insert_by_count_perm (x : string * nat) (l : list (string * nat)) :
  Permutation (insert_by_count x l) (x :: l).
Proof.
  induction l as [| y l IH]; simpl; [reflexivity |].
  destruct (snd y <=? snd x)%nat; [reflexivity |].
  rewrite IH. apply perm_swap.
Qed.

Lemma sorted_by_count_perm (l : list (string * nat)) :
  Permutation (sorted_by_count l) l.
Proof.
  induction l as [| x l IH]; simpl; [reflexivity |].
  rewrite insert_by_count_perm. constructor. exact IH.
Qed.


Lemma insert_by_count_first (x : string * nat) (l : list (string * nat)) :
  first_is_largest l -> first_is_largest (insert_by_count x l).
Proof.
  destruct l as [| y l]; simpl; intro H; [constructor |].
  destruct (snd y <=? snd x)%nat eqn:E.
  - apply Nat.leb_le in E. simpl. constructor; [exact E |].
    rewrite Forall_forall in *. intros z Hz. specialize (H z Hz). lia.
  - apply Nat.leb_gt in E. simpl.
    assert (P : Permutation (insert_by_count x l) (x :: l))
      by apply insert_by_count_perm.
    rewrite Forall_forall in *. intros z Hz.
    apply (Permutation_in _ P) in Hz. destruct Hz as [<- | Hz]; [lia | auto].
Qed.

Lemma sorted_by_count_first (l : list (string * nat)) :
  first_is_largest (sorted_by_count l).
Proof.
  induction l as [| x l IH]; simpl; [exact I |].
  apply insert_by_count_first. exact IH.
Qed.

(** The label [most_common] puts first is one of the labels, and no label
    occurs more often. *)
Lemma most_common_first (order : DictOrder) (l : list string) :
  match most_common order (Counter l) with
  | [] => l = []
  | (v, _) :: _ => In v l /\ forall k, (occ l k <= occ l v)%nat
  end.
Proof.
  unfold most_common.
  pose proof (sorted_by_count_first (iteritems order (Counter l))) as F.
  assert (P : Permutation (sorted_by_count (iteritems order (Counter l)))
                          (Counter l)).
  { rewrite sorted_by_count_perm. apply iteritems_perm. }
  destruct (Counter_spec l) as [S1 S2].
  destruct (sorted_by_count (iteritems order (Counter l))) as [| [v n] r].
  - destruct l as [| x l]; [reflexivity |]. exfalso.
    apply Permutation_nil in P.
    specialize (S2 x (or_introl eq_refl)). rewrite P in S2. exact S2.
  - assert (Hv : In (v, n) (Counter l))
      by (apply (Permutation_in _ P); left; reflexivity).
    destruct (S1 _ _ Hv) as [-> Hin]. split; [exact Hin |].
    intro k. destruct (in_dec string_dec k l) as [Hk | Hk].
    + specialize (S2 k Hk). apply (Permutation_in _ (Permutation_sym P)) in S2.
      destruct S2 as [E | S2].
      * injection E as -> _. lia.
      * simpl in F. rewrite Forall_forall in F. apply (F _ S2).
    + unfold occ. rewrite (proj1 (count_occ_not_In string_dec l k) Hk). lia.
Qed.

Lemma major_minors_strings (modules : list record) (versions : list string) :
  map (fun m => getitem m "latest_version") modules
  = map (fun v => Some (FStr v)) versions ->
  major_minors modules = Ret (map get_major_minor versions).
Proof.
  revert versions. induction modules as [| m modules IH];
    intros [| v versions] H; try discriminate; [reflexivity |].
  simpl in H. injection H as Hm Hrest. simpl. unfold item. rewrite Hm. simpl.
  rewrite (IH _ Hrest). reflexivity.
Qed.

(** C5. Version detection reduces each version string to its first two
    dot-separated components and returns a most frequent label: for the
    version strings 8.0.1.3, 8.0.2.1 and 7.0.5.0 it returns 8.0, and with
    no installed module it exits with ERROR_ODOO_VERSION_NOT_FOUND (2). *)
Theorem get_odoo_version_majority :
  forall (W : Type) (env : Env W) (order : DictOrder) (w w1 w2 : W)
         (ids : list Z) (modules : list record) (versions : list string),
    handle env (Search "ir.module.module" [("state", "=", FStr "installed")]
                       (Some "id")) w = (Ok ids, w1) ->
    handle env (Read "ir.module.module" ids ["latest_version"]) w1
    = (Ok modules, w2) ->
    map (fun m => getitem m "latest_version") modules
    = map (fun v => Some (FStr v)) versions ->
    let labels := map get_major_minor versions in
    let o := fst (fst (interp env (get_odoo_version order) w)) in
    (forall ver,
        get_major_minor ver
        = py_join "." (firstn 2 (py_split_all ascii_dot ver)))
    /\ match o with
       | Returned v =>
           v <> EmptyString /\ In v labels
           /\ forall k, (occ labels k <= occ labels v)%nat
       | Exited c =>
           c = ERROR_ODOO_VERSION_NOT_FOUND
           /\ (labels = []
               \/ (In EmptyString labels
                   /\ forall k, (occ labels k <= occ labels EmptyString)%nat))
       | Raised _ => False
       end
    /\ (versions = ["8.0.1.3"; "8.0.2.1"; "7.0.5.0"] -> o = Returned "8.0")
    /\ (modules = [] -> o = Exited 2).
Proof.
  intros W env order w w1 w2 ids modules versions H1 H2 H3 labels o.
  assert (Ho : match o with
               | Returned v =>
                   v <> EmptyString /\ In v labels
                   /\ forall k, (occ labels k <= occ labels v)%nat
               | Exited c =>
                   c = ERROR_ODOO_VERSION_NOT_FOUND
                   /\ (labels = []
                       \/ (In EmptyString labels
                           /\ forall k,
                               (occ labels k <= occ labels EmptyString)%nat))
               | Raised _ => False
               end).
  { subst o. unfold get_odoo_version. simpl. rewrite H1. simpl. rewrite H2. simpl.
    rewrite (major_minors_strings _ _ H3). simpl.
    fold labels. pose proof (most_common_first order labels) as M.
    destruct (most_common order (Counter labels)) as [| [v n] r]; simpl.
    - destruct (handle env (Logging ERROR _) w2) as [[] w3]. simpl.
      split; [reflexivity | left; exact M].
    - destruct M as [Hin Hmax].
      destruct (String.eqb v EmptyString) eqn:E; simpl.
      + destruct (handle env (Logging ERROR _) w2) as [[] w3]. simpl.
        apply String.eqb_eq in E. subst v.
        split; [reflexivity | right; split; assumption].
      + apply String.eqb_neq in E. repeat split; assumption. }
  split; [| split; [exact Ho | split]].
  - intro ver. unfold get_major_minor. rewrite py_split_firstn. reflexivity.
  - intro Hv. subst versions. simpl in labels.
    destruct o as [v | c | e]; [| | contradiction].
    + destruct Ho as (_ & Hin & Hmax). specialize (Hmax "8.0").
      subst labels. simpl in Hin.
      destruct Hin as [<- | [<- | [<- | []]]]; try reflexivity.
      vm_compute in Hmax. lia.
    + destruct Ho as (_ & [Hl | [Hin _]]); subst labels.
      * discriminate.
      * simpl in Hin. destruct Hin as [H | [H | [H | []]]]; discriminate.
  - intro Hm. subst modules. destruct versions; [| discriminate].
    subst labels. simpl in Ho.
    destruct o as [v | c | e]; [| | contradiction].
    + destruct Ho as (_ & [] & _).
    + destruct Ho as [-> _]. reflexivity.
Qed.

Lemma get_odoo_version_majority_witness :
  fst (fst (interp example_env (get_odoo_version insertion_order)
                   (example_world three_modules [])))
  = Returned "8.0".
Proof.
  refine (proj1 (proj2 (proj2
    (get_odoo_version_majority World.t example_env insertion_order
       (example_world three_modules []) (example_world three_modules [])
       (example_world three_modules []) [1; 2; 3]
       [[("id", FInt 1); ("latest_version", FStr "8.0.1.3")];
        [("id", FInt 2); ("latest_version", FStr "8.0.2.1")];
        [("id", FInt 3); ("latest_version", FStr "7.0.5.0")]]
       ["8.0.1.3"; "8.0.2.1"; "7.0.5.0"] _ _ _))) _);
    reflexivity.
Defined.

(** ** Choice of the migration *)

Lemma below_6_below_7 (v : list component) :
  cmp_version v [inl 6; inl 0] = Lt -> cmp_version v [inl 7; inl 0] = Lt.
Proof.
  destruct v as [| [n | s] v']; simpl; [reflexivity | | discriminate].
  destruct (Z.compare_spec n 6) as [-> | H | H]; [reflexivity | | discriminate].
  intros _. assert (E : (n ?= 7) = Lt) by (apply Z.compare_lt_iff; lia).
  rewrite E. reflexivity.
Qed.

(** C7. A version from 6.0 up to, not including, 7.0 runs the migration
    through document storages, a version from 7.0 on runs the migration
    through the configuration parameter, and a version below 6.0 fails
    with an exception; that failure and the fatal errors of the checks
    end the process with statuses that all differ. *)
Theorem select_migration_by_version :
  forall (args : Args) (v : string),
    (version_ge v "6.0" = true -> version_lt v "7.0" = true ->
     select_migration args v = move_using_document_storage args)
    /\ (version_ge v "7.0" = true ->
        select_migration args v = move_using_config_parameter)
    /\ (version_lt v "6.0" = true ->
        exists m, select_migration args v = Raise (XException m))
    /\ (select_migration args "6.0" = move_using_document_storage args
        /\ select_migration args "6.1" = move_using_document_storage args
        /\ select_migration args "7.0" = move_using_config_parameter
        /\ select_migration args "8.0" = move_using_config_parameter
        /\ select_migration args "10.0" = move_using_config_parameter
        /\ exists m, select_migration args "5.0" = Raise (XException m))
    /\ (forall m,
          NoDup [exit_status (@Raised unit (XException m));
                 exit_status (@Exited unit ERROR_ODOO_VERSION_NOT_FOUND);
                 exit_status (@Exited unit ERROR_NO_FILESTORE_PATH);
                 exit_status (@Exited unit ERROR_FILESTORE_PATH_DOES_NOT_EXIST);
                 exit_status (@Exited unit ERROR_DOCUMENT_NOT_INSTALLED);
                 exit_status (@Exited unit ERROR_USER_NOT_ADMIN);
                 exit_status (@Exited unit ERROR_NO_DNS)]).
Proof.
  intros args v. unfold select_migration. repeat split.
  - intros H1 H2. rewrite H1, H2. reflexivity.
  - intro H.
    assert (L : version_lt v "7.0" = false).
    { unfold version_lt. unfold version_ge in H.
      destruct (cmp_version (LooseVersion v) (LooseVersion "7.0"));
        try discriminate; reflexivity. }
    rewrite L, andb_false_r, H. reflexivity.
  - intro H.
    assert (G6 : version_ge v "6.0" = false).
    { unfold version_lt in H. unfold version_ge.
      destruct (cmp_version (LooseVersion v) (LooseVersion "6.0"));
        try discriminate; reflexivity. }
    assert (G7 : version_ge v "7.0" = false).
    { unfold version_lt in H. unfold version_ge.
      destruct (cmp_version (LooseVersion v) (LooseVersion "6.0")) eqn:E;
        try discriminate.
      change (LooseVersion "6.0") with [@inl Z string 6; inl 0] in E.
      apply below_6_below_7 in E.
      change (LooseVersion "7.0") with [@inl Z string 7; inl 0].
      rewrite E. reflexivity. }
    rewrite G6, G7. simpl. eexists. reflexivity.
  - eexists. reflexivity.
  - intro m. simpl. repeat constructor; simpl; intuition discriminate.
Qed.

Lemma select_migration_by_version_witness :
  select_migration example_args "6.1"
  = move_using_document_storage example_args.
Proof.
  apply (proj1 (select_migration_by_version example_args "6.1"));
    reflexivity.
Defined.

(** ** The manual conversion on the reference database *)

Section ManualConversion.
Variable transcode : string -> string.
Let env := World.env transcode.

Lemma interp_cr_execute (s : stmt) (w : World.t) :
    interp env (cr_execute s) w =
    match World.sql transcode w s with
    | (Ok rows, w') =>
        (Returned rows, w',
         [Obs (Logging INFO (mogrify s)) tt; Obs (CrExecute s) (Ok rows)])
    | (Failed e, w') =>
        (Raised e, w',
         [Obs (Logging INFO (mogrify s)) tt; Obs (CrExecute s) (Failed e);
          Obs (Logging ERROR ("ERROR - " ++ unicode_exn e)%string) tt])
    end.
  Proof.
    unfold cr_execute, log. simpl.
    destruct (World.sql transcode w s) as [[rows | e] w']; reflexivity.
  Qed.

Lemma batches_app (j1 j2 : journal) :
    batches (j1 ++ j2) = batches j1 ++ batches j2.
  Proof.
    unfold batches, statements. rewrite !flat_map_app. reflexivity.
  Qed.

  (** The attachment rows after the batched updates starting at [starts]. *)
Lemma interp_convert_batches (d : Z) (starts : list Z) (w : World.t) :
    exists j,
      interp env (convert_batches (SInt d) 1000 starts) w
      = (Returned tt,
         World.with_attachments w
           (fold_left (fun atts i =>
                         map (World.update_batch transcode (Some d) i
                                                 (i + 1000 - 1)) atts)
                      starts (World.attachments w)),
         j)
      /\ batches j = map (fun i => (i, i + 1000 - 1)) starts.
  Proof.
    revert w. induction starts as [| i starts IH]; intro w.
    - exists []. split; [| reflexivity]. simpl. destruct w; reflexivity.
    - cbn [convert_batches]. rewrite interp_bind, interp_cr_execute.
      cbn [World.sql World.as_parent].
      destruct (IH (World.with_attachments w
                      (map (World.update_batch transcode (Some d) i
                                               (i + 1000 - 1))
                           (World.attachments w)))) as (j & Hj & Hb).
      rewrite Hj. eexists. split; [reflexivity |].
      rewrite batches_app, Hb. reflexivity.
  Qed.

Lemma progress_line (a b c : string) :
    exists line,
      py_format ("attachments converted: {}/{} ({})" ++ newline)%string
                [a; b; c] = Some line.
  Proof. eexists. reflexivity. Qed.

Lemma key_columns_size (n i : Z) (atts : list World.attachment_row) :
    map key_columns
        (map (fun a => if World.att_id a =? i
                       then World.set_file_size n a else a) atts)
    = map key_columns atts.
  Proof.
    rewrite map_map. apply map_ext. intro a.
    destruct (World.att_id a =? i); reflexivity.
  Qed.

  (** The loop over the sizes returns, touches no key column and sends no
      batched update. *)
Lemma interp_set_file_sizes (rows : list row) (c total print_at : Z)
      (w : World.t) :
    rows = [] \/ total <> 0 ->
    Forall size_row rows ->
    exists j atts,
      interp env (set_file_sizes rows c total print_at) w
      = (Returned tt, World.with_attachments w atts, j)
      /\ batches j = []
      /\ map key_columns atts = map key_columns (World.attachments w).
  Proof.
    revert c w. induction rows as [| a rows IH]; intros c w Ht F.
    - exists [], (World.attachments w). repeat split. simpl.
      destruct w; reflexivity.
    - destruct Ht as [Ht | Ht]; [discriminate |].
      inversion F as [| ? ? (i & b & ->) F']; subst.
      cbn [set_file_sizes]. rewrite interp_bind.
      assert (P : exists j0,
                 interp env
                   (if (c + 1) mod print_at =? 0
                    then if total =? 0 then Raise XZeroDivisionError
                         else bind (format
                                      ("attachments converted: {}/{} ({})"
                                       ++ newline)%string
                                      [str_of_Z (c + 1); str_of_Z total;
                                       str_of_float ((c + 1) / total * 100)])
                                   (fun line => log line false)
                    else Ret tt) w
                 = (Returned tt, w, j0) /\ batches j0 = []).
      { destruct ((c + 1) mod print_at =? 0).
        - apply Z.eqb_neq in Ht. rewrite Ht. unfold format.
          destruct (progress_line (str_of_Z (c + 1)) (str_of_Z total)
                      (str_of_float ((c + 1) / total * 100))) as [line ->].
          eexists. split; reflexivity.
        - exists []. split; reflexivity. }
      destruct P as (j0 & -> & Hj0).
      cbn [bind index0]. rewrite interp_bind, interp_cr_execute.
      cbn [World.sql].
      destruct (IH (c + 1)
                   (World.with_attachments w
                      (map (fun a => if World.att_id a =? i
                                     then World.set_file_size
                                            (Z.of_nat (String.length b)) a
                                     else a)
                           (World.attachments w)))
                   (or_intror Ht) F') as (j & atts & Hj & Hb & Hk).
      rewrite Hj. exists (j0 ++ ([Obs (Logging INFO
                                      (mogrify (UpdateFileSize
                                                  (Z.of_nat (String.length b))
                                                  (SInt i)))) tt;
                                  Obs (CrExecute
                                         (UpdateFileSize
                                            (Z.of_nat (String.length b))
                                            (SInt i))) (Ok [])] ++ j)), atts.
      split; [reflexivity |]. split.
      + rewrite !batches_app, Hj0, Hb. reflexivity.
      + rewrite Hk. cbn [World.attachments World.with_attachments].
        apply key_columns_size.
  Qed.

Lemma attachments_with (w : World.t) (l : list World.attachment_row) :
    World.attachments (World.with_attachments w l) = l.
  Proof. reflexivity. Qed.

Lemma with_with (w : World.t) (l1 l2 : list World.attachment_row) :
    World.with_attachments (World.with_attachments w l1) l2
    = World.with_attachments w l2.
  Proof. reflexivity. Qed.

Lemma attachments_not_null (w : World.t) (b : bool) :
    World.attachments (World.with_parent_not_null w b) = World.attachments w.
  Proof. reflexivity. Qed.

Lemma with_not_null (w : World.t) (b : bool)
      (l : list World.attachment_row) :
    World.with_attachments (World.with_parent_not_null w b) l
    = World.with_parent_not_null (World.with_attachments w l) b.
  Proof. reflexivity. Qed.

Lemma no_parent_filter (atts : list World.attachment_row) :
    Forall (fun a => World.att_parent a = None) atts ->
    filter World.has_parent atts = [].
  Proof.
    induction 1 as [| a atts Ha _ IH]; [reflexivity |]. simpl.
    unfold World.has_parent at 1. rewrite Ha. exact IH.
  Qed.

Lemma all_parents_after_remaining (d : Z)
      (atts : list World.attachment_row) :
    forallb World.has_parent (map (World.update_remaining (Some d)) atts)
    = true.
  Proof.
    induction atts as [| a atts IH]; [reflexivity |]. simpl. rewrite IH.
    unfold World.update_remaining, World.has_parent.
    destruct (World.att_parent a) eqn:E; simpl; [rewrite E |]; reflexivity.
  Qed.

Lemma size_rows_shape (atts : list World.attachment_row) :
    Forall size_row
      (map (fun a => [SInt (World.att_id a);
                      match World.att_db_datas a with
                      | Some d => SBytes d
                      | None => SNull
                      end])
           (filter World.size_zero atts)).
  Proof.
    induction atts as [| a atts IH]; simpl; [constructor |].
    destruct (World.size_zero a) eqn:E; [| exact IH].
    simpl. constructor; [| exact IH].
    unfold World.size_zero, World.has_db_datas in E.
    destruct (World.att_db_datas a) as [b |].
    - exists (World.att_id a), b. reflexivity.
    - rewrite andb_false_r in E. discriminate.
  Qed.

  (** The run of the conversion when no attachment has a parent yet and
      the root directory is known. *)
Lemma manual_conversion_run (args : Args) (dsn : string) (w : World.t)
      (d : Z) :
    args_dsn args = Some dsn ->
    Forall (fun a => World.att_parent a = None) (World.attachments w) ->
    World.dir_root w = Some d ->
    let total := len (filter to_convert (World.attachments w)) in
    let starts := py_range 1 (total + 1) 1000 in
    let converted :=
      map (World.update_remaining (Some d))
          (fold_left (fun atts i =>
                        map (World.update_batch transcode (Some d) i
                                                (i + 1000 - 1)) atts)
                     starts (World.attachments w)) in
    exists j atts,
      interp env (manual_attachment_conversion args) w
      = (Returned tt,
         World.with_parent_not_null (World.with_attachments w atts) true, j)
      /\ batches j = map (fun i => (i, i + 1000 - 1)) starts
      /\ map key_columns atts = map key_columns converted.
  Proof.
    intros Hdsn Hnone Hroot total starts converted.
    unfold manual_attachment_conversion. rewrite Hdsn.
    rewrite interp_bind. cbn [execute interp handle env World.env World.answer].
    rewrite interp_bind, interp_cr_execute. cbn [World.sql]. unfold World.count.
    rewrite (no_parent_filter _ Hnone).
    cbn [len List.length Z.of_nat fetchone_0 bind sql_truthy Z.eqb negb].
    rewrite interp_bind, interp_cr_execute. cbn [World.sql]. rewrite Hroot.
    cbn [fetchone_0 bind].
    rewrite interp_bind, interp_cr_execute. cbn [World.sql].
    unfold World.count. fold to_convert. cbn [fetchone_0 bind sql_int].
    fold total. fold starts.
    rewrite interp_bind.
    destruct (interp_convert_batches d starts w) as (jb & -> & Hjb).
    rewrite interp_bind, interp_cr_execute.
    cbn [World.sql World.as_parent]. rewrite attachments_with, with_with.
    fold converted.
    rewrite interp_bind, interp_cr_execute. cbn [World.sql].
    rewrite attachments_with.
    unfold converted at 1. rewrite all_parents_after_remaining.
    rewrite interp_bind, interp_cr_execute.
    cbn [World.sql]. unfold World.count.
    rewrite attachments_not_null, attachments_with.
    cbn [fetchone_0 bind].
    rewrite interp_bind, interp_cr_execute.
    cbn [World.sql bind sql_int].
    rewrite attachments_not_null, attachments_with.
    match goal with
    | |- context [interp env (set_file_sizes ?rows ?c ?t ?p) ?w0] =>
        destruct (interp_set_file_sizes rows c t p w0)
          as (js & atts & -> & Hjs & Hk)
    end.
    { destruct (filter World.size_zero converted) as [| a l];
        [left; reflexivity | right].
      unfold len. simpl List.length. lia. }
    { apply size_rows_shape. }
    rewrite with_not_null, with_with.
    eexists. exists atts. split; [reflexivity |]. split.
    - repeat (rewrite batches_app || rewrite Hjb || rewrite Hjs
              || rewrite app_nil_r || cbn [batches statements flat_map app]).
      reflexivity.
    - exact Hk.
  Qed.
End ManualConversion.

Lemma batch_ranges_py_range (total : Z) :
  map (fun i => (i, i + 1000 - 1)) (py_range 1 (total + 1) 1000)
  = batch_ranges total.
Proof.
  unfold py_range, batch_ranges. rewrite map_map.
  replace (total + 1 - 1 + 1000 - 1) with (total + 999) by lia.
  apply map_ext. intro k. f_equal; lia.
Qed.

Lemma no_parent_2500 :
  Forall (fun a => World.att_parent a = None) (World.attachments world_2500).
Proof.
  change (World.attachments world_2500)
    with (map (fun i => example_attachment (Z.of_nat i) "scan.pdf" None
                                           (Some "eA=="))
              (seq 1 2500)).
  apply Forall_forall. intros a Ha.
  apply in_map_iff in Ha. destruct Ha as (i & <- & _). reflexivity.
Qed.

(** C3, amended. For a counted total of 2500 rows the manual conversion
    returns after batched updates over exactly the ranges [1,1000],
    [1001,2000] and [2001,3000]: batches of 1000 identities that follow
    one another with no gap and no overlap, the last one not cut at the
    total; for any total, batch [k] covers [1+1000k, 1000(k+1)]. *)
Theorem manual_conversion_batches :
  forall (transcode : string -> string) (args : Args) (dsn : string)
         (w : World.t) (d : Z),
    args_dsn args = Some dsn ->
    Forall (fun a => World.att_parent a = None) (World.attachments w) ->
    World.dir_root w = Some d ->
    let total := len (filter to_convert (World.attachments w)) in
    let r := interp (World.env transcode) (manual_attachment_conversion args) w in
    fst (fst r) = Returned tt
    /\ batches (snd r) = batch_ranges total
    /\ (total = 2500 ->
        batches (snd r) = [(1, 1000); (1001, 2000); (2001, 3000)]).
Proof.
  intros transcode args dsn w d Hdsn Hnone Hroot total r.
  destruct (manual_conversion_run transcode args dsn w d Hdsn Hnone Hroot)
    as (j & atts & Hrun & Hb & _).
  subst r. rewrite Hrun. simpl. fold total in Hb.
  rewrite batch_ranges_py_range in Hb. repeat split; [exact Hb |].
  intro Ht. rewrite Hb, Ht. reflexivity.
Qed.

Lemma manual_conversion_batches_witness :
  batches (snd (interp example_env (manual_attachment_conversion manual_args)
                       world_2500))
  = [(1, 1000); (1001, 2000); (2001, 3000)].
Proof.
  apply (manual_conversion_batches tagged manual_args "dbname=prod"
           world_2500 1 eq_refl no_parent_2500 eq_refl).
  vm_compute. reflexivity.
Defined.

(** C3 as stated fails: with 2500 rows counted, the third batch is sent
    for the range [2001,3000], not [2001,2500]. *)
Lemma manual_conversion_batches_counterexample :
  World.count to_convert world_2500 = [[SInt 2500]]
  /\ batches (snd (interp example_env
                          (manual_attachment_conversion manual_args)
                          world_2500))
     <> [(1, 1000); (1001, 2000); (2001, 2500)].
Proof.
  split; [vm_compute; reflexivity |].
  destruct (manual_conversion_run tagged manual_args "dbname=prod"
              world_2500 1 eq_refl no_parent_2500 eq_refl)
    as (j & atts & Hrun & Hb & _).
  unfold example_env. rewrite Hrun. simpl snd. rewrite Hb.
  vm_compute. discriminate.
Qed.

Lemma some_parent_count (atts : list World.attachment_row) :
  Exists (fun a => World.att_parent a <> None) atts ->
  (len (filter World.has_parent atts) =? 0) = false.
Proof.
  intro H. apply Z.eqb_neq. unfold len.
  induction H as [a atts Ha | a atts _ IH]; simpl.
  - unfold World.has_parent at 1.
    destruct (World.att_parent a); [| contradiction]. simpl List.length. lia.
  - destruct (World.has_parent a); [simpl List.length; lia | exact IH].
Qed.

(** C9. When some attachment already has a parent directory, the manual
    conversion returns after its first SELECT: the journal holds the
    connection, the statement with the line the cursor logs for it and the
    notice that the conversion is skipped (sent with out_to_err), so no
    UPDATE and no ALTER TABLE is sent, and the database is what it was. *)
Theorem manual_conversion_already_done :
  forall (transcode : string -> string) (args : Args) (dsn : string)
         (w : World.t),
    args_dsn args = Some dsn ->
    Exists (fun a => World.att_parent a <> None) (World.attachments w) ->
    let r := interp (World.env transcode) (manual_attachment_conversion args) w in
    r = (Returned tt, w,
         [Obs (Connect dsn) (Ok tt);
          Obs (Logging INFO (mogrify SelectCountParentNotNull)) tt;
          Obs (CrExecute SelectCountParentNotNull)
              (Ok (World.count World.has_parent w));
          Obs (Logging ERROR skip_notice) tt])
    /\ statements (snd r) = [SelectCountParentNotNull]
    /\ mutations (snd r) = []
    /\ In (INFO, mogrify SelectCountParentNotNull) (logged (snd r))
    /\ In (ERROR, skip_notice) (logged (snd r)).
Proof.
  intros transcode args dsn w Hdsn Hsome r.
  assert (Hr : r = (Returned tt, w,
                    [Obs (Connect dsn) (Ok tt);
                     Obs (Logging INFO (mogrify SelectCountParentNotNull)) tt;
                     Obs (CrExecute SelectCountParentNotNull)
                         (Ok (World.count World.has_parent w));
                     Obs (Logging ERROR skip_notice) tt])).
  { subst r. unfold manual_attachment_conversion. rewrite Hdsn.
    rewrite interp_bind.
    cbn [execute interp handle World.env World.answer].
    rewrite interp_bind, interp_cr_execute. cbn [World.sql].
    unfold World.count at 1. cbn [fetchone_0 bind sql_truthy].
    rewrite (some_parent_count _ Hsome). reflexivity. }
  rewrite Hr. split; [reflexivity |]. simpl.
  repeat split; auto.
Qed.

Lemma manual_conversion_already_done_witness :
  fst (interp example_env (manual_attachment_conversion manual_args)
              world_converted)
  = (Returned tt, world_converted).
Proof.
  assert (E : Exists (fun a => World.att_parent a <> None)
                     (World.attachments world_converted))
    by (left; discriminate).
  exact (f_equal fst
           (proj1 (manual_conversion_already_done tagged manual_args
                     "dbname=prod" world_converted eq_refl E))).
Defined.

(** ** Which payloads the manual conversion decodes *)

Section Transcoding.
Variable transcode : string -> string.

Lemma fold_map_rows {X : Type} (f : Z -> X -> X) (starts : list Z)
      (l : list X) :
    fold_left (fun atts i => map (f i) atts) starts l
    = map (fun a => fold_left (fun a i => f i a) starts a) l.
  Proof.
    revert l. induction starts as [| i starts IH]; intro l; simpl.
    - symmetry. apply map_id.
    - rewrite IH, map_map. reflexivity.
  Qed.

Lemma batches_skip_parented (d : Z) (starts : list Z)
      (a : World.attachment_row) :
    World.has_parent a = true ->
    fold_left (fun a i =>
                 World.update_batch transcode (Some d) i (i + 1000 - 1) a)
              starts a = a.
  Proof.
    intro H. induction starts as [| i starts IH]; simpl; [reflexivity |].
    unfold World.update_batch at 2. rewrite H. simpl. exact IH.
  Qed.

  (** A row without parent is decoded by the first batch that covers its
      identity, and by no other. *)
Lemma batches_on_row (d : Z) (starts : list Z)
      (a : World.attachment_row) :
    World.att_parent a = None ->
    fold_left (fun a i =>
                 World.update_batch transcode (Some d) i (i + 1000 - 1) a)
              starts a
    = if existsb (covers a) starts then decoded transcode d a else a.
  Proof.
    intro H. induction starts as [| i starts IH]; simpl; [reflexivity |].
    unfold World.update_batch at 2. unfold World.has_parent at 1.
    rewrite H. cbn [negb andb]. fold (covers a i).
    destruct (covers a i); simpl.
    - apply batches_skip_parented. reflexivity.
    - exact IH.
  Qed.

Lemma covered_by_range (total : Z) (a : World.attachment_row) :
    0 <= total ->
    existsb (covers a) (py_range 1 (total + 1) 1000)
    = (1 <=? World.att_id a) && (World.att_id a <=? last_converted total).
  Proof.
    intro Ht. unfold py_range, last_converted.
    replace (total + 1 - 1 + 1000 - 1) with (total + 999) by lia.
    set (n := (total + 999) / 1000). set (x := World.att_id a).
    assert (Hn : 0 <= n) by (apply Z.div_pos; lia).
    destruct ((1 <=? x) && (x <=? 1000 * n)) eqn:E.
    - apply andb_prop in E. destruct E as [E1 E2].
      apply Z.leb_le in E1. apply Z.leb_le in E2.
      apply existsb_exists. exists (1 + Z.of_nat (Z.to_nat ((x - 1) / 1000)) * 1000).
      assert (Hq : 0 <= (x - 1) / 1000 < n).
      { split; [apply Z.div_pos; lia |].
        apply Z.div_lt_upper_bound; lia. }
      split.
      + apply in_map_iff. exists (Z.to_nat ((x - 1) / 1000)).
        split; [reflexivity |]. apply in_seq. lia.
      + unfold covers. fold x. rewrite Z2Nat.id by lia.
        pose proof (Z.div_mod (x - 1) 1000 ltac:(lia)) as D.
        pose proof (Z.mod_pos_bound (x - 1) 1000 ltac:(lia)) as B.
        apply andb_true_intro. split; apply Z.leb_le; lia.
    - apply not_true_iff_false. intro H. apply existsb_exists in H.
      destruct H as (i & Hi & Hc). apply in_map_iff in Hi.
      destruct Hi as (k & <- & Hk). apply in_seq in Hk.
      unfold covers in Hc. fold x in Hc. apply andb_prop in Hc.
      destruct Hc as [C1 C2]. apply Z.leb_le in C1. apply Z.leb_le in C2.
      assert (Z.of_nat k < n) by lia.
      apply andb_false_iff in E. destruct E as [E | E];
        apply Z.leb_gt in E; lia.
  Qed.
End Transcoding.

(** C10, amended. With no parent set yet and the root directory known,
    the manual conversion returns with the NOT NULL constraint in place
    and every row attached to the root directory; the payload is decoded
    for the rows whose identity lies in [1, 1000 * ceil(total / 1000)],
    the range the batches cover, [total] being the number of rows counted,
    and for no other row: a row whose identity is beyond the last batch
    receives a parent and keeps its payload as it was. *)
Theorem manual_conversion_decodes_batches_only :
  forall (transcode : string -> string) (args : Args) (dsn : string)
         (w : World.t) (d : Z),
    args_dsn args = Some dsn ->
    Forall (fun a => World.att_parent a = None) (World.attachments w) ->
    World.dir_root w = Some d ->
    let total := len (filter to_convert (World.attachments w)) in
    let r := interp (World.env transcode) (manual_attachment_conversion args) w in
    fst (fst r) = Returned tt
    /\ World.parent_not_null (snd (fst r)) = true
    /\ map key_columns (World.attachments (snd (fst r)))
       = map (fun a =>
                (World.att_id a, Some d,
                 if (1 <=? World.att_id a)
                    && (World.att_id a <=? last_converted total)
                 then option_map transcode (World.att_db_datas a)
                 else World.att_db_datas a))
             (World.attachments w).
Proof.
  intros transcode args dsn w d Hdsn Hnone Hroot total r.
  destruct (manual_conversion_run transcode args dsn w d Hdsn Hnone Hroot)
    as (j & atts & Hrun & _ & Hk).
  subst r. rewrite Hrun. simpl fst. simpl snd.
  split; [reflexivity |]. split; [reflexivity |].
  change (World.attachments
            (World.with_parent_not_null (World.with_attachments w atts) true))
    with atts.
  rewrite Hk, fold_map_rows, !map_map. fold total.
  apply map_ext_in. intros a Ha.
  rewrite Forall_forall in Hnone. specialize (Hnone a Ha).
  rewrite (batches_on_row transcode d _ a Hnone).
  rewrite (covered_by_range total a) by (unfold total, len; lia).
  unfold World.update_remaining, World.has_parent, key_columns.
  destruct ((1 <=? World.att_id a)
            && (World.att_id a <=? last_converted total)).
  - reflexivity.
  - rewrite Hnone. reflexivity.
Qed.

Lemma manual_conversion_decodes_batches_only_witness :
  map key_columns
      (World.attachments
         (snd (fst (interp example_env
                           (manual_attachment_conversion manual_args)
                           world_gap))))
  = [(5, Some 1, Some (tagged "eA=="))].
Proof.
  assert (N : Forall (fun a => World.att_parent a = None)
                     (World.attachments world_gap))
    by (repeat constructor).
  exact (proj2 (proj2 (manual_conversion_decodes_batches_only tagged
                         manual_args "dbname=prod" world_gap 1
                         eq_refl N eq_refl))).
Defined.

(** C10 as stated fails: one row is counted, so the total is 1; the row
    has identity 5, beyond the total, and its payload is decoded all the
    same, because the only batch covers [1,1000]. *)
Lemma manual_conversion_decodes_beyond_total :
  World.count to_convert world_gap = [[SInt 1]]
  /\ map key_columns (World.attachments world_gap)
     = [(5, None, Some "eA==")]
  /\ map key_columns
         (World.attachments
            (snd (fst (interp example_env
                              (manual_attachment_conversion manual_args)
                              world_gap))))
     = [(5, Some 1, Some (tagged "eA=="))]
  /\ tagged "eA==" <> "eA==".
Proof.
  repeat split; try (vm_compute; reflexivity). discriminate.
Qed.

(** ** The migration through the configuration parameter *)

Lemma cleared_app (j1 j2 : journal) :
  cleared (j1 ++ j2) = cleared j1 ++ cleared j2.
Proof. unfold cleared. apply flat_map_app. Qed.

Lemma logged_app (j1 j2 : journal) :
  logged (j1 ++ j2) = logged j1 ++ logged j2.
Proof. unfold logged. apply flat_map_app. Qed.

Lemma quiet_cleared (j : journal) :
  Forall (fun o => match o with Obs e _ => quiet _ e end) j ->
  cleared j = [].
Proof.
  induction 1 as [| [R e r] j H _ IH]; [reflexivity |].
  change (Obs e r :: j) with ([Obs e r] ++ j).
  rewrite cleared_app, IH, (H r). reflexivity.
Qed.

Lemma py_remove_spec (x : Z) (l l' : list Z) :
  py_remove x l = Some l' ->
  incl l' l /\ (NoDup l -> NoDup l' /\ ~ In x l').
Proof.
  revert l'. induction l as [| y l IH]; simpl; intros l' H; [discriminate |].
  destruct (x =? y) eqn:E.
  - injection H as <-. apply Z.eqb_eq in E. subst y. split.
    + apply incl_tl, incl_refl.
    + intro N. inversion N; subst. split; assumption.
  - destruct (py_remove x l) as [l0 |]; [| discriminate].
    injection H as <-. destruct (IH l0 eq_refl) as [I1 I2].
    apply Z.eqb_neq in E. split.
    + intros z [<- | Hz]; [left; reflexivity | right; apply I1, Hz].
    + intro N. inversion N as [| ? ? Hy N']; subst.
      destruct (I2 N') as [N0 Hx]. split.
      * constructor; [intro Hy0; apply Hy, I1, Hy0 | exact N0].
      * intros [H | H]; [congruence | contradiction].
Qed.

Lemma keeps_bbind {A B : Type} (m : block A) (f : A -> block B) :
  keeps m -> (forall a, keeps (f a)) -> keeps (bbind m f).
Proof.
  intros Hm Hf st. unfold bbind.
  apply (safe_bind quiet
           (fun r => attachment_ids (fst r) = attachment_ids st)).
  - apply Hm.
  - intros [st1 [a | e]] H; simpl in H.
    + apply (safe_weaken quiet quiet
               (fun r => attachment_ids (fst r) = attachment_ids st1));
        [auto | | apply Hf].
      intros r Hr. rewrite Hr. exact H.
    + exact H.
Qed.

Lemma keeps_battempt {R : Type} (e : event (result R)) :
  quiet _ e -> keeps (battempt e).
Proof. intros He st. simpl. split; [exact He | reflexivity]. Qed.

Lemma keeps_boption {A : Type} (o : option A) (e : exn) :
  keeps (boption o e).
Proof. intro st. destruct o; reflexivity. Qed.

Lemma keeps_bassign (f : locals -> locals) :
  (forall st, attachment_ids (f st) = attachment_ids st) ->
  keeps (bassign f).
Proof. intros H st. apply H. Qed.

Lemma keeps_blog (m : string) : keeps (blog m).
Proof. intro st. simpl. split; [intro r | intros _]; reflexivity. Qed.

Lemma try_block_keeps (x c total : Z) : keeps (try_block x c total).
Proof.
  unfold try_block.
  repeat (first [ apply keeps_bbind; [| intro]
                | apply keeps_boption
                | apply keeps_blog
                | apply keeps_bassign; intro; reflexivity
                | apply keeps_battempt; intro; reflexivity ]).
Qed.

Lemma except_fault_safe (x : Z) (e : exn) (st : locals) :
  safe quiet
       (fun st1 => py_remove x (attachment_ids st)
                   = Some (attachment_ids st1))
       (except_fault x e st).
Proof.
  unfold except_fault, log. simpl. split; [intro; reflexivity |]. intros _.
  destruct (py_remove x (attachment_ids st)) as [l |]; [| exact I].
  simpl. destruct (msg st) as [m |]; [| exact I].
  unfold format. destruct (py_format m ["fail"]); simpl; [| exact I].
  split; [intro; reflexivity |]. intros _. reflexivity.
Qed.

Lemma error_line (a : string) :
  exists line,
    py_format "Error when trying to move attachment with id={}" [a]
    = Some line.
Proof. eexists. reflexivity. Qed.

Lemma except_exception_safe (st : locals) :
  safe quiet (fun st1 => attachment_ids st1 = attachment_ids st)
       (except_exception st).
Proof.
  unfold except_exception. destruct (attachment st) as [a |]; [| exact I].
  unfold item. destruct (getitem a "id") as [id |]; [| exact I].
  cbn [bind]. unfold format at 1.
  destruct (error_line (py_str id)) as [line ->]. cbn [bind].
  cbn [status set_msg]. destruct (status st) as [s |]; [| exact I].
  unfold format. destruct (py_format line [s]); simpl; [| exact I].
  split; [intro; reflexivity |]. intros _. reflexivity.
Qed.

Lemma move_attachment_safe (x c total : Z) (st : locals) :
  safe quiet
       (fun st1 => attachment_ids st1 = attachment_ids st
                   \/ py_remove x (attachment_ids st)
                      = Some (attachment_ids st1))
       (move_attachment x c total st).
Proof.
  unfold move_attachment.
  apply (safe_bind quiet
           (fun r => attachment_ids (fst r) = attachment_ids st)).
  - apply try_block_keeps.
  - intros [st1 [[] | e]] H; simpl in H.
    + simpl. left. exact H.
    + destruct (is_fault e).
      * apply (safe_weaken quiet quiet
                 (fun st2 => py_remove x (attachment_ids st1)
                             = Some (attachment_ids st2)));
          [auto | | apply except_fault_safe].
        intros st2 H2. right. rewrite <- H. exact H2.
      * apply (safe_weaken quiet quiet
                 (fun st2 => attachment_ids st2 = attachment_ids st1));
          [auto | | apply except_exception_safe].
        intros st2 H2. left. rewrite H2. exact H.
Qed.

Lemma shrinks_refl (st : locals) : shrinks st st.
Proof. split; [apply incl_refl | auto]. Qed.

Lemma shrinks_trans (a b c : locals) :
  shrinks a b -> shrinks b c -> shrinks a c.
Proof.
  intros [I1 N1] [I2 N2]. split; [| auto].
  intros z Hz. apply I1, I2, Hz.
Qed.

Lemma move_attachments_safe (l : list Z) (c total : Z) (st : locals) :
  safe quiet (shrinks st) (move_attachments l c total st).
Proof.
  revert c st. induction l as [| x l IH]; intros c st.
  - apply shrinks_refl.
  - cbn [move_attachments].
    apply (safe_bind quiet (shrinks st)).
    + apply (safe_weaken quiet quiet
               (fun st1 => attachment_ids st1 = attachment_ids st
                           \/ py_remove x (attachment_ids st)
                              = Some (attachment_ids st1)));
        [auto | | apply move_attachment_safe].
      intros st1 [H | H].
      * unfold shrinks. rewrite H. split; [apply incl_refl | auto].
      * destruct (py_remove_spec _ _ _ H) as [I1 I2].
        split; [exact I1 | intro N; apply (I2 N)].
    + intros st1 H1.
      apply (safe_weaken quiet quiet (shrinks st1));
        [auto | | apply IH].
      intros st2 H2. exact (shrinks_trans _ _ _ H1 H2).
Qed.

Section ConfigParameter.
Context {W : Type} (env : Env W).

Lemma interp_move_attachments_app (l1 l2 : list Z) (c total : Z)
      (st : locals) (w : W) :
    interp env (move_attachments (l1 ++ l2) c total st) w =
    match interp env (move_attachments l1 c total st) w with
    | (Returned st1, w1, j1) =>
        let '(o, w2, j2) :=
          interp env (move_attachments l2 (c + len l1) total st1) w1 in
        (o, w2, j1 ++ j2)
    | (Exited k, w1, j1) => (Exited k, w1, j1)
    | (Raised e, w1, j1) => (Raised e, w1, j1)
    end.
  Proof.
    revert c st w. induction l1 as [| x l1 IH]; intros c st w.
    - simpl. unfold len. simpl. rewrite Z.add_0_r.
      destruct (interp env (move_attachments l2 c total st) w) as [[o w2] j2].
      reflexivity.
    - cbn [app move_attachments]. rewrite !interp_bind.
      destruct (interp env (move_attachment x (c + 1) total st) w)
        as [[o w1] j1].
      destruct o as [st1 | k | e]; [| reflexivity | reflexivity].
      rewrite IH.
      destruct (interp env (move_attachments l1 (c + 1) total st1) w1)
        as [[o w2] j2].
      destruct o as [st2 | k | e]; [| reflexivity | reflexivity].
      replace (c + 1 + len l1) with (c + len (x :: l1))
        by (unfold len; simpl List.length; lia).
      destruct (interp env (move_attachments l2 (c + len (x :: l1)) total st2)
                       w2) as [[o w3] j3].
      rewrite app_assoc. reflexivity.
  Qed.

  (** Once an identity has left [attachment_ids], what is left of the loop
      and the final write do not empty its [db_datas]. *)
Lemma rest_never_clears (x : Z) (l : list Z) (c total : Z) (st : locals)
      (w : W) :
    ~ In x (attachment_ids st) ->
    ~ In x (cleared (snd (interp env
                            (bind (move_attachments l c total st)
                                  delete_from_database) w))).
  Proof.
    intro Hx. rewrite interp_bind.
    destruct (safe_interp env quiet (shrinks st)
                (move_attachments l c total st) w
                (move_attachments_safe l c total st)) as [Hq Hs].
    destruct (interp env (move_attachments l c total st) w) as [[o w1] j1].
    simpl in Hq, Hs. apply quiet_cleared in Hq.
    destruct o as [st1 | k | e]; simpl; [| rewrite Hq; auto | rewrite Hq; auto].
    destruct (Hs st1 eq_refl) as [Hincl _].
    unfold delete_from_database, log, execute. simpl.
    destruct (handle env (Logging INFO "Deleting attachments from database") w1)
      as [[] w2].
    destruct (handle env (Write "ir.attachment" (TIds (attachment_ids st1))
                                [("db_datas", FBool false)]) w2) as [r w3].
    destruct r as [b | e]; simpl; rewrite cleared_app, Hq; simpl;
      rewrite app_nil_r; intro H; apply Hx, Hincl, H.
  Qed.

Lemma interp_bind_assoc {A B C : Type} (p : script A) (f : A -> script B)
      (g : B -> script C) (w : W) :
    interp env (bind (bind p f) g) w
    = interp env (bind p (fun a => bind (f a) g)) w.
  Proof.
    revert w. induction p as [a | e | c | R e k IH]; intro w; simpl;
      try reflexivity.
    destruct (handle env e w) as [r w1]. rewrite IH. reflexivity.
  Qed.

Lemma interp_loop_then_app {B : Type} (g : locals -> script B)
      (l1 l2 : list Z) (c total : Z) (st : locals) (w : W) :
    interp env (bind (move_attachments (l1 ++ l2) c total st) g) w =
    match interp env (move_attachments l1 c total st) w with
    | (Returned st1, w1, j1) =>
        let '(o, w2, j2) :=
          interp env (bind (move_attachments l2 (c + len l1) total st1) g)
                 w1 in
        (o, w2, j1 ++ j2)
    | (Exited k, w1, j1) => (Exited k, w1, j1)
    | (Raised e, w1, j1) => (Raised e, w1, j1)
    end.
  Proof.
    rewrite interp_bind, interp_move_attachments_app.
    destruct (interp env (move_attachments l1 c total st) w) as [[o w1] j1].
    destruct o as [st1 | k | e]; [| reflexivity | reflexivity].
    rewrite interp_bind.
    destruct (interp env (move_attachments l2 (c + len l1) total st1) w1)
      as [[o w2] j2].
    destruct o as [st2 | k | e]; [| reflexivity | reflexivity].
    destruct (interp env (g st2) w2) as [[o w3] j3].
    rewrite app_assoc. reflexivity.
  Qed.

  (** The journal of a turn whose [try] raised a Fault, followed by the
      rest of the loop and the final write: the Fault is in the log and
      the identity of the turn is in no emptying write. *)
Lemma faulted_turn (x : Z) (l : list Z) (c total : Z)
      (st st2 : locals) (e : exn) (w w2 : W) (j2 : journal) :
    NoDup (attachment_ids st) ->
    interp env (try_block x (c + 1) total st) w
    = (Returned (st2, Failed e), w2, j2) ->
    is_fault e = true ->
    let j := snd (interp env (bind (move_attachments (x :: l) c total st)
                                   delete_from_database) w) in
    In (ERROR, unicode_exn e) (logged j) /\ ~ In x (cleared j).
  Proof.
    intros N H2 Hf j. subst j.
    destruct (safe_interp env quiet
                (fun r => attachment_ids (fst r) = attachment_ids st)
                (try_block x (c + 1) total st) w
                (try_block_keeps x (c + 1) total st)) as [Hq Hs].
    rewrite H2 in Hq, Hs. simpl in Hq, Hs. apply quiet_cleared in Hq.
    specialize (Hs _ eq_refl). simpl in Hs.
    cbn [move_attachments]. rewrite interp_bind_assoc, interp_bind.
    unfold move_attachment. rewrite interp_bind, H2, Hf.
    unfold except_fault, log. cbn [bind interp].
    destruct (handle env (Logging ERROR (unicode_exn e)) w2) as [[] w3].
    rewrite Hs.
    destruct (py_remove x (attachment_ids st)) as [l1 |] eqn:Hr.
    - destruct (py_remove_spec _ _ _ Hr) as [_ Hspec].
      destruct (Hspec N) as [_ Hx].
      cbn [msg set_status set_attachment_ids].
      destruct (msg st2) as [m |].
      + unfold format. destruct (py_format m ["fail"]) as [line |].
        * cbn [bind interp].
          destruct (handle env (Logging INFO line) w3) as [[] w4].
          cbn [interp].
          pose proof (rest_never_clears x l (c + 1) total
                        (set_status (set_attachment_ids st2 l1) "fail") w4 Hx)
            as Hrest.
          destruct (interp env
                      (bind (move_attachments l (c + 1) total
                               (set_status (set_attachment_ids st2 l1) "fail"))
                            delete_from_database) w4) as [[o w5] j5].
          simpl in Hrest. simpl. split.
          -- rewrite ?logged_app, ?in_app_iff. simpl. auto.
          -- rewrite !cleared_app, Hq. simpl. exact Hrest.
        * simpl. split.
          -- rewrite ?logged_app, ?in_app_iff. simpl. auto.
          -- rewrite cleared_app, Hq. simpl. auto.
      + simpl. split.
        * rewrite ?logged_app, ?in_app_iff. simpl. auto.
        * rewrite cleared_app, Hq. simpl. auto.
    - simpl. split.
      + rewrite ?logged_app, ?in_app_iff. simpl. auto.
      + rewrite cleared_app, Hq. simpl. auto.
  Qed.
End ConfigParameter.

(** C2. In the migration through the configuration parameter, when the
    read or the write of an attachment raises a remote Fault, the Fault is
    caught and logged and the attachment leaves the list of the final
    write: no write of the run empties its db_datas. *)
Theorem fault_keeps_inline_payload :
  forall (W : Type) (env : Env W) (ids1 ids2 : list Z) (x : Z)
         (w0 w1 w2 : W) (st1 st2 : locals) (j1 j2 : journal) (e : exn),
    NoDup (ids1 ++ x :: ids2) ->
    interp env (move_attachments ids1 0 (len (ids1 ++ x :: ids2))
                                 (fresh_locals (ids1 ++ x :: ids2))) w0
    = (Returned st1, w1, j1) ->
    interp env (try_block x (len ids1 + 1) (len (ids1 ++ x :: ids2)) st1) w1
    = (Returned (st2, Failed e), w2, j2) ->
    is_fault e = true ->
    let j := snd (interp env (move_and_delete (ids1 ++ x :: ids2)) w0) in
    In (ERROR, unicode_exn e) (logged j) /\ ~ In x (cleared j).
Proof.
  intros W env ids1 ids2 x w0 w1 w2 st1 st2 j1 j2 e N H1 H2 Hf j. subst j.
  unfold move_and_delete.
  destruct (safe_interp env quiet
              (shrinks (fresh_locals (ids1 ++ x :: ids2)))
              (move_attachments ids1 0 (len (ids1 ++ x :: ids2))
                                (fresh_locals (ids1 ++ x :: ids2))) w0
              (move_attachments_safe _ _ _ _)) as [Hq Hs].
  rewrite H1 in Hq, Hs. simpl in Hq, Hs. apply quiet_cleared in Hq.
  destruct (Hs _ eq_refl) as [_ N1]. specialize (N1 N).
  rewrite interp_loop_then_app, H1. rewrite Z.add_0_l.
  pose proof (faulted_turn env x ids2 (len ids1) (len (ids1 ++ x :: ids2))
                st1 st2 e w1 w2 j2 N1 H2 Hf) as [HL HC].
  destruct (interp env
              (bind (move_attachments (x :: ids2) (len ids1)
                       (len (ids1 ++ x :: ids2)) st1)
                    delete_from_database) w1) as [[o w3] j3].
  simpl in HL, HC. simpl. split.
  - rewrite logged_app. apply in_or_app. right. exact HL.
  - rewrite cleared_app, Hq. exact HC.
Qed.

Lemma fault_keeps_inline_payload_witness :
  let j := snd (interp example_env (move_and_delete [1; 2; 3]) world_faulty) in
  In (ERROR, unicode_exn World.server_fault) (logged j) /\ ~ In 2 (cleared j).
Proof.
  eapply (fault_keeps_inline_payload World.t example_env [1] [3] 2
            world_faulty).
  - repeat constructor; simpl; intuition discriminate.
  - vm_compute. reflexivity.
  - vm_compute. reflexivity.
  - reflexivity.
Defined.

(** ** The migration through document storages *)

(** C1, where the code falls short. The loop of the 6.0 path has no
    handler: when the server faults on the payload of attachment 10, the
    Fault leaves [move_using_document_storage], nothing about the failure
    is logged and attachment 11 is never reached; both attachments keep
    their inline payload. *)
Theorem legacy_fault_aborts_run :
  let r := interp example_env (move_using_document_storage example_args)
                  world_legacy_faulty in
  fst (fst r) = Raised World.server_fault
  /\ logged (snd r) = [(INFO, "Begin moving attachments")]
  /\ World.attachments (snd (fst r)) = World.attachments world_legacy_faulty.
Proof. vm_compute. repeat split. Qed.

Section Checks.
Context {W : Type} (env : Env W).

Lemma exits_in_bind {A B : Type} (codes : list Z) (p : script A)
      (f : A -> script B) :
    exits_in codes p -> (forall a, exits_in codes (f a)) ->
    exits_in codes (bind p f).
  Proof.
    induction p as [a | e | c | R e k IH]; simpl; intros Hp Hf; auto.
  Qed.

Lemma exits_in_interp {A : Type} (codes : list Z) (p : script A) (w : W) :
    exits_in codes p ->
    forall c, fst (fst (interp env p w)) = Exited c -> In c codes.
  Proof.
    revert w. induction p as [a | e | c0 | R e k IH]; intro w; simpl;
      intros H c Hc; try discriminate.
    - injection Hc as <-. exact H.
    - destruct (handle env e w) as [r w1]. specialize (IH r w1 (H r) c).
      destruct (interp env (k r) w1) as [[o w2] j]. exact (IH Hc).
  Qed.

Lemma mutations_app (j1 j2 : journal) :
    mutations (j1 ++ j2) = mutations j1 ++ mutations j2.
  Proof. unfold mutations. apply filter_app. Qed.

Lemma read_only_mutations (j : journal) :
    Forall (fun o => match o with Obs e _ => read_only _ e end) j ->
    mutations j = [].
  Proof.
    induction 1 as [| [R e r] j H _ IH]; [reflexivity |].
    unfold mutations in *. simpl. unfold read_only in H. rewrite H. exact IH.
  Qed.
End Checks.

Lemma document_module_state_safe :
  safe read_only (fun _ => True) document_module_state.
Proof.
  unfold document_module_state, execute, index0, item. simpl.
  split; [reflexivity |]. intros [ids | e]; simpl; [| exact I].
  split; [reflexivity |]. intros [[| m l] | e]; simpl; try exact I.
  destruct (getitem m "state"); exact I.
Qed.

Lemma document_module_state_exits (codes : list Z) :
  exits_in codes document_module_state.
Proof.
  unfold document_module_state, execute, index0, item. simpl.
  intros [ids | e]; simpl; [| exact I].
  intros [[| m l] | e]; simpl; try exact I.
  destruct (getitem m "state"); exact I.
Qed.

(** ** Renaming on collision *)

Lemma length_append (s t : string) :
  String.length (s ++ t) = (String.length s + String.length t)%nat.
Proof. induction s as [| c s IH]; simpl; [reflexivity | rewrite IH; reflexivity]. Qed.

Lemma append_cancel_r (s1 s2 t : string) :
  (s1 ++ t)%string = (s2 ++ t)%string -> s1 = s2.
Proof.
  revert s2. induction s1 as [| c r IH]; intros [| c' r'] H; simpl in H.
  - reflexivity.
  - apply (f_equal String.length) in H. simpl in H.
    rewrite length_append in H. lia.
  - apply (f_equal String.length) in H. simpl in H.
    rewrite length_append in H. lia.
  - injection H as -> H. f_equal. apply IH, H.
Qed.

Lemma to_int_not_nil (n : Z) :
  Z.to_int n <> Decimal.Pos Decimal.Nil /\ Z.to_int n <> Decimal.Neg Decimal.Nil.
Proof.
  destruct n as [| p | p]; simpl; split; try discriminate;
    intro H; injection H as H; exact (Unsigned.to_uint_nonnil p H).
Qed.

(** Two integers that print alike are equal. *)
Lemma str_of_Z_inj (a b : Z) : str_of_Z a = str_of_Z b -> a = b.
Proof.
  unfold str_of_Z. intro H. apply DecimalZ.to_int_inj.
  destruct (to_int_not_nil a) as [A1 A2]. destruct (to_int_not_nil b) as [B1 B2].
  pose proof (NilZero.isi (Z.to_int a) A1 A2) as Ia.
  pose proof (NilZero.isi (Z.to_int b) B1 B2) as Ib.
  rewrite H in Ia. rewrite Ia in Ib. injection Ib as Ib. exact Ib.
Qed.

Lemma renamed_inj (a b : Z) (s : string) :
  renamed a s = renamed b s -> a = b.
Proof.
  unfold renamed. intro H. cbn [String.append] in H.
  repeat (injection H as H).
  apply str_of_Z_inj.
  apply (append_cancel_r _ _ (" - " ++ s)%string). exact H.
Qed.

Lemma existsb_py_eqb_strings (s : string) (r : list string) :
  existsb (py_eqb (FStr s)) (map FStr r) = true <-> In s r.
Proof.
  induction r as [| t r IH]; simpl; [split; [discriminate | contradiction] |].
  rewrite orb_true_iff, IH, String.eqb_eq. split; intros [H | H]; auto.
Qed.

(** The set of a list of strings is as long as the list exactly when no
    string occurs twice. *)
Lemma py_set_strings (ss : list string) :
  (List.length (py_set (map FStr ss)) <= List.length ss)%nat
  /\ (List.length (py_set (map FStr ss)) = List.length ss <-> NoDup ss).
Proof.
  induction ss as [| s r [IH1 IH2]]; simpl.
  - split; [lia |]. split; [constructor | reflexivity].
  - destruct (existsb (py_eqb (FStr s)) (map FStr r)) eqn:E.
    + apply existsb_py_eqb_strings in E. split; [lia |]. split.
      * lia.
      * intro N. inversion N. contradiction.
    + simpl. split; [lia |]. split.
      * intro H. constructor.
        -- intro Hin. apply existsb_py_eqb_strings in Hin. congruence.
        -- apply IH2. lia.
      * intro N. inversion N; subst. f_equal. apply IH2. assumption.
Qed.

(** C6, amended. The renaming policy is on exactly when two attachments
    of the dataset share a name.  With the policy off no write carries a
    name.  With the policy on, every attachment that is moved, whatever
    its name, is renamed to 'attachment ID - NAME' unless its name starts
    with 'attachment ID' already, so that two attachments that shared a
    name and are renamed get names that differ: invoice.pdf of identities
    10 and 11 become 'attachment 10 - invoice.pdf' and 'attachment 11 -
    invoice.pdf'. *)
Theorem rename_on_collision :
  forall (ss : list string) (all_ids : list Z) (attachment_id i : Z)
         (a : record) (s : string) (data : field),
    List.length ss = List.length all_ids ->
    getitem a "name" = Some (FStr s) ->
    getitem a "id" = Some (FInt i) ->
    (needs_rename (map FStr ss) all_ids = false <-> NoDup ss)
    /\ write_vals false attachment_id a data = Ret (plain_vals data)
    /\ write_vals true attachment_id a data
       = Ret (if String.prefix ("attachment " ++ str_of_Z i) s
              then plain_vals data
              else plain_vals data
                   ++ [("name", FStr (renamed attachment_id s))])
    /\ (forall b, b <> attachment_id ->
                  renamed b s <> renamed attachment_id s)
    /\ names_of_world
         (snd (fst (interp example_env
                           (move_using_document_storage example_args)
                           world_names)))
       = [(10, "attachment 10 - invoice.pdf");
          (11, "attachment 11 - invoice.pdf");
          (12, "attachment 12 - unique.txt")].
Proof.
  intros ss all_ids attachment_id i a s data Hlen Hname Hid.
  split; [| split; [| split; [| split]]].
  - unfold needs_rename, len. rewrite negb_false_iff, Z.eqb_eq, <- Hlen.
    rewrite Nat2Z.inj_iff. apply py_set_strings.
  - reflexivity.
  - unfold write_vals, item. rewrite Hname. cbn [bind]. rewrite Hid.
    cbn [bind percent_d].
    destruct (String.prefix ("attachment " ++ str_of_Z i) s); reflexivity.
  - intros b Hb H. apply Hb. exact (renamed_inj _ _ _ H).
  - vm_compute. reflexivity.
Qed.

Lemma rename_on_collision_witness :
  needs_rename (map FStr ["invoice.pdf"; "invoice.pdf"]) [10; 11] = false
  <-> NoDup ["invoice.pdf"; "invoice.pdf"].
Proof.
  exact (proj1 (rename_on_collision ["invoice.pdf"; "invoice.pdf"] [10; 11]
                  10 10 [("id", FInt 10); ("name", FStr "invoice.pdf")]
                  "invoice.pdf" (FStr "YQ==") eq_refl eq_refl eq_refl)).
Defined.

(** C6 as stated fails: unique.txt is the name of one attachment only,
    and the run renames it, because two other attachments share a name. *)
Lemma unique_name_renamed :
  names_of_world world_names
  = [(10, "invoice.pdf"); (11, "invoice.pdf"); (12, "unique.txt")]
  /\ names_of_world
       (snd (fst (interp example_env
                         (move_using_document_storage example_args)
                         world_names)))
     = [(10, "attachment 10 - invoice.pdf");
        (11, "attachment 11 - invoice.pdf");
        (12, "attachment 12 - unique.txt")].
Proof. split; vm_compute; reflexivity. Qed.

(** ** The filestore Storage is found or created *)

Lemma harmless_bind {A B : Type} (p : script A) (f : A -> script B) :
  harmless p -> (forall a, harmless (f a)) -> harmless (bind p f).
Proof.
  intros Hp Hf. unfold harmless.
  apply (safe_bind not_storage_create (fun _ => True));
    [exact Hp | intros a _; apply Hf].
Qed.

Lemma harmless_execute {R : Type} (e : event (result R)) :
  not_storage_create _ e -> harmless (execute e).
Proof. intro H. split; [exact H |]. intros [r | x]; exact I. Qed.

Lemma harmless_log (m : string) (b : bool) : harmless (log m b).
Proof. split; [exact I |]. intro r. exact I. Qed.

Lemma harmless_index0 {X : Type} (l : list X) : harmless (index0 l).
Proof. destruct l; exact I. Qed.

Lemma harmless_item (r : record) (k : string) : harmless (item r k).
Proof. unfold item. destruct (getitem r k); exact I. Qed.

Lemma harmless_format (t : string) (a : list string) : harmless (format t a).
Proof. unfold format. destruct (py_format t a); exact I. Qed.

Lemma harmless_fetchone_0 (rows : list row) : harmless (fetchone_0 rows).
Proof. destruct rows as [| [| v r] rows]; exact I. Qed.

Lemma harmless_sql_int (v : sqlval) : harmless (sql_int v).
Proof. destruct v; exact I. Qed.

Lemma harmless_cr_execute (s : stmt) : harmless (cr_execute s).
Proof.
  unfold cr_execute. apply harmless_bind; [apply harmless_log |]. intro.
  split; [exact I |]. intros [rows | e]; [exact I |].
  apply harmless_bind; [apply harmless_log | intro; exact I].
Qed.

Ltac harmless_step :=
  match goal with
  | |- harmless (log _ _) => apply harmless_log
  | |- harmless (index0 _) => apply harmless_index0
  | |- harmless (item _ _) => apply harmless_item
  | |- harmless (format _ _) => apply harmless_format
  | |- harmless (fetchone_0 _) => apply harmless_fetchone_0
  | |- harmless (sql_int _) => apply harmless_sql_int
  | |- harmless (cr_execute _) => apply harmless_cr_execute
  | |- harmless (execute _) => apply harmless_execute; first [exact I | reflexivity]
  | |- harmless (bind _ _) => apply harmless_bind; [| intro]
  | |- harmless (Ret _) => exact I
  | |- harmless (Raise _) => exact I
  | |- harmless (SysExit _) => exact I
  | |- harmless (Vis _ _) => split; [first [exact I | reflexivity] | intro]
  | |- harmless (if ?b then _ else _) => destruct b
  | |- harmless (match ?x with _ => _ end) => destruct x
  | |- safe not_storage_create (fun _ => True) ?p => change (harmless p)
  end.

Lemma harmless_convert_batches (p : sqlval) (batch : Z) (starts : list Z) :
  harmless (convert_batches p batch starts).
Proof.
  induction starts as [| i starts IH]; [exact I |].
  cbn [convert_batches]. apply harmless_bind; [apply harmless_cr_execute |].
  intro. exact IH.
Qed.

Lemma harmless_set_file_sizes (rows : list row) (c total print_at : Z) :
  harmless (set_file_sizes rows c total print_at).
Proof.
  revert c. induction rows as [| a rows IH]; intro c; [exact I |].
  cbn [set_file_sizes]. apply harmless_bind.
  - destruct ((c + 1) mod print_at =? 0); [| exact I].
    destruct (total =? 0); [exact I |]. repeat harmless_step.
  - intro. apply harmless_bind.
    + destruct a as [| v0 [| [| n | b] a]]; exact I.
    + intro f_size. repeat harmless_step. apply IH.
Qed.

Lemma harmless_manual_attachment_conversion (args : Args) :
  harmless (manual_attachment_conversion args).
Proof.
  unfold manual_attachment_conversion.
  repeat first [ harmless_step
               | apply harmless_convert_batches
               | apply harmless_set_file_sizes ].
Qed.

Lemma harmless_document_module_state : harmless document_module_state.
Proof. unfold document_module_state. repeat harmless_step. Qed.

Lemma harmless_pre_move_checks (args : Args) :
  harmless (pre_move_checks args).
Proof.
  unfold pre_move_checks, check_document_module_is_installed,
    install_document_module_if_needed, check_filestore_path.
  repeat first [ harmless_step
               | apply harmless_document_module_state
               | apply harmless_manual_attachment_conversion ].
Qed.

Lemma harmless_write_vals (needs : bool) (attachment_id : Z) (a : record)
    (data : field) :
  harmless (write_vals needs attachment_id a data).
Proof.
  unfold write_vals, percent_d. repeat harmless_step.
Qed.

Lemma harmless_move_to_filestore (old new : Z) (needs : bool)
    (total attachment_id counter : Z) :
  harmless (move_to_filestore old new needs total attachment_id counter).
Proof.
  unfold move_to_filestore, ref_id.
  repeat first [harmless_step | apply harmless_write_vals].
Qed.

Lemma harmless_move_all_to_filestore (old new : Z) (needs : bool)
    (total : Z) (ids : list Z) (counter : Z) :
  harmless (move_all_to_filestore old new needs total ids counter).
Proof.
  revert counter. induction ids as [| x ids IH]; intro counter; [exact I |].
  cbn [move_all_to_filestore]. apply harmless_bind.
  - apply harmless_move_to_filestore.
  - intro. apply IH.
Qed.

Lemma harmless_names_of (records : list record) : harmless (names_of records).
Proof.
  induction records as [| x records IH]; [exact I |].
  cbn [names_of]. repeat first [harmless_step | apply IH].
Qed.

Section Storages.
Variable transcode : string -> string.
Let env := World.env transcode.

Lemma answer_keeps_storages (R : Type) (e : event R) (w : World.t) :
    not_storage_create R e ->
    World.storages (snd (World.answer transcode e w)) = World.storages w.
  Proof.
    destruct e; simpl; intro H; try reflexivity.
    - unfold World.create. rewrite H.
      destruct (String.eqb model "ir.config_parameter"); [reflexivity |].
      destruct (String.eqb model "base.module.upgrade"); reflexivity.
    - unfold World.write. destruct (World.target_ids ids); [| reflexivity].
      destruct (World.is_broken w model l (map fst vals)); [reflexivity |].
      destruct (String.eqb model "ir.attachment"); [reflexivity |].
      destruct (String.eqb model "document.directory"); [reflexivity |].
      destruct (String.eqb model "ir.config_parameter"); reflexivity.
    - unfold World.method.
      destruct (String.eqb model "ir.module.module"
                && String.eqb name "button_install"); [reflexivity |].
      destruct (String.eqb model "base.module.upgrade"
                && String.eqb name "upgrade_module"); reflexivity.
    - destruct s; simpl; try reflexivity.
      + destruct (World.as_parent parent_id); reflexivity.
      + destruct (World.as_parent parent_id); reflexivity.
      + destruct (forallb World.has_parent (World.attachments w));
          reflexivity.
      + destruct id; reflexivity.
  Qed.

Lemma harmless_keeps_storages {A : Type} (p : script A) (w : World.t) :
    harmless p ->
    World.storages (snd (fst (interp env p w))) = World.storages w.
  Proof.
    intro H.
    apply (safe_invariant env not_storage_create
             (fun w1 => World.storages w1 = World.storages w) p w);
      [| exact H | reflexivity].
    intros R e w0 He Hw0. rewrite <- Hw0.
    apply answer_keeps_storages. exact He.
  Qed.

Lemma reused_or_created_refl (path : field) (l : list World.storage_row) :
    reused_or_created path l l.
  Proof. split; auto. Qed.

  (** What comes before the search of the filestore Storage does not
      count. *)
Lemma harmless_then {A B : Type} (path : field)
      (l : list World.storage_row) (p : script A) (q : A -> script B)
      (w : World.t) :
    harmless p ->
    World.storages w = l ->
    (forall a w1, World.storages w1 = l ->
        reused_or_created path l
          (World.storages (snd (fst (interp env (q a) w1))))) ->
    reused_or_created path l
      (World.storages (snd (fst (interp env (bind p q) w)))).
  Proof.
    intros Hp Hw Hq. rewrite interp_bind.
    pose proof (harmless_keeps_storages p w Hp) as K.
    destruct (interp env p w) as [[o w1] j1]. simpl in K.
    rewrite Hw in K. destruct o as [a | c | e]; simpl.
    - specialize (Hq a w1 K).
      destruct (interp env (q a) w1) as [[o w2] j2]. exact Hq.
    - rewrite K. apply reused_or_created_refl.
    - rewrite K. apply reused_or_created_refl.
  Qed.

  (** Nor does what comes after it. *)
Lemma then_harmless {A B : Type} (path : field)
      (l : list World.storage_row) (p : script A) (q : A -> script B)
      (w : World.t) :
    reused_or_created path l
      (World.storages (snd (fst (interp env p w)))) ->
    (forall a, harmless (q a)) ->
    reused_or_created path l
      (World.storages (snd (fst (interp env (bind p q) w)))).
  Proof.
    intros Hp Hq. rewrite interp_bind.
    destruct (interp env p w) as [[o w1] j1]. simpl in Hp.
    destruct o as [a | c | e]; simpl; try exact Hp.
    pose proof (harmless_keeps_storages (q a) w1 (Hq a)) as K.
    destruct (interp env (q a) w1) as [[o w2] j2]. simpl in *.
    rewrite K. exact Hp.
  Qed.

Lemma py_eqb_option_field (x : option string) :
    py_eqb (option_field x) (option_field x) = true.
  Proof. destruct x; simpl; [apply String.eqb_refl | reflexivity]. Qed.

Lemma satisfies_filestore (path : field) (s : World.storage_row) :
    forallb (World.satisfies (World.storage_record s))
            [("type", "=", FStr "filestore"); ("path", "=", path)]
    = py_eqb (World.sto_type s) (FStr "filestore")
      && py_eqb (World.sto_path s) path.
  Proof. simpl. rewrite andb_true_r. reflexivity. Qed.

Lemma filter_storage_records (path : field) (l : list World.storage_row) :
    map fst
        (filter (fun ir : Z * record =>
                   forallb (World.satisfies (snd ir))
                           [("type", "=", FStr "filestore");
                            ("path", "=", path)])
                (map (fun s => (World.sto_id s, World.storage_record s)) l))
    = map World.sto_id (filestore_rows path l).
  Proof.
    induction l as [| s l IH]; [reflexivity |].
    cbn [map filter snd filestore_rows]. rewrite satisfies_filestore.
    fold (filestore_rows path l).
    destruct (py_eqb (World.sto_type s) (FStr "filestore")
              && py_eqb (World.sto_path s) path);
      cbn [map fst]; rewrite IH; reflexivity.
  Qed.

  (** The search of lines 183-187 finds the identities of the filestore
      Storages with the path. *)
Lemma search_filestore (path : field) (w : World.t) :
    World.search w "document.storage"
                 [("type", "=", FStr "filestore"); ("path", "=", path)]
    = Ok (map World.sto_id (filestore_rows path (World.storages w))).
  Proof.
    unfold World.search.
    change (World.records w "document.storage")
      with (Some (map (fun s => (World.sto_id s, World.storage_record s))
                      (World.storages w))).
    cbv beta iota. rewrite filter_storage_records. reflexivity.
  Qed.

Lemma filestore_rows_app (path : field) (l1 l2 : list World.storage_row) :
    filestore_rows path (l1 ++ l2)
    = filestore_rows path l1 ++ filestore_rows path l2.
  Proof. unfold filestore_rows. apply filter_app. Qed.

  (** Lines 183-198 on the reference server. *)
Lemma filestore_storage_run (args : Args) (w : World.t)
      (l : list World.storage_row) :
    World.storages w = l ->
    reused_or_created (option_field (args_filestore_path args)) l
      (World.storages (snd (fst (interp env (filestore_storage args) w)))).
  Proof.
    intro Hw. unfold filestore_storage, execute.
    cbn [bind interp handle env World.env World.answer].
    rewrite search_filestore, Hw.
    destruct (filestore_rows (option_field (args_filestore_path args)) l)
      as [| s r] eqn:E.
    - cbn [map bind interp handle env World.env World.answer].
      unfold World.create. cbn [String.eqb Ascii.eqb Bool.eqb].
      cbn [fst snd World.storages World.with_storages interp].
      rewrite Hw. split; [intro H; rewrite E in H; contradiction |].
      intros _. right. eexists. split; [reflexivity |].
      rewrite filestore_rows_app, E. unfold filestore_rows.
      cbn [filter World.sto_type World.sto_path World.field_or getitem
           String.eqb Ascii.eqb Bool.eqb app].
      rewrite py_eqb_option_field. reflexivity.
    - cbn [map bind interp fst snd]. rewrite Hw.
      split; [reflexivity |]. intro H. rewrite E in H. discriminate.
  Qed.

  (** One run reuses the filestore Storage or creates the only one. *)
Lemma run_reuses_or_creates (args : Args) (w : World.t) :
    reused_or_created (option_field (args_filestore_path args))
      (World.storages w)
      (World.storages
         (snd (fst (interp env (move_using_document_storage args) w)))).
  Proof.
    unfold move_using_document_storage.
    apply harmless_then;
      [apply harmless_pre_move_checks | reflexivity | intros _ w1 H1].
    apply harmless_then;
      [apply harmless_execute; exact I | exact H1 | intros old_ids w2 H2].
    apply harmless_then;
      [apply harmless_index0 | exact H2 | intros old w3 H3].
    apply then_harmless; [apply filestore_storage_run; exact H3 |].
    intro new.
    repeat first [ harmless_step
                 | apply harmless_names_of
                 | apply harmless_move_all_to_filestore ].
  Qed.
End Storages.

Lemma reused_twice (path : field) (l0 l1 l2 : list World.storage_row) :
  reused_or_created path l0 l1 ->
  reused_or_created path l1 l2 ->
  (List.length (filestore_rows path l2)
   <= Nat.max 1 (List.length (filestore_rows path l0)))%nat.
Proof.
  intros [A1 B1] [A2 B2].
  destruct (filestore_rows path l0) as [| s r] eqn:E.
  - destruct (B1 eq_refl) as [-> | (s1 & -> & F1)].
    + destruct (B2 E) as [-> | (s2 & -> & F2)].
      * rewrite E. simpl. lia.
      * rewrite F2. simpl. lia.
    + rewrite A2 by (rewrite F1; discriminate). rewrite F1. simpl. lia.
  - assert (l1 = l0) as -> by (apply A1; discriminate).
    assert (l2 = l0) as -> by (apply A2; rewrite E; discriminate).
    rewrite E. lia.
Qed.

(** C8. A run of the 6.0 path uses the Storage of type filestore with the
    given path when there is one and creates one only when there is none;
    so a second run creates nothing once the first has found or created
    the Storage, and two runs never leave more than one such Storage
    where there was at most one. *)
Theorem filestore_storage_reused :
  forall (transcode : string -> string) (args : Args) (w : World.t),
    let path := option_field (args_filestore_path args) in
    let w1 := snd (fst (interp (World.env transcode)
                               (move_using_document_storage args) w)) in
    let w2 := snd (fst (interp (World.env transcode)
                               (move_using_document_storage args) w1)) in
    reused_or_created path (World.storages w) (World.storages w1)
    /\ reused_or_created path (World.storages w1) (World.storages w2)
    /\ (List.length (filestore_rows path (World.storages w2))
        <= Nat.max 1 (List.length (filestore_rows path (World.storages w))))%nat.
Proof.
  intros transcode args w path w1 w2.
  pose proof (run_reuses_or_creates transcode args w) as R1.
  pose proof (run_reuses_or_creates transcode args w1) as R2.
  fold path in R1, R2. fold w1 in R1. fold w2 in R2.
  split; [exact R1 | split; [exact R2 |]].
  exact (reused_twice path _ _ _ R1 R2).
Qed.

(** * Further properties of the script *)

(** ** The exit codes *)

Lemma exits_in_execute {R : Type} (codes : list Z) (e : event (result R)) :
  exits_in codes (execute e).
Proof. intros [r | x]; exact I. Qed.

Lemma exits_in_log (codes : list Z) (m : string) (b : bool) :
  exits_in codes (log m b).
Proof. intro r. exact I. Qed.

Lemma exits_in_index0 {X : Type} (codes : list Z) (l : list X) :
  exits_in codes (index0 l).
Proof. destruct l; exact I. Qed.

Lemma exits_in_item (codes : list Z) (r : record) (k : string) :
  exits_in codes (item r k).
Proof. unfold item. destruct (getitem r k); exact I. Qed.

Lemma exits_in_format (codes : list Z) (t : string) (a : list string) :
  exits_in codes (format t a).
Proof. unfold format. destruct (py_format t a); exact I. Qed.

Lemma exits_in_fetchone_0 (codes : list Z) (rows : list row) :
  exits_in codes (fetchone_0 rows).
Proof. destruct rows as [| [| v r] rows]; exact I. Qed.

Lemma exits_in_sql_int (codes : list Z) (v : sqlval) :
  exits_in codes (sql_int v).
Proof. destruct v; exact I. Qed.

Lemma exits_in_cr_execute (codes : list Z) (s : stmt) :
  exits_in codes (cr_execute s).
Proof.
  unfold cr_execute. apply exits_in_bind; [apply exits_in_log |]. intro.
  intros [rows | e]; [exact I |].
  apply exits_in_bind; [apply exits_in_log | intro; exact I].
Qed.

Ltac exits_step :=
  match goal with
  | |- exits_in _ (log _ _) => apply exits_in_log
  | |- exits_in _ (index0 _) => apply exits_in_index0
  | |- exits_in _ (item _ _) => apply exits_in_item
  | |- exits_in _ (format _ _) => apply exits_in_format
  | |- exits_in _ (fetchone_0 _) => apply exits_in_fetchone_0
  | |- exits_in _ (sql_int _) => apply exits_in_sql_int
  | |- exits_in _ (cr_execute _) => apply exits_in_cr_execute
  | |- exits_in _ (execute _) => apply exits_in_execute
  | |- exits_in _ (bind _ _) => apply exits_in_bind; [| intro]
  | |- exits_in _ (Ret _) => exact I
  | |- exits_in _ (Raise _) => exact I
  | |- exits_in _ (SysExit _) => simpl; tauto
  | |- exits_in _ (Vis _ _) => intro
  | |- exits_in _ (if ?b then _ else _) => destruct b
  | |- exits_in _ (match ?x with _ => _ end) => destruct x
  end.

Lemma exits_in_convert_batches (codes : list Z) (p : sqlval) (batch : Z)
    (starts : list Z) :
  exits_in codes (convert_batches p batch starts).
Proof.
  induction starts as [| i starts IH]; [exact I |].
  cbn [convert_batches]. repeat first [exits_step | apply IH].
Qed.

Lemma exits_in_set_file_sizes (codes : list Z) (rows : list row)
    (c total print_at : Z) :
  exits_in codes (set_file_sizes rows c total print_at).
Proof.
  revert c. induction rows as [| a rows IH]; intro c; [exact I |].
  cbn [set_file_sizes]. repeat first [exits_step | apply IH].
Qed.

Lemma exits_in_manual_attachment_conversion (codes : list Z) (args : Args) :
  exits_in codes (manual_attachment_conversion args).
Proof.
  unfold manual_attachment_conversion.
  repeat first [ exits_step
               | apply exits_in_convert_batches
               | apply exits_in_set_file_sizes ].
Qed.

Lemma exits_in_pre_move_checks (args : Args) :
  exits_in exit_codes (pre_move_checks args).
Proof.
  unfold pre_move_checks, check_document_module_is_installed,
    install_document_module_if_needed, check_filestore_path,
    document_module_state, exit_codes.
  repeat first [ exits_step
               | apply exits_in_manual_attachment_conversion ].
Qed.

Lemma exits_in_move_all_to_filestore (codes : list Z) (old new : Z)
    (needs : bool) (total : Z) (ids : list Z) (counter : Z) :
  exits_in codes (move_all_to_filestore old new needs total ids counter).
Proof.
  revert counter. induction ids as [| x ids IH]; intro counter; [exact I |].
  cbn [move_all_to_filestore].
  unfold move_to_filestore, ref_id, write_vals, percent_d.
  repeat first [exits_step | apply IH].
Qed.

Lemma exits_in_names_of (codes : list Z) (records : list record) :
  exits_in codes (names_of records).
Proof.
  induction records as [| x records IH]; [exact I |].
  cbn [names_of]. repeat first [exits_step | apply IH].
Qed.

Lemma exits_in_move_using_document_storage (args : Args) :
  exits_in exit_codes (move_using_document_storage args).
Proof.
  unfold move_using_document_storage, filestore_storage.
  repeat first [ exits_step
               | apply exits_in_pre_move_checks
               | apply exits_in_names_of
               | apply exits_in_move_all_to_filestore ].
Qed.

Lemma bexits_bbind {A B : Type} (codes : list Z) (m : block A)
    (f : A -> block B) :
  bexits codes m -> (forall a, bexits codes (f a)) ->
  bexits codes (bbind m f).
Proof.
  intros Hm Hf st. unfold bbind. apply exits_in_bind; [apply Hm |].
  intros [st1 [a | e]]; [apply Hf | exact I].
Qed.

Lemma try_block_exits (codes : list Z) (x c total : Z) :
  bexits codes (try_block x c total).
Proof.
  unfold try_block.
  repeat first [ apply bexits_bbind; [| intro]
               | intro st; unfold boption;
                 match goal with
                 | |- exits_in _ (match ?o with _ => _ end _) => destruct o
                 end; exact I
               | intro st; simpl; intros; exact I
               | intro st; exact I ].
Qed.

Lemma exits_in_move_attachments (codes : list Z) (l : list Z) (c total : Z)
    (st : locals) :
  exits_in codes (move_attachments l c total st).
Proof.
  revert c st. induction l as [| x l IH]; intros c st; [exact I |].
  cbn [move_attachments]. apply exits_in_bind; [| intro; apply IH].
  unfold move_attachment. apply exits_in_bind; [apply try_block_exits |].
  intros [st1 [[] | e]]; [exact I |].
  unfold except_fault, except_exception.
  repeat exits_step.
Qed.

Lemma exits_in_move_using_config_parameter (codes : list Z) :
  exits_in codes move_using_config_parameter.
Proof.
  unfold move_using_config_parameter, move_and_delete, delete_from_database.
  repeat first [exits_step | apply exits_in_move_attachments].
Qed.

Lemma exits_in_major_minors (codes : list Z) (modules : list record) :
  exits_in codes (major_minors modules).
Proof.
  induction modules as [| m modules IH]; [exact I |].
  cbn [major_minors]. repeat first [exits_step | apply IH].
Qed.

(** X1. Whatever the server, the database and the file system answer, [run]
    leaves through [sys.exit] with one of the codes 2, 3, 4, 6, 8 and 9
    only: the codes 5 and 7 that the script declares are never used. *)
Theorem run_exit_codes :
  forall (W : Type) (env : Env W) (args : Args) (order : DictOrder) (w : W)
         (c : Z),
    fst (fst (interp env (run args order) w)) = Exited c ->
    In c [2; 3; 4; 6; 8; 9]
    /\ c <> ERROR_DOCUMENT_STORAGE_ALREADY_EXIST
    /\ c <> ERROR_ATTACHMENTS_ALREADY_IN_A_FILESTORE.
Proof.
  intros W env args order w c H.
  assert (E : exits_in exit_codes (run args order)).
  { unfold run, connect, get_odoo_version, select_migration.
    repeat first [ exits_step
                 | apply exits_in_major_minors
                 | apply exits_in_move_using_document_storage
                 | apply exits_in_move_using_config_parameter ];
      unfold exit_codes; simpl; tauto. }
  pose proof (exits_in_interp env exit_codes _ w E c H) as Hc.
  split; [exact Hc |].
  unfold exit_codes in Hc. simpl in Hc.
  unfold ERROR_DOCUMENT_STORAGE_ALREADY_EXIST,
    ERROR_ATTACHMENTS_ALREADY_IN_A_FILESTORE.
  intuition (subst; discriminate).
Qed.

Lemma run_exit_codes_witness :
  In ERROR_USER_NOT_ADMIN [2; 3; 4; 6; 8; 9].
Proof.
  apply (run_exit_codes World.t example_env example_args insertion_order
           world_not_admin ERROR_USER_NOT_ADMIN).
  vm_compute. reflexivity.
Defined.

(** ** The checks before the migration *)

(** X2. A user that is not the administrator (the login answers anything but
    1) ends [run] with ERROR_USER_NOT_ADMIN: the journal holds the prompt
    for the password, if any, the login and the error line; no request
    reaches the object endpoint or the database. *)
Theorem run_not_admin :
  forall (W : Type) (env : Env W) (args : Args) (order : DictOrder) (w : W),
    (let (pwd, w1) := if negb (String.eqb (args_password args) EmptyString)
                      then (args_password args, w)
                      else handle env Getpass w in
     exists uid w2,
       handle env (Login (args_dbname args) (args_user args) pwd) w1
       = (Ok uid, w2)
       /\ py_eqb uid (FInt 1) = false) ->
    let r := interp env (run args order) w in
    fst (fst r) = Exited ERROR_USER_NOT_ADMIN
    /\ Forall before_session (snd r)
    /\ mutations (snd r) = [].
Proof.
  intros W env args order w H r. subst r. unfold run.
  rewrite interp_bind.
  assert (P : exists pwd w1 j1,
             interp env (if negb (String.eqb (args_password args) EmptyString)
                         then Ret (args_password args)
                         else Vis Getpass Ret) w
             = (Returned pwd, w1, j1)
             /\ Forall before_session j1 /\ mutations j1 = []
             /\ exists uid w2,
                  handle env (Login (args_dbname args) (args_user args) pwd)
                         w1 = (Ok uid, w2)
                  /\ py_eqb uid (FInt 1) = false).
  { destruct (negb (String.eqb (args_password args) EmptyString)).
    - exists (args_password args), w, []. repeat split; [constructor |].
      exact H.
    - simpl. destruct (handle env Getpass w) as [pwd w1].
      exists pwd, w1, [Obs Getpass pwd]. repeat split; [| exact H].
      constructor; [exact I | constructor]. }
  destruct P as (pwd & w1 & j1 & -> & F1 & M1 & uid & w2 & HL & Hu).
  rewrite interp_bind. unfold connect. rewrite interp_bind. simpl.
  rewrite HL. simpl. rewrite Hu. simpl.
  destruct (handle env (Logging ERROR _) w2) as [[] w3]. simpl.
  split; [reflexivity |]. split.
  - apply Forall_app. split; [exact F1 |].
    repeat constructor.
  - rewrite mutations_app, M1. reflexivity.
Qed.

Lemma run_not_admin_witness :
  fst (fst (interp example_env (run example_args insertion_order)
                   world_not_admin))
  = Exited ERROR_USER_NOT_ADMIN.
Proof.
  apply (run_not_admin World.t example_env example_args insertion_order
           world_not_admin).
  simpl. eexists. eexists. split; reflexivity.
Defined.

(** X3. With --manual-attachment-conversion and no --dsn the 6.0 path ends
    with ERROR_NO_DNS at once: the only entry of the journal is the error
    line, so nothing was asked of the server or of the database. *)
Theorem manual_conversion_needs_dsn :
  forall (W : Type) (env : Env W) (args : Args) (w : W),
    args_manual_attachment_conversion args = true ->
    falsy (args_dsn args) = true ->
    let r := interp env (move_using_document_storage args) w in
    fst (fst r) = Exited ERROR_NO_DNS
    /\ exists m, snd r = [Obs (Logging ERROR m) tt].
Proof.
  intros W env args w Hm Hd r. subst r.
  unfold move_using_document_storage, pre_move_checks.
  rewrite Hm, Hd. simpl.
  destruct (handle env (Logging ERROR _) w) as [[] w1]. simpl.
  split; [reflexivity |]. eexists. reflexivity.
Qed.

Lemma manual_conversion_needs_dsn_witness :
  fst (fst (interp example_env (move_using_document_storage no_dsn_args)
                   world_uninstalled))
  = Exited ERROR_NO_DNS.
Proof.
  exact (proj1 (manual_conversion_needs_dsn World.t example_env no_dsn_args
                  world_uninstalled eq_refl eq_refl)).
Defined.

(** X4. Without --install-document-module, a document module that is not in
    state installed ends the 6.0 path with ERROR_DOCUMENT_NOT_INSTALLED
    before anything is changed. *)
Theorem document_module_required :
  forall (W : Type) (env : Env W) (args : Args) (w w1 : W) (state : field)
         (j1 : journal),
    args_install_document_module args = false ->
    args_manual_attachment_conversion args && falsy (args_dsn args) = false ->
    interp env document_module_state w = (Returned state, w1, j1) ->
    py_eqb state (FStr "installed") = false ->
    let r := interp env (move_using_document_storage args) w in
    fst (fst r) = Exited ERROR_DOCUMENT_NOT_INSTALLED
    /\ mutations (snd r) = [].
Proof.
  intros W env args w w1 state j1 Hi Hm Hs Hne r. subst r.
  destruct (safe_interp env read_only (fun _ => True) document_module_state w
              document_module_state_safe) as [Hr _].
  rewrite Hs in Hr. simpl in Hr. apply read_only_mutations in Hr.
  unfold move_using_document_storage, pre_move_checks. rewrite Hm.
  cbn [bind]. rewrite interp_bind, interp_bind.
  unfold check_document_module_is_installed. rewrite interp_bind, Hs.
  rewrite Hne, Hi. simpl.
  destruct (handle env (Logging ERROR _) w1) as [[] w2]. simpl.
  split; [reflexivity |]. rewrite mutations_app, Hr. reflexivity.
Qed.

Lemma document_module_required_witness :
  fst (fst (interp example_env (move_using_document_storage example_args)
                   world_uninstalled))
  = Exited ERROR_DOCUMENT_NOT_INSTALLED.
Proof.
  eapply (document_module_required World.t example_env example_args
            world_uninstalled).
  - reflexivity.
  - reflexivity.
  - vm_compute. reflexivity.
  - reflexivity.
Defined.

(** ** Failures in the loop of the 7.0 path *)

(** X5. When the read of the very first attachment fails, the handler needs a
    name that the [try] body has not bound yet: the run ends with an
    UnboundLocalError (on [msg] after a Fault, on [attachment] after any
    other exception), the other attachments are not moved and the final
    write is never sent. *)
Theorem first_read_failure_aborts :
  forall (W : Type) (env : Env W) (x : Z) (rest : list Z) (w w1 : W)
         (e : exn),
    handle env (Read "ir.attachment" [x] ["id"; "name"; "datas"]) w
    = (Failed e, w1) ->
    let r := interp env (move_and_delete (x :: rest)) w in
    fst (fst r) = Raised (XUnboundLocalError (unbound_name e))
    /\ cleared (snd r) = []
    /\ mutations (snd r) = [].
Proof.
  intros W env x rest w w1 e H r.
  assert (E : exists w2 j,
             r = (Raised (XUnboundLocalError (unbound_name e)), w2, j)
             /\ cleared j = [] /\ mutations j = []).
  { subst r. unfold move_and_delete. cbn [move_attachments].
    rewrite interp_bind_assoc, interp_bind.
    unfold move_attachment. rewrite interp_bind.
    unfold try_block, bbind at 1, battempt. cbn [bind interp]. rewrite H.
    cbn [interp]. unfold unbound_name.
    destruct (is_fault e).
    - unfold except_fault, log. cbn [bind interp].
      destruct (handle env (Logging ERROR (unicode_exn e)) w1) as [[] w2].
      cbn [fresh_locals attachment_ids py_remove]. rewrite Z.eqb_refl.
      cbn [msg set_status set_attachment_ids interp].
      eexists. eexists. split; [reflexivity | split; reflexivity].
    - unfold except_exception. cbn [fresh_locals attachment interp].
      eexists. eexists. split; [reflexivity | split; reflexivity]. }
  destruct E as (w2 & j & -> & C & M). repeat split; assumption.
Qed.

Lemma first_read_failure_aborts_witness :
  fst (fst (interp example_env (move_and_delete [2; 3]) world_faulty))
  = Raised (XUnboundLocalError "msg").
Proof.
  exact (proj1 (first_read_failure_aborts World.t example_env 2 [3]
                  world_faulty world_faulty World.server_fault eq_refl)).
Defined.

Lemma py_remove_other (x y : Z) (l l1 : list Z) :
  py_remove x l = Some l1 -> y <> x -> In y l -> In y l1.
Proof.
  revert l1. induction l as [| z l IH]; simpl; intros l1 H Hy Hin;
    [contradiction |].
  destruct (x =? z) eqn:E.
  - injection H as <-. apply Z.eqb_eq in E. subst z.
    destruct Hin as [<- | Hin]; [contradiction | exact Hin].
  - destruct (py_remove x l) as [l0 |]; [| discriminate].
    injection H as <-. destruct Hin as [<- | Hin]; [left; reflexivity |].
    right. apply (IH l0 eq_refl Hy Hin).
Qed.

(** The turns of other attachments do not take [y] out of the list. *)
Lemma move_attachments_keeps_others (y : Z) (l : list Z) (c total : Z)
    (st : locals) :
  ~ In y l ->
  safe quiet
       (fun st1 => In y (attachment_ids st) -> In y (attachment_ids st1))
       (move_attachments l c total st).
Proof.
  revert c st. induction l as [| x l IH]; intros c st Hy; [simpl; auto |].
  cbn [move_attachments].
  apply (safe_bind quiet
           (fun st1 => In y (attachment_ids st)
                       -> In y (attachment_ids st1))).
  - apply (safe_weaken quiet quiet
             (fun st1 => attachment_ids st1 = attachment_ids st
                         \/ py_remove x (attachment_ids st)
                            = Some (attachment_ids st1)));
      [auto | | apply move_attachment_safe].
    intros st1 [H | H] Hin.
    + rewrite H. exact Hin.
    + apply (py_remove_other x y _ _ H); [| exact Hin].
      intro E. apply Hy. left. symmetry. exact E.
  - intros st1 H1.
    apply (safe_weaken quiet quiet
             (fun st2 => In y (attachment_ids st1)
                         -> In y (attachment_ids st2)));
      [auto | | apply IH].
    + intros st2 H2 Hin. exact (H2 (H1 Hin)).
    + intro Hin. apply Hy. right. exact Hin.
Qed.

Section OtherExceptions.
Context {W : Type} (env : Env W).

  (** An identity that is still in the list when the rest of the loop
      does not concern it is in the final write, if the run gets there. *)
Lemma rest_clears (x : Z) (l : list Z) (c total : Z) (st : locals)
      (w : W) :
    In x (attachment_ids st) ->
    ~ In x l ->
    let r := interp env (bind (move_attachments l c total st)
                              delete_from_database) w in
    fst (fst r) = Returned tt -> In x (cleared (snd r)).
  Proof.
    intros Hin Hl r. subst r. rewrite interp_bind.
    destruct (safe_interp env quiet _ (move_attachments l c total st) w
                (move_attachments_keeps_others x l c total st Hl))
      as [_ Hs].
    destruct (interp env (move_attachments l c total st) w) as [[o w1] j1].
    simpl in Hs. destruct o as [st1 | k | e]; simpl; try discriminate.
    specialize (Hs st1 eq_refl Hin).
    unfold delete_from_database, log, execute. simpl.
    destruct (handle env (Logging INFO "Deleting attachments from database") w1)
      as [[] w2].
    destruct (handle env (Write "ir.attachment" (TIds (attachment_ids st1))
                                [("db_datas", FBool false)]) w2) as [r w3].
    destruct r as [b | e]; simpl; [| discriminate].
    intros _. rewrite cleared_app. apply in_or_app. right. simpl.
    rewrite app_nil_r. exact Hs.
  Qed.

Lemma other_exception_turn (x : Z) (l : list Z) (c total : Z)
      (st st2 : locals) (e : exn) (w w2 : W) (j2 : journal) :
    In x (attachment_ids st) ->
    ~ In x l ->
    interp env (try_block x (c + 1) total st) w
    = (Returned (st2, Failed e), w2, j2) ->
    is_fault e = false ->
    let r := interp env (bind (move_attachments (x :: l) c total st)
                              delete_from_database) w in
    fst (fst r) = Returned tt -> In x (cleared (snd r)).
  Proof.
    intros Hin Hl H2 Hf r. subst r.
    destruct (safe_interp env quiet
                (fun r => attachment_ids (fst r) = attachment_ids st)
                (try_block x (c + 1) total st) w
                (try_block_keeps x (c + 1) total st)) as [_ Hs].
    rewrite H2 in Hs. simpl in Hs. specialize (Hs _ eq_refl). simpl in Hs.
    cbn [move_attachments]. rewrite interp_bind_assoc, interp_bind.
    unfold move_attachment. rewrite interp_bind, H2, Hf.
    destruct (safe_interp env quiet
                (fun st3 => attachment_ids st3 = attachment_ids st2)
                (except_exception st2) w2 (except_exception_safe st2))
      as [_ Hx].
    destruct (interp env (except_exception st2) w2) as [[o w3] j3].
    simpl in Hx. destruct o as [st3 | k | e3]; simpl; try discriminate.
    specialize (Hx st3 eq_refl).
    assert (Hin3 : In x (attachment_ids st3)) by (rewrite Hx, Hs; exact Hin).
    pose proof (rest_clears x l (c + 1) total st3 w3 Hin3 Hl) as Hrest.
    destruct (interp env (bind (move_attachments l (c + 1) total st3)
                               delete_from_database) w3) as [[o w4] j4].
    simpl in Hrest. simpl. intro Ho. specialize (Hrest Ho).
    rewrite !cleared_app. apply in_or_app. right. exact Hrest.
  Qed.
End OtherExceptions.

(** X6. In the migration through the configuration parameter, a turn whose
    [try] raises anything but a Fault leaves [attachment_ids] as it is:
    when the run gets to its end, the identity of that turn is in the
    final write that empties [db_datas].  This is so whether the
    exception came before the payload was written back (the read answers
    with no record) or after it (the status line cannot be formatted). *)
Theorem other_exception_still_cleared :
  forall (W : Type) (env : Env W) (ids1 ids2 : list Z) (x : Z)
         (w0 w1 w2 : W) (st1 st2 : locals) (j1 j2 : journal) (e : exn),
    NoDup (ids1 ++ x :: ids2) ->
    interp env (move_attachments ids1 0 (len (ids1 ++ x :: ids2))
                                 (fresh_locals (ids1 ++ x :: ids2))) w0
    = (Returned st1, w1, j1) ->
    interp env (try_block x (len ids1 + 1) (len (ids1 ++ x :: ids2)) st1) w1
    = (Returned (st2, Failed e), w2, j2) ->
    is_fault e = false ->
    let r := interp env (move_and_delete (ids1 ++ x :: ids2)) w0 in
    fst (fst r) = Returned tt ->
    In x (cleared (snd r)).
Proof.
  intros W env ids1 ids2 x w0 w1 w2 st1 st2 j1 j2 e N H1 H2 Hf r. subst r.
  unfold move_and_delete.
  assert (Hx1 : ~ In x ids1).
  { intro Hin. apply NoDup_remove_2 in N. apply N, in_or_app. left. exact Hin. }
  assert (Hx2 : ~ In x ids2).
  { intro Hin. apply NoDup_remove_2 in N. apply N, in_or_app. right. exact Hin. }
  destruct (safe_interp env quiet _
              (move_attachments ids1 0 (len (ids1 ++ x :: ids2))
                                (fresh_locals (ids1 ++ x :: ids2))) w0
              (move_attachments_keeps_others x ids1 0 _ _ Hx1)) as [_ Hs].
  rewrite H1 in Hs. simpl in Hs.
  assert (Hin : In x (attachment_ids st1)).
  { apply (Hs _ eq_refl). apply in_or_app. right. left. reflexivity. }
  rewrite interp_loop_then_app, H1. rewrite Z.add_0_l.
  pose proof (other_exception_turn env x ids2 (len ids1)
                (len (ids1 ++ x :: ids2)) st1 st2 e w1 w2 j2 Hin Hx2 H2 Hf)
    as HC.
  destruct (interp env
              (bind (move_attachments (x :: ids2) (len ids1)
                       (len (ids1 ++ x :: ids2)) st1)
                    delete_from_database) w1) as [[o w3] j3].
  simpl in HC. simpl. intro Ho. rewrite cleared_app. apply in_or_app. right.
  exact (HC Ho).
Qed.

Lemma other_exception_still_cleared_witness :
  In 99 (cleared (snd (interp example_env (move_and_delete [1; 99; 3])
                              world_vanished))).
Proof.
  eapply (other_exception_still_cleared World.t example_env [1] [3] 99
            world_vanished).
  - repeat constructor; simpl; intuition discriminate.
  - vm_compute. reflexivity.
  - vm_compute. reflexivity.
  - reflexivity.
  - vm_compute. reflexivity.
Defined.

(** ** What a run never asks for *)

Section Only.
Variable P : forall R : Type, event R -> Prop.

Lemma only_bind {A B : Type} (p : script A) (f : A -> script B) :
    only P p -> (forall a, only P (f a)) -> only P (bind p f).
  Proof.
    intros Hp Hf. unfold only.
    apply (safe_bind P (fun _ => True)); [exact Hp | intros a _; apply Hf].
  Qed.

Lemma only_execute {R : Type} (e : event (result R)) :
    P _ e -> only P (execute e).
  Proof. intro H. split; [exact H |]. intros [r | x]; exact I. Qed.

Lemma only_index0 {X : Type} (l : list X) : only P (index0 l).
  Proof. destruct l; exact I. Qed.

Lemma only_item (r : record) (k : string) : only P (item r k).
  Proof. unfold item. destruct (getitem r k); exact I. Qed.

Lemma only_format (t : string) (a : list string) : only P (format t a).
  Proof. unfold format. destruct (py_format t a); exact I. Qed.

Lemma only_fetchone_0 (rows : list row) : only P (fetchone_0 rows).
  Proof. destruct rows as [| [| v r] rows]; exact I. Qed.

Lemma only_sql_int (v : sqlval) : only P (sql_int v).
  Proof. destruct v; exact I. Qed.

Lemma only_interp {W A : Type} (env : Env W) (p : script A) (w : W) :
    only P p ->
    Forall (fun o => match o with Obs e _ => P _ e end)
           (snd (interp env p w)).
  Proof. intro H. apply (safe_interp env P (fun _ => True) p w H). Qed.

Lemma bonly_bbind {A B : Type} (m : block A) (f : A -> block B) :
    bonly P m -> (forall a, bonly P (f a)) -> bonly P (bbind m f).
  Proof.
    intros Hm Hf st. unfold bbind. apply only_bind; [apply Hm |].
    intros [st1 [a | e]]; [apply Hf | exact I].
  Qed.

Lemma bonly_battempt {R : Type} (e : event (result R)) :
    P _ e -> bonly P (battempt e).
  Proof. intros H st. split; [exact H |]. intros [r | x]; exact I. Qed.

Lemma bonly_boption {A : Type} (o : option A) (e : exn) :
    bonly P (boption o e).
  Proof. intro st. destruct o; exact I. Qed.

Lemma bonly_bassign (f : locals -> locals) : bonly P (bassign f).
  Proof. intro st. exact I. Qed.
End Only.

Ltac only_event :=
  first [ exact I | reflexivity | left; reflexivity | right; reflexivity ].

Ltac only_step :=
  match goal with
  | |- only _ (log _ _) => split; [only_event | intro; exact I]
  | |- only _ (index0 _) => apply only_index0
  | |- only _ (item _ _) => apply only_item
  | |- only _ (format _ _) => apply only_format
  | |- only _ (fetchone_0 _) => apply only_fetchone_0
  | |- only _ (sql_int _) => apply only_sql_int
  | |- only _ (execute _) => apply only_execute; only_event
  | |- only _ (bind _ _) => apply only_bind; [| intro]
  | |- only _ (Ret _) => exact I
  | |- only _ (Raise _) => exact I
  | |- only _ (SysExit _) => exact I
  | |- only _ (Vis _ _) => split; [only_event | intro]
  | |- only _ (if ?b then _ else _) => destruct b
  | |- only _ (match ?x with _ => _ end) => destruct x
  | |- bonly _ (bbind _ _) => apply bonly_bbind; [| intro]
  | |- bonly _ (battempt _) => apply bonly_battempt; only_event
  | |- bonly _ (boption _ _) => apply bonly_boption
  | |- bonly _ (bassign _) => apply bonly_bassign
  | |- bonly _ (blog _) => intro; split; [only_event | intro; exact I]
  | |- safe ?P (fun _ => True) ?p => change (only P p)
  end.

Section NeverAsked.
Variable P : forall R : Type, event R -> Prop.
Hypothesis P_log : forall l m, P _ (Logging l m).
Hypothesis P_attachment_read :
    forall ids fields, P _ (Read "ir.attachment" ids fields).
Hypothesis P_attachment_write :
    forall ids vals, P _ (Write "ir.attachment" ids vals).

Lemma only_try_block (x c total : Z) : bonly P (try_block x c total).
  Proof.
    unfold try_block.
    repeat first [ apply bonly_bbind; [| intro]
                 | apply bonly_battempt; solve [auto]
                 | apply bonly_boption
                 | apply bonly_bassign
                 | (intro; split; [apply P_log | intro; exact I]) ].
  Qed.

Lemma only_log (m : string) (b : bool) : only P (log m b).
  Proof. unfold log. destruct b; (split; [apply P_log | intro; exact I]). Qed.

Lemma only_move_attachment (x c total : Z) (st : locals) :
    only P (move_attachment x c total st).
  Proof.
    unfold move_attachment. apply only_bind; [apply only_try_block |].
    intros [st1 [u | e]]; [exact I |].
    destruct (is_fault e).
    - unfold except_fault. apply only_bind; [apply only_log | intro].
      destruct (py_remove x (attachment_ids st1)); [| exact I].
      cbn [msg set_status set_attachment_ids].
      destruct (msg st1); [| exact I].
      apply only_bind; [apply only_format | intro].
      apply only_bind; [apply only_log | intro; exact I].
    - unfold except_exception. destruct (attachment st1); [| exact I].
      apply only_bind; [apply only_item | intro].
      apply only_bind; [apply only_format | intro].
      cbn [status set_msg]. destruct (status st1); [| exact I].
      apply only_bind; [apply only_format | intro].
      apply only_bind; [apply only_log | intro; exact I].
  Qed.

Lemma only_move_attachments (l : list Z) (c total : Z) (st : locals) :
    only P (move_attachments l c total st).
  Proof.
    revert c st. induction l as [| x l IH]; intros c st; [exact I |].
    cbn [move_attachments].
    apply only_bind; [apply only_move_attachment | intro; apply IH].
  Qed.

Lemma only_move_and_delete (ids : list Z) : only P (move_and_delete ids).
  Proof.
    unfold move_and_delete.
    apply only_bind; [apply only_move_attachments | intro st].
    unfold delete_from_database.
    apply only_bind; [apply only_log | intro].
    apply only_bind; [apply only_execute, P_attachment_write | intro; exact I].
  Qed.
End NeverAsked.

Lemma only_move_using_config_parameter :
  only parameter_or_attachment move_using_config_parameter.
Proof.
  unfold move_using_config_parameter.
  repeat first [ apply only_move_and_delete;
                 [ intros; exact I
                 | intros; right; reflexivity
                 | intros; right; reflexivity ]
               | only_step ].
Qed.

(** X7. The migration of 7.0 and later talks to the server about two
    models only: whatever the server answers, every request of
    [move_using_config_parameter] is a log line or a search, read,
    creation or write on ir.config_parameter or ir.attachment; it calls
    no method of a module, touches no storage or directory, opens no
    database connection and looks at no local path. *)
Theorem config_parameter_path_requests :
  forall (W : Type) (env : Env W) (w : W),
    Forall (fun o => match o with Obs e _ => parameter_or_attachment _ e end)
           (snd (interp env move_using_config_parameter w)).
Proof.
  intros W env w. apply only_interp. exact only_move_using_config_parameter.
Qed.

Lemma only_no_sql_document_module_state : only no_sql document_module_state.
Proof. unfold document_module_state. repeat only_step. Qed.

Lemma only_no_sql_pre_move_checks (args : Args) :
  wants_sql args = false -> only no_sql (pre_move_checks args).
Proof.
  unfold wants_sql. intro H.
  unfold pre_move_checks, check_document_module_is_installed,
    install_document_module_if_needed, check_filestore_path.
  destruct (args_install_document_module args);
    destruct (args_manual_attachment_conversion args);
    try discriminate H;
    repeat first [ apply only_no_sql_document_module_state | only_step ].
Qed.

Lemma only_no_sql_names_of (records : list record) :
  only no_sql (names_of records).
Proof.
  induction records as [| x records IH]; [exact I |].
  cbn [names_of]. repeat first [only_step | apply IH].
Qed.

Lemma only_no_sql_move_all_to_filestore (old new : Z) (needs : bool)
    (total : Z) (ids : list Z) (counter : Z) :
  only no_sql (move_all_to_filestore old new needs total ids counter).
Proof.
  revert counter. induction ids as [| x ids IH]; intro counter; [exact I |].
  cbn [move_all_to_filestore]. apply only_bind; [| intro; apply IH].
  unfold move_to_filestore, ref_id, write_vals, percent_d.
  repeat only_step.
Qed.

Lemma only_no_sql_move_using_document_storage (args : Args) :
  wants_sql args = false -> only no_sql (move_using_document_storage args).
Proof.
  intro H. unfold move_using_document_storage, filestore_storage.
  repeat first [ apply (only_no_sql_pre_move_checks args H)
               | apply only_no_sql_names_of
               | apply only_no_sql_move_all_to_filestore
               | only_step ].
Qed.

Lemma only_no_sql_major_minors (modules : list record) :
  only no_sql (major_minors modules).
Proof.
  induction modules as [| m modules IH]; [exact I |].
  cbn [major_minors]. repeat first [only_step | apply IH].
Qed.

Lemma only_no_sql_run (args : Args) (order : DictOrder) :
  wants_sql args = false -> only no_sql (run args order).
Proof.
  intro H. unfold run, connect, get_odoo_version, select_migration.
  repeat first
    [ apply (only_no_sql_move_using_document_storage args H)
    | apply only_no_sql_major_minors
    | (apply (safe_weaken parameter_or_attachment no_sql
                (fun _ : unit => True) (fun _ => True));
       [ intros R e; destruct e; simpl; intro F;
         first [reflexivity | contradiction]
       | auto
       | exact only_move_using_config_parameter ])
    | only_step ].
Qed.

(** X8. The script connects to the database server and sends SQL only
    when it is run with both --install-document-module and
    --manual-attachment-conversion: with one of them missing, no run,
    whatever the version of the server and whatever it answers, opens a
    connection or executes a statement. *)
Theorem sql_only_on_request :
  forall (W : Type) (env : Env W) (args : Args) (order : DictOrder) (w : W),
    wants_sql args = false ->
    Forall (fun o => match o with Obs e _ => is_sql e = false end)
           (snd (interp env (run args order) w)).
Proof.
  intros W env args order w H.
  apply (only_interp no_sql env (run args order) w).
  apply only_no_sql_run. exact H.
Qed.

Lemma sql_only_on_request_witness :
  Forall (fun o => match o with Obs e _ => is_sql e = false end)
         (snd (interp example_env (run example_args insertion_order)
                      world_uninstalled)).
Proof.
  apply (sql_only_on_request World.t example_env example_args insertion_order
           world_uninstalled).
  reflexivity.
Defined.

(** ** The logging cursor *)

Lemma announces_bind {A B : Type} (p : script A) (f : A -> script B)
    (last : option (level * string)) :
  announces last p -> (forall a, announced (f a)) ->
  announces last (bind p f).
Proof.
  revert last. induction p as [a | e | c | R e k IH]; intros last Hp Hf;
    simpl; auto.
  - apply Hf.
  - destruct Hp as [He Hk]. split; [exact He |]. intro r. apply IH; auto.
Qed.

Lemma announced_bind {A B : Type} (p : script A) (f : A -> script B) :
  announced p -> (forall a, announced (f a)) -> announced (bind p f).
Proof. intros Hp Hf last. apply announces_bind; auto. Qed.

(** A script that sends no SQL has nothing to announce. *)
Lemma no_sql_announced {A : Type} (p : script A) :
  only no_sql p -> announced p.
Proof.
  induction p as [a | e | c | R e k IH]; intros H last; simpl; auto.
  destruct H as [He Hk]. split.
  - destruct e; try exact I. discriminate He.
  - intro r. apply IH, Hk.
Qed.

Lemma announced_cr_execute (s : stmt) : announced (cr_execute s).
Proof.
  intro last. unfold cr_execute, log. simpl. split; [exact I |].
  intros []. split; [reflexivity |].
  intros [rows | e]; simpl; auto.
Qed.

Lemma announced_convert_batches (p : sqlval) (batch : Z) (starts : list Z) :
  announced (convert_batches p batch starts).
Proof.
  induction starts as [| i starts IH]; [intro; exact I |].
  cbn [convert_batches].
  apply announced_bind; [apply announced_cr_execute | intro; exact IH].
Qed.

Ltac announced_step :=
  match goal with
  | |- announced (cr_execute _) => apply announced_cr_execute
  | |- announced (convert_batches _ _ _) => apply announced_convert_batches
  | |- announced (bind _ _) => apply announced_bind; [| intro]
  | |- announced (if ?b then _ else _) => destruct b
  | |- announced (match ?x with _ => _ end) => destruct x
  | |- announced _ => apply no_sql_announced; repeat only_step
  end.

Lemma announced_set_file_sizes (rows : list row) (c total print_at : Z) :
  announced (set_file_sizes rows c total print_at).
Proof.
  revert c. induction rows as [| a rows IH]; intro c; [intro; exact I |].
  cbn [set_file_sizes].
  apply announced_bind; [apply no_sql_announced; repeat only_step | intro].
  apply announced_bind; [apply no_sql_announced; repeat only_step | intro].
  apply announced_bind; [apply no_sql_announced; repeat only_step | intro].
  apply announced_bind; [apply announced_cr_execute | intro; apply IH].
Qed.

Lemma announced_manual_attachment_conversion (args : Args) :
  announced (manual_attachment_conversion args).
Proof.
  unfold manual_attachment_conversion.
  apply announced_bind.
  { destruct (args_dsn args); [| intro; exact I].
    intro last. simpl. split; [exact I |]. intros [r | e]; exact I. }
  intro. apply announced_bind; [apply announced_cr_execute | intro rows].
  apply announced_bind; [apply no_sql_announced; repeat only_step | intro v].
  destruct (sql_truthy v); [apply no_sql_announced; repeat only_step |].
  repeat first [ apply announced_set_file_sizes
               | apply announced_cr_execute
               | apply announced_convert_batches
               | (apply announced_bind; [| intro])
               | (apply no_sql_announced; solve [repeat only_step]) ].
Qed.

Lemma announced_pre_move_checks (args : Args) :
  announced (pre_move_checks args).
Proof.
  unfold pre_move_checks, check_document_module_is_installed,
    install_document_module_if_needed.
  apply announced_bind; [apply no_sql_announced; repeat only_step | intro].
  apply announced_bind;
    [ apply no_sql_announced;
      repeat first [apply only_no_sql_document_module_state | only_step]
    | intro ].
  apply announced_bind.
  - destruct (args_install_document_module args); [| intro; exact I].
    apply announced_bind;
      [ apply no_sql_announced; apply only_no_sql_document_module_state
      | intro state ].
    apply announced_bind;
      [ apply no_sql_announced; repeat only_step | intro ].
    destruct (args_manual_attachment_conversion args);
      [apply announced_manual_attachment_conversion | intro; exact I].
  - intro. apply no_sql_announced. unfold check_filestore_path.
    repeat only_step.
Qed.

Lemma announced_move_using_document_storage (args : Args) :
  announced (move_using_document_storage args).
Proof.
  unfold move_using_document_storage.
  apply announced_bind; [apply announced_pre_move_checks | intro].
  apply no_sql_announced. unfold filestore_storage.
  repeat first [ apply only_no_sql_names_of
               | apply only_no_sql_move_all_to_filestore
               | only_step ].
Qed.

Lemma only_no_sql_move_using_config_parameter :
  only no_sql move_using_config_parameter.
Proof.
  apply (safe_weaken parameter_or_attachment no_sql
           (fun _ : unit => True) (fun _ => True));
    [ | auto | exact only_move_using_config_parameter ].
  intros R e; destruct e; simpl; intro F;
    first [reflexivity | contradiction].
Qed.

Lemma announced_run (args : Args) (order : DictOrder) :
  announced (run args order).
Proof.
  unfold run.
  apply announced_bind; [apply no_sql_announced; repeat only_step | intro pwd].
  apply announced_bind;
    [apply no_sql_announced; unfold connect; repeat only_step | intro].
  apply announced_bind;
    [ apply no_sql_announced; unfold get_odoo_version;
      repeat first [apply only_no_sql_major_minors | only_step]
    | intro v ].
  unfold select_migration.
  destruct (version_ge v "6.0" && version_lt v "7.0");
    [apply announced_move_using_document_storage |].
  destruct (version_ge v "7.0").
  - apply no_sql_announced, only_no_sql_move_using_config_parameter.
  - apply no_sql_announced. repeat only_step.
Qed.

Lemma announces_interp {W A : Type} (env : Env W) (p : script A) (w : W)
    (last : option (level * string)) :
  announces last p -> logged_first last (snd (interp env p w)).
Proof.
  revert w last. induction p as [a | e | c | R e k IH]; intros w last H;
    simpl; auto.
  destruct H as [He Hk]. destruct (handle env e w) as [r w1].
  specialize (IH r w1 _ (Hk r)).
  destruct (interp env (k r) w1) as [[o w2] j]. simpl in *. auto.
Qed.

Lemma logged_first_split (j1 j2 : journal) (s : stmt)
    (r : result (list row)) (last : option (level * string)) :
  logged_first last (j1 ++ Obs (CrExecute s) r :: j2) ->
  (j1 = [] /\ last = Some (INFO, mogrify s))
  \/ exists j0, j1 = j0 ++ [Obs (Logging INFO (mogrify s)) tt].
Proof.
  revert last. induction j1 as [| o j1 IH]; intros last H.
  - left. simpl in H. destruct H as [H _]. auto.
  - right. simpl in H. destruct o as [R e x]. destruct H as [_ H].
    destruct (IH _ H) as [[-> E] | [j0 ->]].
    + destruct e; try discriminate E. simpl in E. injection E as -> ->.
      destruct x. exists []. reflexivity.
    + exists (Obs e x :: j0). reflexivity.
Qed.

(** X9. Every statement the script executes goes through the logging
    cursor: in the journal of any run, the request sent just before a
    statement is executed is the log line, at info level, with the text
    of that statement. *)
Theorem statements_logged_first :
  forall (W : Type) (env : Env W) (args : Args) (order : DictOrder) (w : W)
         (j1 j2 : journal) (s : stmt) (r : result (list row)),
    snd (interp env (run args order) w) = j1 ++ Obs (CrExecute s) r :: j2 ->
    exists j0, j1 = j0 ++ [Obs (Logging INFO (mogrify s)) tt].
Proof.
  intros W env args order w j1 j2 s r E.
  pose proof (announces_interp env (run args order) w None
                (announced_run args order None)) as H.
  rewrite E in H.
  destruct (logged_first_split _ _ _ _ _ H) as [[_ F] | H0];
    [discriminate F | exact H0].
Qed.

Lemma statements_logged_first_witness :
  exists j0,
    firstn 15 (snd (interp example_env (run manual_args insertion_order)
                           world_uninstalled))
    = j0 ++ [Obs (Logging INFO (mogrify SelectCountParentNotNull)) tt].
Proof.
  apply (statements_logged_first World.t example_env manual_args
           insertion_order world_uninstalled
           (firstn 15 (snd (interp example_env
                                   (run manual_args insertion_order)
                                   world_uninstalled)))
           (skipn 16 (snd (interp example_env
                                  (run manual_args insertion_order)
                                  world_uninstalled)))
           SelectCountParentNotNull (Ok [[SInt 0]])).
  vm_compute. reflexivity.
Defined.

(** ** The loop of the migration through document storages *)

Section LegacyLoop.
Context {W : Type} (env : Env W).
Variables (old new : Z) (needs : bool) (total : Z).

Lemma interp_move_all_app (l1 l2 : list Z) (c : Z) (w : W) :
    interp env (move_all_to_filestore old new needs total (l1 ++ l2) c) w
    = match interp env (move_all_to_filestore old new needs total l1 c) w
      with
      | (Returned _, w1, j1) =>
          let '(o, w2, j2) :=
            interp env (move_all_to_filestore old new needs total l2
                                              (c + len l1)) w1 in
          (o, w2, j1 ++ j2)
      | (Exited k, w1, j1) => (Exited k, w1, j1)
      | (Raised e, w1, j1) => (Raised e, w1, j1)
      end.
  Proof.
    revert c w. induction l1 as [| x l1 IH]; intros c w.
    - simpl. unfold len. simpl. rewrite Z.add_0_r.
      destruct (interp env (move_all_to_filestore old new needs total
                                                  l2 c) w) as [[o w2] j2].
      reflexivity.
    - cbn [app move_all_to_filestore]. rewrite !interp_bind.
      destruct (interp env (move_to_filestore old new needs total x
                                              (c + 1)) w) as [[o w1] j1].
      destruct o as [u | k | e]; [| reflexivity | reflexivity].
      rewrite IH.
      destruct (interp env (move_all_to_filestore old new needs total
                                                  l1 (c + 1)) w1)
        as [[o w2] j2].
      destruct o as [u2 | k | e]; [| reflexivity | reflexivity].
      replace (c + 1 + len l1) with (c + len (x :: l1))
        by (unfold len; simpl List.length; lia).
      destruct (interp env (move_all_to_filestore old new needs total
                                                  l2 (c + len (x :: l1))) w2)
        as [[o w3] j3].
      rewrite app_assoc. reflexivity.
  Qed.

  (** The turn of [x] when the server fails to hand out the payload. *)
Lemma failed_payload_read (x c d : Z) (n : string) (a : record) (b : bool)
      (e : exn) (w1 w2 w3 w4 : W) :
    handle env (ReadOne "ir.attachment" x ["parent_id"]) w1 = (Ok a, w2) ->
    getitem a "parent_id" = Some (FRef d n) ->
    handle env (Write "document.directory" (TIds [d])
                      [("storage_id", FInt old)]) w2 = (Ok b, w3) ->
    handle env (ReadOne "ir.attachment" x ["datas"; "parent_id"; "name"]) w3
    = (Failed e, w4) ->
    interp env (move_to_filestore old new needs total x c) w1
    = (Raised e, w4,
       [Obs (ReadOne "ir.attachment" x ["parent_id"]) (Ok a);
        Obs (Write "document.directory" (TIds [d])
                   [("storage_id", FInt old)]) (Ok b);
        Obs (ReadOne "ir.attachment" x ["datas"; "parent_id"; "name"])
            (Failed e)]).
  Proof.
    intros H1 Hp H2 H3. unfold move_to_filestore, execute, item, ref_id.
    cbn [bind interp]. rewrite H1. cbn [bind interp]. rewrite Hp.
    cbn [bind interp]. rewrite H2. cbn [bind interp]. rewrite H3.
    reflexivity.
  Qed.
End LegacyLoop.

(** X10. The loop of the migration through document storages has no
    handler, and it switches the directory of an attachment to the db
    storage before it reads the payload: when that read fails, for any
    reason, the exception ends the loop there; the last request that
    changed anything is the switch of the directory to the db storage,
    nothing is logged about the failure and the attachments that follow
    are not looked at. *)
Theorem failed_read_leaves_directory_on_db :
  forall (W : Type) (env : Env W) (old new : Z) (needs : bool) (total : Z)
         (ids1 ids2 : list Z) (x d : Z) (n : string) (a : record) (b : bool)
         (e : exn) (w0 w1 w2 w3 w4 : W) (j1 : journal),
    interp env (move_all_to_filestore old new needs total ids1 0) w0
    = (Returned tt, w1, j1) ->
    handle env (ReadOne "ir.attachment" x ["parent_id"]) w1 = (Ok a, w2) ->
    getitem a "parent_id" = Some (FRef d n) ->
    handle env (Write "document.directory" (TIds [d])
                      [("storage_id", FInt old)]) w2 = (Ok b, w3) ->
    handle env (ReadOne "ir.attachment" x ["datas"; "parent_id"; "name"]) w3
    = (Failed e, w4) ->
    interp env (move_all_to_filestore old new needs total
                                      (ids1 ++ x :: ids2) 0) w0
    = (Raised e, w4,
       j1 ++ [Obs (ReadOne "ir.attachment" x ["parent_id"]) (Ok a);
              Obs (Write "document.directory" (TIds [d])
                         [("storage_id", FInt old)]) (Ok b);
              Obs (ReadOne "ir.attachment" x ["datas"; "parent_id"; "name"])
                  (Failed e)]).
Proof.
  intros W env old new needs total ids1 ids2 x d n a b e w0 w1 w2 w3 w4 j1
         H0 H1 Hp H2 H3.
  rewrite interp_move_all_app, H0. cbn [move_all_to_filestore].
  rewrite interp_bind.
  rewrite (failed_payload_read env old new needs total x (0 + len ids1 + 1)
             d n a b e w1 w2 w3 w4 H1 Hp H2 H3).
  reflexivity.
Qed.

Lemma failed_read_leaves_directory_on_db_witness :
  exists (w : World.t) (j : journal),
    interp example_env (move_all_to_filestore 1 2 false 2 [10; 11] 0)
           world_second_faulty
    = (Raised World.server_fault, w, j).
Proof.
  eexists. eexists.
  eapply (failed_read_leaves_directory_on_db World.t example_env 1 2 false 2
            [10] [] 11 1 "Documents"
            [("id", FInt 11); ("parent_id", FRef 1 "Documents")] true
            World.server_fault world_second_faulty).
  - vm_compute. reflexivity.
  - vm_compute. reflexivity.
  - reflexivity.
  - vm_compute. reflexivity.
  - vm_compute. reflexivity.
Defined.

(** ** The sizes set by the manual conversion *)

Lemma statements_app (j1 j2 : journal) :
  statements (j1 ++ j2) = statements j1 ++ statements j2.
Proof. unfold statements. apply flat_map_app. Qed.

(** X11. The last loop of the manual conversion sets the size of each
    row it was given to the length of the row's payload: when the
    database accepts the updates (and the total is not 0, by which the
    progress line divides), the loop returns and the statements it
    executed are exactly one UPDATE of file_size per row, in the order of
    the rows, with the length of db_datas and the identity of the row. *)
Theorem file_sizes_from_payloads :
  forall (W : Type) (env : Env W) (rows : list row) (c total print_at : Z)
         (w : W),
    accepts_sizes env ->
    Forall size_row rows ->
    total <> 0 ->
    let r := interp env (set_file_sizes rows c total print_at) w in
    fst (fst r) = Returned tt
    /\ statements (snd r) = flat_map size_update rows.
Proof.
  intros W env rows c total print_at w Henv Hrows Ht. simpl.
  revert c w. induction Hrows as [| a rows Ha _ IH]; intros c w;
    [split; reflexivity |].
  destruct Ha as (i & b & ->). cbn [set_file_sizes flat_map size_update].
  rewrite interp_bind.
  assert (Hline : exists w1 j1,
             interp env
               (if (c + 1) mod print_at =? 0
                then if total =? 0 then Raise XZeroDivisionError
                     else line <- format ("attachments converted: {}/{} ({})"
                                          ++ newline)
                                    [str_of_Z (c + 1); str_of_Z total;
                                     str_of_float ((c + 1) / total * 100)] ;;
                          log line false
                else Ret tt) w
             = (Returned tt, w1, j1) /\ statements j1 = []).
  { destruct ((c + 1) mod print_at =? 0).
    - destruct (Z.eqb_spec total 0) as [E | _]; [contradiction |].
      unfold format.
      destruct (progress_line (str_of_Z (c + 1)) (str_of_Z total)
                  (str_of_float ((c + 1) / total * 100))) as [line ->].
      unfold log. cbn [bind interp].
      destruct (handle env (Logging INFO line) w) as [[] w1].
      exists w1. eexists. split; reflexivity.
    - exists w. exists []. split; reflexivity. }
  destruct Hline as (w1 & j1 & -> & Hj1).
  unfold index0, cr_execute, log. cbn [bind interp].
  destruct (handle env (Logging INFO
              (mogrify (UpdateFileSize (Z.of_nat (String.length b)) (SInt i))))
              w1) as [[] w2].
  destruct (Henv (Z.of_nat (String.length b)) i w2)
    as (rows0 & w3 & ->).
  cbn [bind interp].
  specialize (IH (c + 1) w3).
  destruct (interp env (set_file_sizes rows (c + 1) total print_at) w3)
    as [[o w4] j4].
  simpl in IH. destruct IH as [Ho Hs]. simpl. split; [exact Ho |].
  rewrite statements_app, Hj1. simpl. rewrite Hs. reflexivity.
Qed.

Lemma file_sizes_from_payloads_witness :
  statements (snd (interp example_env
                          (set_file_sizes [[SInt 4; SBytes "abc"];
                                           [SInt 9; SBytes "hello"]] 0 2 1)
                          world_gap))
  = [UpdateFileSize 3 (SInt 4); UpdateFileSize 5 (SInt 9)].
Proof.
  apply (file_sizes_from_payloads World.t example_env
           [[SInt 4; SBytes "abc"]; [SInt 9; SBytes "hello"]] 0 2 1 world_gap).
  - intros n i w. eexists. eexists. reflexivity.
  - repeat constructor; eexists; eexists; reflexivity.
  - lia.
Defined.

(** ** The version label *)

Lemma py_split_0 (sep : ascii) (s : string) : py_split sep 0 s = [s].
Proof.
  induction s as [| c r IH]; [reflexivity |]. simpl.
  rewrite IH. destruct (Ascii.eqb c sep); reflexivity.
Qed.

Lemma py_split_no_sep (sep : ascii) (n : nat) (a : string) :
  count_char sep a = 0%nat -> py_split sep n a = [a].
Proof.
  induction a as [| c r IH]; [reflexivity |]. simpl.
  destruct (Ascii.eqb c sep); [discriminate |]. simpl.
  intro H. rewrite (IH H). reflexivity.
Qed.

Lemma py_split_at_sep (sep : ascii) (n : nat) (a r : string) :
  count_char sep a = 0%nat ->
  py_split sep (S n) (a ++ String sep r) = a :: py_split sep n r.
Proof.
  induction a as [| c a IH]; simpl.
  - intros _. rewrite Ascii.eqb_refl. reflexivity.
  - destruct (Ascii.eqb c sep); [discriminate |]. simpl.
    intro H. rewrite (IH H). reflexivity.
Qed.

(** A string has no separator, or it has a first one. *)
Lemma first_sep (sep : ascii) (s : string) :
  count_char sep s = 0%nat
  \/ exists a r, count_char sep a = 0%nat /\ s = (a ++ String sep r)%string.
Proof.
  induction s as [| c s IH]; [left; reflexivity |]. simpl.
  destruct (Ascii.eqb_spec c sep) as [-> | N].
  - right. exists EmptyString, s. split; reflexivity.
  - destruct IH as [H | (a & r & Ha & ->)]; [left; exact H |].
    right. exists (String c a), r. split; [| reflexivity].
    simpl. destruct (Ascii.eqb_spec c sep); [contradiction | exact Ha].
Qed.

Lemma count_char_app (c : ascii) (s t : string) :
  count_char c (s ++ t) = (count_char c s + count_char c t)%nat.
Proof.
  induction s as [| x s IH]; [reflexivity |]. simpl. rewrite IH. lia.
Qed.

Lemma prefix_app (a b : string) : String.prefix a (a ++ b) = true.
Proof.
  induction a as [| c a IH]; [destruct b; reflexivity |]. simpl.
  destruct (ascii_dec c c) as [_ | N]; [exact IH | contradiction].
Qed.

Lemma prefix_refl (a : string) : String.prefix a a = true.
Proof.
  induction a as [| c a IH]; [reflexivity |]. simpl.
  destruct (ascii_dec c c) as [_ | N]; [exact IH | contradiction].
Qed.

Lemma append_String_assoc (a b : string) (c : ascii) (r : string) :
  (a ++ String c (b ++ r))%string = ((a ++ String c b) ++ r)%string.
Proof. induction a as [| x a IH]; simpl; [reflexivity | rewrite IH; reflexivity]. Qed.

(** The label of a version: the version itself when it has no dot or
    one, the part before the second dot otherwise. *)
Lemma get_major_minor_cases (v : string) :
  (count_char ascii_dot v <= 1 /\ get_major_minor v = v)%nat
  \/ exists a b r,
       count_char ascii_dot a = 0%nat /\ count_char ascii_dot b = 0%nat
       /\ v = (a ++ String ascii_dot (b ++ String ascii_dot r))%string
       /\ get_major_minor v = (a ++ String ascii_dot b)%string.
Proof.
  unfold get_major_minor.
  destruct (first_sep ascii_dot v) as [H | (a & r & Ha & ->)].
  - left. rewrite (py_split_no_sep _ _ _ H). split; [lia | reflexivity].
  - rewrite (py_split_at_sep _ 1 _ _ Ha).
    destruct (first_sep ascii_dot r) as [H | (b & r' & Hb & ->)].
    + left. rewrite (py_split_no_sep _ _ _ H). split; [| reflexivity].
      rewrite count_char_app. simpl. rewrite Ha, H. reflexivity.
    + right. exists a, b, r'. rewrite (py_split_at_sep _ 0 _ _ Hb).
      rewrite py_split_0. repeat split; assumption.
Qed.

(** X12. The label that [get_odoo_version] counts for a module is a
    prefix of the module's version with at most one dot (the version
    itself when it has at most one dot, what comes before the second dot
    otherwise), and taking the label of a label changes nothing. *)
Theorem get_major_minor_label :
  forall v : string,
    String.prefix (get_major_minor v) v = true
    /\ (count_char ascii_dot (get_major_minor v) <= 1)%nat
    /\ get_major_minor (get_major_minor v) = get_major_minor v
    /\ ((count_char ascii_dot v <= 1)%nat -> get_major_minor v = v).
Proof.
  intro v.
  destruct (get_major_minor_cases v)
    as [[H E] | (a & b & r & Ha & Hb & -> & E)].
  - rewrite !E. split; [apply prefix_refl |].
    split; [exact H |]. split; [reflexivity | intros _; reflexivity].
  - rewrite !E. split; [| split; [| split]].
    + rewrite append_String_assoc. apply prefix_app.
    + rewrite count_char_app. simpl. rewrite Ha, Hb. reflexivity.
    + unfold get_major_minor. rewrite (py_split_at_sep _ 1 _ _ Ha).
      rewrite (py_split_no_sep _ 1 _ Hb). reflexivity.
    + rewrite count_char_app. simpl. rewrite count_char_app. simpl.
      intro H. exfalso. lia.
Qed.

Lemma get_major_minor_label_witness : get_major_minor "8.0" = "8.0"%string.
Proof.
  apply (proj2 (proj2 (proj2 (get_major_minor_label "8.0")))).
  simpl. lia.
Defined.

(** ** Versions made of numbers *)

Lemma number_cons (c : ascii) (r : string) :
  number (String c r) = true ->
  classify c = CDigit /\ (r = EmptyString \/ number r = true).
Proof.
  simpl. intro H. apply andb_prop in H. destruct H as [Hc Hr]. split.
  - destruct (classify c); try discriminate Hc; reflexivity.
  - destruct r; [left; reflexivity | right; exact Hr].
Qed.

Lemma component_re_split_number (a : string) :
  number a = true -> component_re_split a = [(CDigit, a)].
Proof.
  induction a as [| c r IH]; [discriminate |]. intro H.
  destruct (number_cons c r H) as [Hc [-> | Hr]].
  - simpl. rewrite Hc. reflexivity.
  - cbn [component_re_split]. rewrite (IH Hr), Hc. reflexivity.
Qed.

Lemma component_re_split_number_dot (a r : string) :
  number a = true ->
  component_re_split (a ++ String ascii_dot r)
  = (CDigit, a) :: (CDot, String ascii_dot EmptyString)
    :: component_re_split r.
Proof.
  induction a as [| c a IH]; [discriminate |]. intro H.
  destruct (number_cons c a H) as [Hc [-> | Ha]].
  - cbn [String.append component_re_split]. rewrite Hc.
    change (classify ascii_dot) with CDot. cbv iota. reflexivity.
  - cbn [String.append component_re_split]. rewrite (IH Ha), Hc. reflexivity.
Qed.

Lemma digit_value (c : ascii) :
  classify c = CDigit -> 0 <= Z.of_nat (nat_of_ascii c) - 48 <= 9.
Proof.
  unfold classify.
  destruct ((48 <=? nat_of_ascii c)%nat && (nat_of_ascii c <=? 57)%nat)
    eqn:E.
  - intros _. apply andb_prop in E. destruct E as [E1 E2].
    apply Nat.leb_le in E1. apply Nat.leb_le in E2. lia.
  - destruct ((97 <=? nat_of_ascii c)%nat && (nat_of_ascii c <=? 122)%nat);
      [discriminate |].
    destruct (Ascii.eqb c ascii_dot); discriminate.
Qed.

Lemma int_of_digits_nonneg (s : string) (acc : Z) :
  all_digits s = true -> 0 <= acc -> 0 <= int_of_digits acc s.
Proof.
  revert acc. induction s as [| c r IH]; intros acc H Hacc; [exact Hacc |].
  simpl in H. apply andb_prop in H. destruct H as [Hc Hr].
  assert (D : classify c = CDigit)
    by (destruct (classify c); try discriminate Hc; reflexivity).
  pose proof (digit_value c D). cbn [int_of_digits].
  apply IH; [exact Hr | lia].
Qed.

Lemma LooseVersion_numbers (a b : string) :
  number a = true -> number b = true ->
  LooseVersion (a ++ "." ++ b)
  = [inl (int_of_digits 0 a); inl (int_of_digits 0 b)].
Proof.
  intros Ha Hb. unfold LooseVersion.
  change (a ++ "." ++ b)%string with (a ++ String ascii_dot b)%string.
  rewrite (component_re_split_number_dot a b Ha).
  rewrite (component_re_split_number b Hb). reflexivity.
Qed.

(** X13. For a version made of two numbers, major.minor, the migration
    is chosen by the major number alone, read as an integer (so 06.1 is
    6.1): 6 gives the migration through document storages, 7 and more
    the migration through the configuration parameter, and less than 6
    the exception. *)
Theorem numeric_version_dispatch :
  forall (args : Args) (a b : string),
    number a = true -> number b = true ->
    let major := int_of_digits 0 a in
    (major = 6 ->
     select_migration args (a ++ "." ++ b) = move_using_document_storage args)
    /\ (7 <= major ->
        select_migration args (a ++ "." ++ b) = move_using_config_parameter)
    /\ (major < 6 ->
        exists m, select_migration args (a ++ "." ++ b)
                  = Raise (XException m)).
Proof.
  intros args a b Ha Hb major.
  pose proof (int_of_digits_nonneg b 0
                (match b as s return number s = true -> all_digits s = true
                 with
                 | EmptyString => fun H => eq_refl
                 | String _ _ => fun H => H
                 end Hb) (Z.le_refl 0)) as Hm.
  unfold select_migration, version_ge, version_lt.
  rewrite (LooseVersion_numbers a b Ha Hb). fold major.
  change (LooseVersion "6.0") with [@inl Z string 6; inl 0].
  change (LooseVersion "7.0") with [@inl Z string 7; inl 0].
  cbn [cmp_version cmp_component].
  split; [| split].
  - intros ->. simpl.
    destruct (Z.compare_spec (int_of_digits 0 b) 0) as [E | E | E];
      [reflexivity | lia | reflexivity].
  - intro H.
    destruct (Z.compare_spec major 6) as [E | E | E]; [lia | lia |].
    destruct (Z.compare_spec major 7) as [E7 | E7 | E7]; [| lia |].
    + destruct (Z.compare_spec (int_of_digits 0 b) 0) as [E0 | E0 | E0];
        [reflexivity | lia | reflexivity].
    + reflexivity.
  - intro H.
    destruct (Z.compare_spec major 6) as [E | E | E]; [lia | | lia].
    destruct (Z.compare_spec major 7) as [E7 | E7 | E7]; [lia | | lia].
    simpl. eexists. reflexivity.
Qed.

Lemma numeric_version_dispatch_witness :
  select_migration example_args "06.1"
  = move_using_document_storage example_args.
Proof.
  apply (proj1 (numeric_version_dispatch example_args "06" "1"
                  eq_refl eq_refl)).
  reflexivity.
Defined.

(** ** The location parameter on the reference server *)

Section Location.
Variable transcode : string -> string.
Let env := World.env transcode.

Lemma answer_keeps_parameters (R : Type) (e : event R) (w : World.t) :
    not_parameter R e ->
    World.parameters (snd (World.answer transcode e w)) = World.parameters w.
  Proof.
    destruct e; simpl; intro H; try reflexivity.
    - unfold World.create.
      destruct (String.eqb model "document.storage"); [reflexivity |].
      rewrite H.
      destruct (String.eqb model "base.module.upgrade"); reflexivity.
    - unfold World.write. destruct (World.target_ids ids); [| reflexivity].
      destruct (World.is_broken w model l (map fst vals)); [reflexivity |].
      destruct (String.eqb model "ir.attachment"); [reflexivity |].
      destruct (String.eqb model "document.directory"); [reflexivity |].
      rewrite H. reflexivity.
    - unfold World.method.
      destruct (String.eqb model "ir.module.module"
                && String.eqb name "button_install"); [reflexivity |].
      destruct (String.eqb model "base.module.upgrade"
                && String.eqb name "upgrade_module"); reflexivity.
    - destruct s; simpl; try reflexivity.
      + destruct (World.as_parent parent_id); reflexivity.
      + destruct (World.as_parent parent_id); reflexivity.
      + destruct (forallb World.has_parent (World.attachments w));
          reflexivity.
      + destruct id; reflexivity.
  Qed.

Lemma only_keeps_parameters {A : Type} (p : script A) (w : World.t) :
    only not_parameter p ->
    World.parameters (snd (fst (interp env p w))) = World.parameters w.
  Proof.
    intro H.
    apply (safe_invariant env not_parameter
             (fun w1 => World.parameters w1 = World.parameters w) p w);
      [| exact H | reflexivity].
    intros R e w0 He Hw0. rewrite <- Hw0.
    apply answer_keeps_parameters. exact He.
  Qed.

Lemma filter_parameter_records (l : list World.parameter_row) :
    map fst
        (filter (fun ir : Z * record =>
                   forallb (World.satisfies (snd ir))
                           [("key", "=", FStr "ir_attachment.location")])
                (map (fun p => (World.par_id p, World.parameter_record p)) l))
    = map World.par_id (location_rows l).
  Proof.
    induction l as [| p l IH]; [reflexivity |].
    cbn [map filter snd location_rows].
    assert (E : forallb (World.satisfies (World.parameter_record p))
                        [("key", "=", FStr "ir_attachment.location")]
                = py_eqb (World.par_key p) (FStr "ir_attachment.location")).
    { simpl. rewrite andb_true_r. reflexivity. }
    rewrite E. fold (location_rows l).
    destruct (py_eqb (World.par_key p) (FStr "ir_attachment.location"));
      cbn [map fst]; rewrite IH; reflexivity.
  Qed.

Lemma search_location (w : World.t) :
    World.search w "ir.config_parameter"
                 [("key", "=", FStr "ir_attachment.location")]
    = Ok (map World.par_id (location_rows (World.parameters w))).
  Proof.
    unfold World.search.
    change (World.records w "ir.config_parameter")
      with (Some (map (fun p => (World.par_id p, World.parameter_record p))
                      (World.parameters w))).
    cbv beta iota. rewrite filter_parameter_records. reflexivity.
  Qed.

Lemma interp_execute {R A : Type} (e : event (result R))
      (k : R -> script A) (w w1 : World.t) (v : R) :
    handle env e w = (Ok v, w1) ->
    interp env (bind (execute e) k) w
    = let '(o, w2, j) := interp env (k v) w1 in (o, w2, Obs e (Ok v) :: j).
  Proof.
    intro H. unfold execute. cbn [bind interp]. rewrite H. reflexivity.
  Qed.

Lemma rest_keeps_parameters (w : World.t) :
    World.parameters
      (snd (fst (interp env
                   (log "Begin moving attachments" false ;;
                    ids <- execute (Search "ir.attachment" [] None) ;;
                    move_and_delete ids) w)))
    = World.parameters w.
  Proof.
    apply only_keeps_parameters.
    repeat first [ apply only_move_and_delete;
                   [ intros; exact I
                   | intros; reflexivity
                   | intros; reflexivity ]
                 | only_step ].
  Qed.

  (** Lines 127-172 on the reference server, as far as the parameters
      go. *)
Lemma run_upserts (w : World.t) :
    World.parameters
      (snd (fst (interp env move_using_config_parameter w)))
    = upsert_location (World.parameters w).
  Proof.
    unfold move_using_config_parameter.
    rewrite (interp_execute _ _ w w
               (map World.par_id (location_rows (World.parameters w))))
      by (cbn [handle env World.env World.answer];
          rewrite search_location; reflexivity).
    unfold upsert_location.
    destruct (location_rows (World.parameters w)) as [| s r] eqn:E.
    - cbn [map]. rewrite interp_bind_assoc.
      erewrite interp_execute by reflexivity.
      cbn [bind].
      match goal with
      | |- context [interp env ?p ?w1] =>
          pose proof (rest_keeps_parameters w1) as K;
          destruct (interp env p w1) as [[o w2] j2]
      end.
      simpl in K. simpl. rewrite K. reflexivity.
    - cbn [map]. rewrite interp_bind_assoc.
      erewrite interp_execute by reflexivity.
      cbn [bind].
      match goal with
      | |- context [interp env ?p ?w1] =>
          pose proof (rest_keeps_parameters w1) as K;
          destruct (interp env p w1) as [[o w2] j2]
      end.
      simpl in K. simpl. rewrite K. reflexivity.
  Qed.
End Location.

Lemma member_In (i : Z) (l : list Z) : World.member i l = true <-> In i l.
Proof.
  unfold World.member. rewrite existsb_exists. split.
  - intros (x & Hx & E). apply Z.eqb_eq in E. subst x. exact Hx.
  - intro H. exists i. split; [exact H | apply Z.eqb_refl].
Qed.

Lemma fresh_above (l : list Z) (i : Z) : In i l -> i < World.fresh l.
Proof.
  unfold World.fresh. induction l as [| x l IH]; [contradiction |].
  cbn [fold_right]. intros [-> | H]; [lia |]. specialize (IH H). lia.
Qed.

Lemma location_rows_app (l1 l2 : list World.parameter_row) :
  location_rows (l1 ++ l2) = location_rows l1 ++ location_rows l2.
Proof. unfold location_rows. apply filter_app. Qed.

Lemma location_rows_In (l : list World.parameter_row)
    (p : World.parameter_row) :
  In p (location_rows l)
  <-> In p l /\ py_eqb (World.par_key p) (FStr "ir_attachment.location") = true.
Proof. unfold location_rows. apply filter_In. Qed.

Section Upsert.
Variable l : list World.parameter_row.
Let ids : list Z := map World.par_id (location_rows l).
Let g (p : World.parameter_row) : World.parameter_row :=
    if World.member (World.par_id p) ids
    then location_row (World.par_id p) else p.

Lemma g_id (p : World.parameter_row) : World.par_id (g p) = World.par_id p.
  Proof. unfold g. destruct (World.member (World.par_id p) ids); reflexivity. Qed.

Lemma g_key (p : World.parameter_row) :
    In p l ->
    py_eqb (World.par_key (g p)) (FStr "ir_attachment.location")
    = World.member (World.par_id p) ids.
  Proof.
    intro Hp. unfold g.
    destruct (World.member (World.par_id p) ids) eqn:M; [reflexivity |].
    destruct (py_eqb (World.par_key p) (FStr "ir_attachment.location"))
      eqn:K; [| reflexivity].
    assert (In (World.par_id p) ids) as Hin.
    { unfold ids. apply in_map. apply location_rows_In. split; assumption. }
    apply member_In in Hin. rewrite Hin in M. discriminate.
  Qed.

Lemma location_rows_map_g (l0 : list World.parameter_row) :
    incl l0 l ->
    location_rows (map g l0)
    = map g (filter (fun p => World.member (World.par_id p) ids) l0).
  Proof.
    induction l0 as [| p l0 IH]; intro Hincl; [reflexivity |].
    cbn [map location_rows filter].
    rewrite (g_key p (Hincl p (or_introl eq_refl))).
    fold (location_rows (map g l0)).
    rewrite IH by (intros x Hx; apply Hincl; right; exact Hx).
    destruct (World.member (World.par_id p) ids); reflexivity.
  Qed.

Lemma ids_again (i : Z) :
    World.member i
      (map World.par_id
           (map g (filter (fun p => World.member (World.par_id p) ids) l)))
    = World.member i ids.
  Proof.
    apply eq_true_iff_eq. rewrite !member_In. rewrite map_map.
    rewrite (map_ext _ World.par_id g_id). split.
    - intro H. apply in_map_iff in H. destruct H as (p & <- & Hp).
      apply filter_In in Hp. destruct Hp as [_ M]. apply member_In, M.
    - intro H. pose proof H as H0. unfold ids in H. apply in_map_iff in H.
      destruct H as (p & <- & Hp). apply location_rows_In in Hp.
      apply in_map. apply filter_In. split; [apply Hp |].
      apply member_In. exact H0.
  Qed.
End Upsert.

Lemma upsert_location_spec (l : list World.parameter_row) :
  location_rows (upsert_location l) <> []
  /\ Forall (fun p => World.par_value p = FStr "file:filestore")
            (location_rows (upsert_location l))
  /\ upsert_location (upsert_location l) = upsert_location l.
Proof.
  unfold upsert_location at 1 2 4 5.
  destruct (location_rows l) as [| s r] eqn:E.
  - assert (L : location_rows
                  (l ++ [location_row (World.fresh (map World.par_id l))])
                = [location_row (World.fresh (map World.par_id l))]).
    { rewrite location_rows_app, E. reflexivity. }
    rewrite L. split; [discriminate |]. split; [repeat constructor |].
    unfold upsert_location. rewrite L. cbn [map World.par_id location_row].
    rewrite map_app. cbn [map World.par_id location_row].
    unfold World.member at 2. cbn [existsb]. rewrite Z.eqb_refl. cbn [orb].
    f_equal. rewrite <- (map_id l) at 2. apply map_ext_in.
    intros p Hp.
    pose proof (fresh_above (map World.par_id l) (World.par_id p)
                  (in_map _ _ _ Hp)) as F.
    unfold World.member. cbn [existsb].
    destruct (Z.eqb_spec (World.par_id p)
                (World.fresh (map World.par_id l))) as [Q | _]; [lia |].
    reflexivity.
  - rewrite <- E.
    rewrite (location_rows_map_g l l (incl_refl l)).
    assert (Hs : In s (filter (fun p => World.member (World.par_id p)
                                 (map World.par_id (location_rows l))) l)).
    { assert (In s (location_rows l)) as Hin by (rewrite E; left; reflexivity).
      apply filter_In. split; [apply location_rows_In in Hin; apply Hin |].
      apply member_In. apply in_map. exact Hin. }
    split; [| split].
    + intro H. apply (in_map
                        (fun p => if World.member (World.par_id p)
                                       (map World.par_id (location_rows l))
                                  then location_row (World.par_id p) else p))
        in Hs.
      rewrite H in Hs. contradiction.
    + apply Forall_forall. intros p Hp. apply in_map_iff in Hp.
      destruct Hp as (q & <- & Hq). apply filter_In in Hq.
      destruct Hq as [_ M]. rewrite M. reflexivity.
    + unfold upsert_location.
      rewrite (location_rows_map_g l l (incl_refl l)).
      destruct (map _ (filter _ l)) as [| s' r'] eqn:E'.
      * apply (in_map
                 (fun p => if World.member (World.par_id p)
                                (map World.par_id (location_rows l))
                           then location_row (World.par_id p) else p))
          in Hs.
        rewrite E' in Hs. contradiction.
      * rewrite <- E'. rewrite map_map. apply map_ext. intro p.
        rewrite ids_again.
        destruct (World.member (World.par_id p)
                    (map World.par_id (location_rows l))) eqn:M.
        -- cbn [World.par_id location_row]. rewrite M. reflexivity.
        -- rewrite M. reflexivity.
Qed.

(** X14. On the reference server, the migration of 7.0 and later leaves
    a parameter ir_attachment.location, every parameter of that key says
    file:filestore, and a second run leaves the parameters as the first
    one left them: it overwrites what it finds and adds nothing. *)
Theorem location_parameter_set_once :
  forall (transcode : string -> string) (w : World.t),
    let w1 := snd (fst (interp (World.env transcode)
                               move_using_config_parameter w)) in
    let w2 := snd (fst (interp (World.env transcode)
                               move_using_config_parameter w1)) in
    location_rows (World.parameters w1) <> []
    /\ Forall (fun p => World.par_value p = FStr "file:filestore")
              (location_rows (World.parameters w1))
    /\ World.parameters w2 = World.parameters w1.
Proof.
  intros transcode w w1 w2. subst w2 w1.
  rewrite !run_upserts.
  exact (upsert_location_spec (World.parameters w)).
Qed.

(** ** The payloads on the reference server *)

Lemma py_format_plain (s : string) (args : list string) :
  no_braces s = true -> py_format s args = Some s.
Proof.
  induction s as [| c r IH]; [reflexivity |]. cbn [no_braces py_format].
  intro H. apply andb_prop in H. destruct H as [H Hr].
  apply andb_prop in H. destruct H as [H1 H2].
  apply negb_true_iff in H1. apply negb_true_iff in H2.
  rewrite H1, H2, (IH Hr). reflexivity.
Qed.

Lemma no_braces_app (s t : string) :
  no_braces (s ++ t) = no_braces s && no_braces t.
Proof.
  induction s as [| c r IH]; [reflexivity |]. cbn [String.append no_braces].
  rewrite IH. apply andb_assoc.
Qed.

Lemma no_braces_digits (d : Decimal.uint) :
  no_braces (NilEmpty.string_of_uint d) = true.
Proof. induction d; simpl; auto. Qed.

Lemma no_braces_uint (d : Decimal.uint) :
  no_braces (NilZero.string_of_uint d) = true.
Proof. destruct d; try reflexivity; apply no_braces_digits. Qed.

Lemma no_braces_str_of_Z (n : Z) : no_braces (str_of_Z n) = true.
Proof.
  unfold str_of_Z, NilZero.string_of_int.
  destruct (Z.to_int n) as [d | d]; simpl; apply no_braces_uint.
Qed.

Lemma error_line_is (a : string) :
  py_format "Error when trying to move attachment with id={}" [a]
  = Some ("Error when trying to move attachment with id=" ++ a ++ EmptyString)%string.
Proof. reflexivity. Qed.

Lemma no_braces_error_line (x : Z) :
  no_braces ("Error when trying to move attachment with id="
             ++ py_str (FInt x) ++ EmptyString) = true.
Proof.
  rewrite !no_braces_app. cbn [py_str].
  rewrite no_braces_str_of_Z. reflexivity.
Qed.

Section Payloads.
Variable transcode : string -> string.
Let env := World.env transcode.

Lemma find_attachment (w0 : World.t) (l : list World.attachment_row)
      (a : World.attachment_row) :
    NoDup (map World.att_id l) -> In a l ->
    find (fun ir : Z * record => fst ir =? World.att_id a)
         (map (fun b => (World.att_id b, World.attachment_record w0 b)) l)
    = Some (World.att_id a, World.attachment_record w0 a).
  Proof.
    induction l as [| b l IH]; [contradiction |].
    cbn [map find fst]. intros N Hin. inversion N as [| ? ? Hb N']; subst.
    destruct (Z.eqb_spec (World.att_id b) (World.att_id a)) as [E | NE].
    - destruct Hin as [-> | Hin]; [reflexivity |].
      exfalso. apply Hb. rewrite E. apply in_map. exact Hin.
    - destruct Hin as [-> | Hin]; [contradiction |]. apply IH; assumption.
  Qed.

Lemma datas_inline (w : World.t) (a : World.attachment_row) :
    has_location w -> inline_only a ->
    World.external w a = true
    /\ World.datas w a = World.some_or_false (World.att_db_datas a).
  Proof.
    intros L [Hp Hf]. unfold World.datas, World.external, World.storage_type.
    rewrite Hp, Hf. unfold has_location in L. rewrite L.
    split; reflexivity.
  Qed.

Lemma read_attachment (w : World.t) (a : World.attachment_row) :
    World.broken w = [] ->
    NoDup (map World.att_id (World.attachments w)) ->
    In a (World.attachments w) ->
    World.read w "ir.attachment" [World.att_id a] ["id"; "name"; "datas"]
    = Ok [[("id", FInt (World.att_id a)); ("name", FStr (World.att_name a));
           ("datas", World.datas w a)]].
  Proof.
    intros B N Hin. unfold World.read.
    change (World.records w "ir.attachment")
      with (Some (map (fun b => (World.att_id b, World.attachment_record w b))
                      (World.attachments w))).
    cbv beta iota. unfold World.is_broken. rewrite B.
    cbn [existsb orb andb String.eqb Ascii.eqb Bool.eqb].
    cbn [flat_map]. rewrite (find_attachment w _ a N Hin). reflexivity.
  Qed.

Lemma same_id (l : list World.attachment_row)
      (a b : World.attachment_row) :
    NoDup (map World.att_id l) -> In a l -> In b l ->
    World.att_id b = World.att_id a -> b = a.
  Proof.
    induction l as [| c l IH]; [contradiction |].
    cbn [map]. intros N Ha Hb E. inversion N as [| ? ? Hc N']; subst.
    destruct Ha as [-> | Ha], Hb as [-> | Hb].
    - reflexivity.
    - exfalso. apply Hc. rewrite <- E. apply in_map. exact Hb.
    - exfalso. apply Hc. rewrite E. apply in_map. exact Ha.
    - apply IH; assumption.
  Qed.

Lemma write_datas_inline (w : World.t) (a : World.attachment_row) :
    has_location w -> inline_only a ->
    World.write_attachment w [("datas", World.datas w a)] a = filed a.
  Proof.
    intros L I. destruct (datas_inline w a L I) as [E D].
    unfold World.write_attachment. rewrite E, D.
    cbn [getitem String.eqb Ascii.eqb Bool.eqb].
    unfold filed. destruct (World.att_db_datas a); reflexivity.
  Qed.

Lemma write_attachment_datas (w : World.t) (a : World.attachment_row) :
    World.broken w = [] ->
    NoDup (map World.att_id (World.attachments w)) ->
    In a (World.attachments w) ->
    has_location w -> inline_only a ->
    World.write w "ir.attachment" (TVal (FInt (World.att_id a)))
                [("datas", World.datas w a)]
    = (Ok true,
       World.with_attachments w
         (map (fun b => if World.att_id b =? World.att_id a
                        then filed b else b)
              (World.attachments w))).
  Proof.
    intros B N Hin L I. unfold World.write. cbn [World.target_ids].
    unfold World.is_broken. rewrite B.
    cbn [existsb orb andb String.eqb Ascii.eqb Bool.eqb map fst].
    f_equal. f_equal. apply map_ext_in. intros b Hb.
    unfold World.member. cbn [existsb]. rewrite orb_false_r.
    destruct (Z.eqb_spec (World.att_id b) (World.att_id a)) as [E | _];
      [| reflexivity].
    rewrite (same_id _ a b N Hin Hb E).
    apply write_datas_inline; assumption.
  Qed.

Lemma moving_line (a b c d : string) :
    exists m,
      py_format "Moving attachment (id={}) {}/{} (status: {{}}): {}"
                [a; b; c; d] = Some m.
  Proof. eexists. reflexivity. Qed.

  (** What follows the write in a turn only logs: it returns, with the
      world and [attachment_ids] as they were. *)
Lemma after_write (x : Z) (n m : string) (d : field) (st : locals)
      (w : World.t) :
    exists st1 j,
      interp env
        (r <- (line <~ boption (py_format m ["ok"]) XFormatError ;;
               blog line)
                (set_status
                   (set_msg
                      (set_attachment st
                         [("id", FInt x); ("name", FStr n); ("datas", d)])
                      m)
                   "ok") ;;
         (let (st0, r0) := r in
          match r0 with
          | Ok _ => Ret st0
          | Failed e =>
              if is_fault e then except_fault x e st0
              else except_exception st0
          end)) w
      = (Returned st1, w, j)
      /\ attachment_ids st1 = attachment_ids st.
  Proof.
    destruct (py_format m ["ok"]) as [line |].
    - cbn [boption bdone bbind bind blog interp handle env World.env
           World.answer].
      eexists. eexists. split; reflexivity.
    - cbn [boption braise bbind bind interp is_fault].
      unfold except_exception.
      cbn [attachment set_status set_msg set_attachment item getitem
           String.eqb Ascii.eqb Bool.eqb bind].
      unfold format at 1. rewrite error_line_is. cbn [bind status set_msg
        set_status set_attachment].
      unfold format.
      rewrite (py_format_plain _ ["ok"] (no_braces_error_line x)).
      unfold log.
      cbn [bind interp handle env World.env World.answer].
      eexists. eexists. split; reflexivity.
  Qed.

  (** One turn of the loop on an attachment that has its payload
      inline: the payload is written back, which files it, and
      [attachment_ids] is left alone. *)
Lemma turn_files (w : World.t) (a : World.attachment_row) (c total : Z)
      (st : locals) :
    World.broken w = [] ->
    NoDup (map World.att_id (World.attachments w)) ->
    In a (World.attachments w) ->
    has_location w -> inline_only a ->
    exists st1 j,
      interp env (move_attachment (World.att_id a) c total st) w
      = (Returned st1,
         World.with_attachments w
           (map (fun b => if World.att_id b =? World.att_id a
                          then filed b else b)
                (World.attachments w)), j)
      /\ attachment_ids st1 = attachment_ids st.
  Proof.
    intros B N Hin L I.
    unfold move_attachment, try_block.
    unfold bbind at 1. unfold battempt at 1.
    cbn [bind interp handle env World.env World.answer].
    rewrite (read_attachment w a B N Hin).
    cbn [hd_error boption bdone bbind bind bassign getitem String.eqb
         Ascii.eqb Bool.eqb].
    destruct (moving_line (py_str (FInt (World.att_id a))) (str_of_Z c)
                (str_of_Z total) (py_str (FStr (World.att_name a))))
      as [m Hm].
    rewrite Hm.
    cbn [hd_error boption bdone bbind bind bassign getitem String.eqb
         Ascii.eqb Bool.eqb battempt interp handle env World.env
         World.answer].
    rewrite (write_attachment_datas w a B N Hin L I).
    cbn [boption bdone bbind bind bassign].
    destruct (after_write (World.att_id a) (World.att_name a) m
                (World.datas w a) st
                (World.with_attachments w
                   (map (fun b => if World.att_id b =? World.att_id a
                                  then filed b else b)
                        (World.attachments w))))
      as (st1 & j & -> & Hst).
    exists st1. eexists. split; [reflexivity | exact Hst].
  Qed.

Lemma with_attachments_same (w : World.t) :
    World.with_attachments w (World.attachments w) = w.
  Proof. destruct w. reflexivity. Qed.

Lemma filed_id (l : list World.attachment_row) (f : Z -> bool) :
    map World.att_id (map (fun b => if f (World.att_id b) then filed b else b)
                          l)
    = map World.att_id l.
  Proof.
    rewrite map_map. apply map_ext. intro b.
    destruct (f (World.att_id b)); reflexivity.
  Qed.

  (** The loop on the reference server: every attachment it goes
      through is filed, none leaves [attachment_ids]. *)
Lemma loop_files (l : list Z) :
    forall (c total : Z) (st : locals) (w : World.t),
      World.broken w = [] ->
      NoDup (map World.att_id (World.attachments w)) ->
      has_location w ->
      NoDup l ->
      (forall x, In x l ->
         exists a, In a (World.attachments w) /\ World.att_id a = x
                   /\ inline_only a) ->
      exists st1 j,
        interp env (move_attachments l c total st) w
        = (Returned st1,
           World.with_attachments w
             (map (fun b => if World.member (World.att_id b) l
                            then filed b else b)
                  (World.attachments w)), j)
        /\ attachment_ids st1 = attachment_ids st.
  Proof.
    induction l as [| x l IH]; intros c total st w B N L Nl Hl.
    - exists st, []. split; [| reflexivity]. cbn [move_attachments interp].
      unfold World.member. cbn [existsb]. rewrite map_id.
      rewrite with_attachments_same. reflexivity.
    - inversion Nl as [| ? ? Hx Nl']; subst.
      destruct (Hl x (or_introl eq_refl)) as (a & Ha & <- & Ia).
      cbn [move_attachments]. rewrite interp_bind.
      destruct (turn_files w a (c + 1) total st B N Ha L Ia)
        as (st1 & j1 & -> & Hst1).
      set (w1 := World.with_attachments w
                   (map (fun b => if World.att_id b =? World.att_id a
                                  then filed b else b)
                        (World.attachments w))).
      assert (N1 : NoDup (map World.att_id (World.attachments w1))).
      { unfold w1. rewrite attachments_with.
        rewrite (filed_id _ (fun i => i =? World.att_id a)). exact N. }
      assert (H1 : forall y, In y l ->
                exists b, In b (World.attachments w1) /\ World.att_id b = y
                          /\ inline_only b).
      { intros y Hy. destruct (Hl y (or_intror Hy)) as (b & Hb & <- & Ib).
        exists b. split; [| split; [reflexivity | exact Ib]].
        unfold w1. rewrite attachments_with. apply in_map_iff.
        exists b. split; [| exact Hb].
        destruct (Z.eqb_spec (World.att_id b) (World.att_id a)) as [E | _];
          [| reflexivity].
        exfalso. apply Hx. rewrite <- E. exact Hy. }
      destruct (IH (c + 1) total st1 w1 B N1 L Nl' H1)
        as (st2 & j2 & -> & Hst2).
      exists st2. eexists. split; [| rewrite Hst2; exact Hst1].
      f_equal. f_equal. unfold w1. rewrite with_with, attachments_with.
      f_equal. rewrite map_map. apply map_ext. intro b.
      unfold World.member. cbn [existsb].
      destruct (Z.eqb_spec (World.att_id b) (World.att_id a)) as [E | _].
      + cbn [orb World.att_id filed]. rewrite E.
        destruct (existsb (Z.eqb (World.att_id a)) l) eqn:M; [| reflexivity].
        exfalso. apply Hx. apply member_In. exact M.
      + reflexivity.
  Qed.

Lemma interp_log {A : Type} (m : string) (k : unit -> script A)
      (w : World.t) :
    interp env (bind (log m false) k) w
    = let '(o, w2, j) := interp env (k tt) w in
      (o, w2, Obs (Logging INFO m) tt :: j).
  Proof. reflexivity. Qed.

Lemma search_all_attachments (w : World.t) :
    World.search w "ir.attachment" []
    = Ok (map World.att_id (World.attachments w)).
  Proof.
    unfold World.search.
    change (World.records w "ir.attachment")
      with (Some (map (fun b => (World.att_id b, World.attachment_record w b))
                      (World.attachments w))).
    cbv beta iota. f_equal. generalize (World.attachment_record w).
    intro g. cbn [forallb].
    induction (World.attachments w) as [| b l IH]; [reflexivity |].
    cbn [map filter fst]. rewrite IH. reflexivity.
  Qed.

  (** Lines 139-172 once the location parameter is there. *)
Lemma rest_moves (w : World.t) :
    World.broken w = [] ->
    NoDup (map World.att_id (World.attachments w)) ->
    has_location w ->
    Forall inline_only (World.attachments w) ->
    fst (interp env
           (log "Begin moving attachments" false ;;
            ids <- execute (Search "ir.attachment" [] None) ;;
            move_and_delete ids) w)
    = (Returned tt,
       World.with_attachments w (map moved (World.attachments w))).
  Proof.
    intros B N L F.
    rewrite interp_log.
    rewrite (interp_execute transcode _ _ w w
               (map World.att_id (World.attachments w)))
      by (cbn [handle env World.env World.answer];
          rewrite search_all_attachments; reflexivity).
    unfold move_and_delete. rewrite interp_bind. fold env.
    destruct (loop_files (map World.att_id (World.attachments w)) 0
                (len (map World.att_id (World.attachments w)))
                (fresh_locals (map World.att_id (World.attachments w)))
                w B N L N)
      as (st1 & j1 & -> & Hst1).
    { intros x Hx. apply in_map_iff in Hx. destruct Hx as (a & <- & Ha).
      exists a. split; [exact Ha | split; [reflexivity |]].
      rewrite Forall_forall in F. apply F, Ha. }
    unfold delete_from_database. rewrite interp_log.
    rewrite Hst1. cbn [attachment_ids fresh_locals]. unfold env.
    cbv beta. erewrite interp_execute.
    2:{ cbn [handle env World.env World.answer]. unfold World.write.
        cbn [World.target_ids]. unfold World.is_broken.
        cbn [map fst existsb String.eqb Ascii.eqb Bool.eqb andb orb].
        reflexivity. }
    cbn [interp fst snd]. rewrite with_with, attachments_with.
    f_equal. f_equal. rewrite map_map. apply map_ext_in. intros b Hb.
    assert (M : World.member (World.att_id b)
                  (map World.att_id (World.attachments w)) = true)
      by (apply member_In, in_map, Hb).
    rewrite M. cbn [World.att_id filed]. rewrite M. reflexivity.
  Qed.

Lemma fst_obs {A : Type} (X : outcome A * World.t * journal) (o1 : obs) :
    fst (let '(o, w2, j) := X in (o, w2, o1 :: j)) = fst X.
  Proof. destruct X as [[o w2] j]. reflexivity. Qed.

Lemma interp_upsert (w : World.t) :
    fst (interp env move_using_config_parameter w)
    = fst (interp env
             (log "Begin moving attachments" false ;;
              ids <- execute (Search "ir.attachment" [] None) ;;
              move_and_delete ids)
             (World.with_parameters w
                (upsert_location (World.parameters w)))).
  Proof.
    unfold move_using_config_parameter.
    rewrite (interp_execute transcode _ _ w w
               (map World.par_id (location_rows (World.parameters w))))
      by (cbn [handle env World.env World.answer];
          rewrite search_location; reflexivity).
    unfold upsert_location.
    destruct (location_rows (World.parameters w)) as [| s r] eqn:E.
    - cbn [map]. rewrite interp_bind_assoc.
      erewrite interp_execute by reflexivity.
      cbn [bind]. rewrite !fst_obs. reflexivity.
    - cbn [map]. rewrite interp_bind_assoc.
      erewrite interp_execute by reflexivity.
      cbn [bind]. rewrite !fst_obs. reflexivity.
  Qed.

Lemma has_location_upsert (w : World.t) :
    has_location (World.with_parameters w
                    (upsert_location (World.parameters w))).
  Proof.
    unfold has_location. cbn [World.parameters World.with_parameters].
    destruct (upsert_location_spec (World.parameters w)) as [H _].
    unfold location_rows in H.
    induction (upsert_location (World.parameters w)) as [| p l IH];
      [contradiction |].
    cbn [existsb filter] in *.
    destruct (py_eqb (World.par_key p) (FStr "ir_attachment.location"));
      [reflexivity | apply IH, H].
  Qed.
End Payloads.

(** X15. On the reference server, for attachments of a 7.0 server that
    have their payload inline (distinct identities, no directory, nothing
    in the external store yet, no payload the server fails on), the
    migration through the configuration parameter returns, and at the
    end every attachment has in the external store the payload it had
    inline, and nothing inline any more; nothing else of an attachment
    changes. *)
Theorem payloads_filed_then_cleared :
  forall (transcode : string -> string) (w : World.t),
    World.broken w = [] ->
    NoDup (map World.att_id (World.attachments w)) ->
    Forall inline_only (World.attachments w) ->
    let r := interp (World.env transcode) move_using_config_parameter w in
    fst (fst r) = Returned tt
    /\ World.attachments (snd (fst r)) = map moved (World.attachments w).
Proof.
  intros transcode w B N F r. subst r.
  rewrite (surjective_pairing
             (fst (interp (World.env transcode)
                          move_using_config_parameter w))) at 1.
  rewrite interp_upsert.
  rewrite (rest_moves transcode
             (World.with_parameters w (upsert_location (World.parameters w)))
             B N (has_location_upsert w) F).
  split; reflexivity.
Qed.

Lemma payloads_filed_then_cleared_witness :
  World.attachments
    (snd (fst (interp example_env move_using_config_parameter
                      world_vanished)))
  = map moved (World.attachments world_vanished).
Proof.
  apply (payloads_filed_then_cleared tagged world_vanished).
  - reflexivity.
  - repeat constructor; simpl; intuition discriminate.
  - repeat constructor.
Defined.

(** ** An attachment without directory *)

(** X16. The loop of the migration through document storages takes the
    directory of every attachment from its parent_id: for an attachment
    that has none (the server answers False) the subscript raises
    TypeError; nothing was written for that attachment, the loop ends
    there and the attachments that follow are not looked at. *)
Theorem attachment_without_directory_aborts :
  forall (W : Type) (env : Env W) (old new : Z) (needs : bool) (total : Z)
         (ids1 ids2 : list Z) (x : Z) (a : record) (b : bool)
         (w0 w1 w2 : W) (j1 : journal),
    interp env (move_all_to_filestore old new needs total ids1 0) w0
    = (Returned tt, w1, j1) ->
    handle env (ReadOne "ir.attachment" x ["parent_id"]) w1 = (Ok a, w2) ->
    getitem a "parent_id" = Some (FBool b) ->
    interp env (move_all_to_filestore old new needs total
                                      (ids1 ++ x :: ids2) 0) w0
    = (Raised XTypeError, w2,
       j1 ++ [Obs (ReadOne "ir.attachment" x ["parent_id"]) (Ok a)]).
Proof.
  intros W env old new needs total ids1 ids2 x a b w0 w1 w2 j1 H0 H1 Hp.
  rewrite interp_move_all_app, H0. cbn [move_all_to_filestore].
  rewrite interp_bind.
  unfold move_to_filestore, execute, item, ref_id.
  cbn [bind interp]. rewrite H1. cbn [bind interp]. rewrite Hp.
  reflexivity.
Qed.

Lemma attachment_without_directory_aborts_witness :
  exists (w : World.t) (j : journal),
    interp example_env (move_all_to_filestore 1 2 false 1 [10] 0)
           world_uninstalled
    = (Raised XTypeError, w, j).
Proof.
  eexists. eexists.
  eapply (attachment_without_directory_aborts World.t example_env 1 2 false 1
            [] [] 10 [("id", FInt 10); ("parent_id", FBool false)] false
            world_uninstalled).
  - reflexivity.
  - vm_compute. reflexivity.
  - reflexivity.
Defined.

(** ** The installation of the document module *)

(** X17. With --install-document-module and without the manual
    conversion, when the server says that the document module is
    installed, nothing is installed: the run logs that it skips the
    installation and has changed nothing when it gets to the check of
    the path. *)
Theorem installation_skipped :
  forall (W : Type) (env : Env W) (args : Args) (w w1 w2 : W)
         (j1 j2 : journal) (state : field),
    args_install_document_module args = true ->
    args_manual_attachment_conversion args = false ->
    interp env document_module_state w = (Returned state, w1, j1) ->
    interp env document_module_state w1
    = (Returned (FStr "installed"), w2, j2) ->
    let r := interp env (check_document_module_is_installed args ;;
                         install_document_module_if_needed args) w in
    fst (fst r) = Returned tt
    /\ mutations (snd r) = []
    /\ exists m, logged (snd r) = logged j1 ++ logged j2 ++ [(INFO, m)].
Proof.
  intros W env args w w1 w2 j1 j2 state Hi Hm H1 H2 r. subst r.
  unfold check_document_module_is_installed,
    install_document_module_if_needed.
  rewrite Hi, Hm. cbn [negb].
  rewrite interp_bind_assoc, interp_bind, H1. rewrite andb_false_r.
  cbn [bind]. rewrite interp_bind, H2.
  cbn [py_eqb String.eqb Ascii.eqb Bool.eqb bind log interp].
  destruct (handle env (Logging INFO _) w2) as [[] w3].
  cbn [fst snd].
  destruct (safe_interp env read_only (fun _ => True)
              document_module_state w document_module_state_safe)
    as [R1 _].
  destruct (safe_interp env read_only (fun _ => True)
              document_module_state w1 document_module_state_safe)
    as [R2 _].
  rewrite H1 in R1. rewrite H2 in R2. simpl in R1, R2.
  apply read_only_mutations in R1. apply read_only_mutations in R2.
  split; [reflexivity |]. split.
  - rewrite !mutations_app, R1, R2. reflexivity.
  - eexists. rewrite !logged_app. reflexivity.
Qed.

Lemma installation_skipped_witness :
  mutations
    (snd (interp example_env
            (check_document_module_is_installed install_args ;;
             install_document_module_if_needed install_args)
            world_installed))
  = [].
Proof.
  eapply (installation_skipped World.t example_env install_args
            world_installed).
  - reflexivity.
  - reflexivity.
  - vm_compute. reflexivity.
  - vm_compute. reflexivity.
Defined.

(** * The check of the path of the filestore *)

Section PathCheck.
Context {W : Type} (env : Env W).
Variable args : Args.

  (** [check_filestore_path] returns only right after the directory test
      has answered true. *)
Lemma check_filestore_path_returns (w w1 : W) (u : unit) (j : journal) :
    interp env (check_filestore_path args) w = (Returned u, w1, j) ->
    falsy (args_filestore_path args) = false
    /\ j = [Obs (IsDir (filestore_path args)) true].
  Proof.
    unfold check_filestore_path, log, filestore_path.
    destruct (falsy (args_filestore_path args)).
    - simpl. destruct (handle env (Logging ERROR _) w) as [[] w2].
      discriminate.
    - cbn [interp].
      destruct (handle env (IsDir _) w) as [[|] w2].
      + simpl. intro H. injection H as _ _ <-. split; reflexivity.
      + unfold format.
        destruct (py_format _ _) as [line |]; simpl; [| discriminate].
        destruct (handle env (Logging ERROR line) w2) as [[] w3].
        discriminate.
  Qed.

  (** A path that is missing, or that is no directory when it is tested,
      ends [check_filestore_path] with the code of that failure. *)
Lemma check_filestore_path_exits (w : W) :
    falsy (args_filestore_path args) = true
    \/ fst (handle env (IsDir (filestore_path args)) w) = false ->
    exists w1 j,
      interp env (check_filestore_path args) w
      = (Exited (path_code args), w1, j)
      /\ mutations j = [].
  Proof.
    intro H. unfold check_filestore_path, path_code, log, filestore_path in *.
    destruct (falsy (args_filestore_path args)) eqn:F.
    - simpl. destruct (handle env (Logging ERROR _) w) as [[] w1].
      eexists. eexists. split; reflexivity.
    - destruct H as [H | H]; [discriminate |]. cbn [interp].
      destruct (handle env (IsDir _) w) as [b w1].
      simpl in H. subst b. simpl.
      destruct (handle env (Logging ERROR _) w1) as [[] w2].
      eexists. eexists. split; reflexivity.
  Qed.

Lemma pre_move_checks_split (w : W) :
    interp env (pre_move_checks args) w
    = interp env (checks_before_path args ;; check_filestore_path args) w.
  Proof.
    unfold pre_move_checks, checks_before_path.
    rewrite interp_bind_assoc. rewrite !(interp_bind env _ _ w).
    destruct (interp env _ w) as [[o w1] j1].
    destruct o as [u | c | e]; [| reflexivity | reflexivity].
    rewrite interp_bind_assoc. reflexivity.
  Qed.
End PathCheck.

Lemma only_read_only_pre_move_checks (args : Args) :
  args_install_document_module args = false ->
  only read_only (pre_move_checks args).
Proof.
  intro Hi.
  unfold pre_move_checks, check_document_module_is_installed,
    install_document_module_if_needed, check_filestore_path,
    document_module_state.
  rewrite Hi. repeat only_step.
Qed.

Lemma only_read_only_check_filestore_path (args : Args) :
  only read_only (check_filestore_path args).
Proof. unfold check_filestore_path. repeat only_step. Qed.

Lemma exits_in_pre_move_checks_path (args : Args) :
  exits_in [ERROR_NO_DNS; ERROR_DOCUMENT_NOT_INSTALLED; path_code args]
           (pre_move_checks args).
Proof.
  unfold pre_move_checks, check_document_module_is_installed,
    install_document_module_if_needed, document_module_state.
  repeat first [ exits_step
               | apply exits_in_manual_attachment_conversion
               | match goal with
                 | |- exits_in _ (check_filestore_path _) =>
                     unfold check_filestore_path, path_code;
                     destruct (falsy (args_filestore_path args))
                 end ].
Qed.

(** What the checks change when the installation is asked for without
    the manual conversion and the module is found installed: nothing. *)
Lemma installed_changes_nothing {W : Type} (env : Env W) (args : Args)
    (w w1 w2 : W) (j1 j2 : journal) (state : field) :
  args_install_document_module args = true ->
  args_manual_attachment_conversion args = false ->
  interp env document_module_state w = (Returned state, w1, j1) ->
  interp env document_module_state w1
  = (Returned (FStr "installed"), w2, j2) ->
  mutations (snd (interp env (pre_move_checks args) w)) = [].
Proof.
  intros Hi Hm H1 H2.
  destruct (safe_interp env read_only (fun _ => True)
              document_module_state w document_module_state_safe)
    as [R1 _].
  destruct (safe_interp env read_only (fun _ => True)
              document_module_state w1 document_module_state_safe)
    as [R2 _].
  rewrite H1 in R1. rewrite H2 in R2. simpl in R1, R2.
  apply read_only_mutations in R1. apply read_only_mutations in R2.
  unfold pre_move_checks. rewrite Hm. cbn [andb bind].
  unfold check_document_module_is_installed,
    install_document_module_if_needed.
  rewrite Hi, Hm. cbn [negb].
  rewrite interp_bind_assoc, interp_bind, H1. rewrite andb_false_r.
  cbn [bind]. rewrite interp_bind_assoc, interp_bind, H2.
  cbn [py_eqb String.eqb Ascii.eqb Bool.eqb bind log interp].
  destruct (handle env (Logging INFO _) w2) as [[] w3].
  pose proof (only_interp read_only env (check_filestore_path args) w3
                (only_read_only_check_filestore_path args)) as R3.
  apply read_only_mutations in R3.
  destruct (interp env (check_filestore_path args) w3) as [[o w4] j4].
  simpl in R3. simpl.
  rewrite !mutations_app, R1, R2. simpl. exact R3.
Qed.

(** C4, amended. The checks of the 6.0 path, and so the run, return only
    when a path is given and the test of the directory, the last thing
    the checks do, has answered true: with a path that is missing or that
    is no directory of the connecting host the run never gets past the
    checks, and it ends as the checks end.  Once the earlier checks have
    passed it ends with ERROR_NO_FILESTORE_PATH or
    ERROR_FILESTORE_PATH_DOES_NOT_EXIST respectively, having changed
    nothing more than the earlier checks did; otherwise it ends with the
    code of the check that failed first or with the exception that an
    earlier step raised.  The checks change no record and send no
    statement that changes the database when --install-document-module is
    not given, and also when the manual conversion is not asked for and
    the document module is found installed. *)
Theorem path_checked_before_migration :
  forall (W : Type) (env : Env W) (args : Args) (w : W),
    let checks := interp env (pre_move_checks args) w in
    let r := interp env (move_using_document_storage args) w in
    (forall u, fst (fst checks) = Returned u ->
       falsy (args_filestore_path args) = false
       /\ exists j0,
            snd checks = j0 ++ [Obs (IsDir (filestore_path args)) true])
    /\ (forall u, fst (fst r) = Returned u ->
          falsy (args_filestore_path args) = false
          /\ In (Obs (IsDir (filestore_path args)) true) (snd r))
    /\ ((forall u, fst (fst checks) <> Returned u) -> r = checks)
    /\ (forall c, fst (fst checks) = Exited c ->
          In c [ERROR_NO_DNS; ERROR_DOCUMENT_NOT_INSTALLED; path_code args])
    /\ (forall (w1 : W) (j1 : journal),
          interp env (checks_before_path args) w = (Returned tt, w1, j1) ->
          falsy (args_filestore_path args) = true
          \/ fst (handle env (IsDir (filestore_path args)) w1) = false ->
          fst (fst r) = Exited (path_code args)
          /\ mutations (snd r) = mutations j1)
    /\ (args_install_document_module args = false ->
        mutations (snd checks) = [])
    /\ (args_manual_attachment_conversion args = false ->
        forall (state : field) (w1 w2 : W) (j1 j2 : journal),
          interp env document_module_state w = (Returned state, w1, j1) ->
          interp env document_module_state w1
          = (Returned (FStr "installed"), w2, j2) ->
          mutations (snd checks) = []).
Proof.
  intros W env args w checks r. subst checks r.
  assert (C1 : forall u, fst (fst (interp env (pre_move_checks args) w))
                         = Returned u ->
               falsy (args_filestore_path args) = false
               /\ exists j0,
                    snd (interp env (pre_move_checks args) w)
                    = j0 ++ [Obs (IsDir (filestore_path args)) true]).
  { intros u. rewrite pre_move_checks_split, interp_bind.
    destruct (interp env (checks_before_path args) w) as [[o w1] j1].
    destruct o as [[] | c | e]; simpl; try discriminate.
    destruct (interp env (check_filestore_path args) w1) as [[o2 w2] j2]
      eqn:E.
    simpl. intros ->.
    destruct (check_filestore_path_returns env args w1 w2 u j2 E)
      as [F ->].
    split; [exact F | exists j1; reflexivity]. }
  split; [exact C1 |]. split; [| split; [| split; [| split; [| split]]]].
  - intros u. unfold move_using_document_storage. rewrite interp_bind.
    destruct (interp env (pre_move_checks args) w) as [[o w1] j1].
    destruct o as [u1 | c | e]; [| discriminate | discriminate].
    destruct (C1 u1 eq_refl) as [F [j0 E]]. simpl in E. subst j1.
    match goal with
    | |- context [interp env ?p w1] =>
        destruct (interp env p w1) as [[o2 w2] j2]
    end.
    simpl. intros _. split; [exact F |].
    apply in_or_app. left. apply in_or_app. right. left. reflexivity.
  - intro H. unfold move_using_document_storage. rewrite interp_bind.
    destruct (interp env (pre_move_checks args) w) as [[o w1] j1].
    destruct o as [u | c | e]; [| reflexivity | reflexivity].
    exfalso. exact (H u eq_refl).
  - apply exits_in_interp. apply exits_in_pre_move_checks_path.
  - intros w1 j1 H Hp. unfold move_using_document_storage.
    rewrite interp_bind, pre_move_checks_split, interp_bind, H.
    destruct (check_filestore_path_exits env args w1 Hp)
      as (w2 & j2 & -> & M).
    simpl. split; [reflexivity |].
    rewrite mutations_app, M. apply app_nil_r.
  - intro Hi. apply read_only_mutations.
    apply (only_interp read_only env (pre_move_checks args) w).
    apply only_read_only_pre_move_checks. exact Hi.
  - intros Hm state w1 w2 j1 j2 H1 H2.
    destruct (args_install_document_module args) eqn:Hi.
    + exact (installed_changes_nothing env args w w1 w2 j1 j2 state
               Hi Hm H1 H2).
    + apply read_only_mutations.
      apply (only_interp read_only env (pre_move_checks args) w).
      apply only_read_only_pre_move_checks. exact Hi.
Qed.

Lemma path_checked_before_migration_witness :
  fst (fst (interp example_env (move_using_document_storage no_path_args)
                   world_installed))
  = Exited ERROR_NO_FILESTORE_PATH
  /\ fst (fst (interp example_env
                      (move_using_document_storage missing_dir_args)
                      world_installed))
     = Exited ERROR_FILESTORE_PATH_DOES_NOT_EXIST
  /\ mutations (snd (interp example_env
                            (move_using_document_storage missing_dir_args)
                            world_installed))
     = [].
Proof.
  split; [| split].
  - refine (proj1 (proj1 (proj2 (proj2 (proj2 (proj2
              (path_checked_before_migration World.t example_env
                 no_path_args world_installed))))) world_installed _ _ _));
      [vm_compute; reflexivity | left; reflexivity].
  - refine (proj1 (proj1 (proj2 (proj2 (proj2 (proj2
              (path_checked_before_migration World.t example_env
                 missing_dir_args world_installed))))) world_installed _ _ _));
      [vm_compute; reflexivity | right; vm_compute; reflexivity].
  - rewrite (proj1 (proj2 (proj2
               (path_checked_before_migration World.t example_env
                  missing_dir_args world_installed)))).
    + apply (proj1 (proj2 (proj2 (proj2 (proj2 (proj2
               (path_checked_before_migration World.t example_env
                  missing_dir_args world_installed))))))).
      reflexivity.
    + vm_compute. intros u H. discriminate H.
Defined.

(** C4 as stated fails: with --install-document-module and no
    --filestore-path, on a server without the document module, the run
    ends with ERROR_NO_FILESTORE_PATH after the module has been
    installed. *)
Lemma install_precedes_path_check :
  let r := interp example_env (move_using_document_storage install_args)
                  world_uninstalled in
  fst (fst r) = Exited ERROR_NO_FILESTORE_PATH
  /\ map World.mod_state (World.modules world_uninstalled)
     = ["installed"; "uninstalled"]
  /\ map World.mod_state (World.modules (snd (fst r)))
     = ["installed"; "installed"]
  /\ List.length (mutations (snd r)) = 3%nat.
Proof. vm_compute. repeat split. Qed.
